(** * Map tile tree and imagery providers (WebMapTileTree.ts)

    A shallow embedding of the quadtree addressing, the Bing imagery
    provider, the tile loader and the tile tree supplier of the frontend's
    [WebMapTileTree.ts], with the properties stated about them. *)

From Stdlib Require Import ZArith QArith String Ascii Lia Lqa Bool.
From Stdlib.Strings Require Import Byte.
From Stdlib Require OrderedTypeEx.
From stdpp Require Import base tactics option list strings sorting gmap.

Local Open Scope Z_scope.

(** ** Outcomes of calls that may throw

    A JavaScript call either returns a value or throws; a rejected promise
    of an [async] function is a throw at the [await]. *)

Inductive Outcome (A : Type) : Type :=
| Returned (a : A)
| Thrown.
Arguments Returned {A} a.
Arguments Thrown {A}.

Definition bindO {A B : Type} (m : Outcome A) (k : A -> Outcome B) : Outcome B :=
  match m with
  | Returned a => k a
  | Thrown => Thrown
  end.

(** [try { m } catch (e) { h }] *)
Definition tryCatch {A : Type} (m : Outcome A) (h : Outcome A) : Outcome A :=
  match m with
  | Returned a => Returned a
  | Thrown => h
  end.

Notation "'let!' x ':=' m 'in' k" := (bindO m (fun x => k))
  (at level 10, x pattern, m at level 100, k at level 200).

(** Modelled from the spec: [assert] is imported from bentleyjs-core, which is
    not part of these sources.  The spec describes assertions as checks of
    debug builds that fail loudly there, and the fallbacks behind them as what
    production code runs; [assertionsEnabled] tells the two builds apart. *)
Definition assert (assertionsEnabled : bool) (condition : bool) : Outcome unit :=
  if assertionsEnabled && negb condition then Thrown else Returned tt.

(** ** JavaScript numbers and strings

    The numbers that reach this code as levels, columns, rows, depths and
    zoom levels are integer valued or [NaN] (the result of a failed
    [parseInt]); geographic coordinates are modelled apart, as rationals. *)

Module JS.

Inductive number : Type :=
| NaN
| Num (z : Z).

(** Relational operators: every comparison with [NaN] is false. *)
Definition lt (a b : number) : bool :=
  match a, b with
  | Num x, Num y => x <? y
  | _, _ => false
  end.

Definition ge (a b : number) : bool :=
  match a, b with
  | Num x, Num y => y <=? x
  | _, _ => false
  end.

Definition gt (a b : number) : bool := lt b a.

(** *** Rounding to a double

    An integer is a Number value when it fits a 53 bit significand;
    [roundToDouble] is round-to-nearest, ties to even, on integers. *)
Definition roundMagnitude (v : Z) : Z :=
  let bits := Z.log2 v + 1 in
  if bits <=? 53 then v
  else
    let sh := bits - 53 in
    let q := Z.shiftr v sh in
    let r := Z.land v (Z.ones sh) in
    let half := Z.shiftl 1 (sh - 1) in
    let q' := if r <? half then q
              else if half <? r then q + 1
              else if Z.even q then q else q + 1 in
    Z.shiftl q' sh.

Definition roundToDouble (z : Z) : Z := Z.sgn z * roundMagnitude (Z.abs z).

Definition isDouble (z : Z) : Prop := roundToDouble z = z.

(** [a + b]: the sum of the integers, rounded to a Number value. *)
Definition add (a b : number) : number :=
  match a, b with
  | Num x, Num y => Num (roundToDouble (x + y))
  | _, _ => NaN
  end.

(** *** Decimal numerals *)

Definition digitChar (d : Z) : ascii := ascii_of_N (48 + Z.to_N d).

Definition isDigit (c : ascii) : bool :=
  let n := N_of_ascii c in ((48 <=? n) && (n <=? 57))%N.

Definition digitVal (c : ascii) : Z := Z.of_N (N_of_ascii c) - 48.

(** The digits of [v], most significant first, pushed in front of [acc]. *)
Fixpoint digitsOf (fuel : nat) (v : Z) (acc : string) : string :=
  match fuel with
  | O => acc
  | S f =>
      let acc' := String (digitChar (v mod 10)) acc in
      if v / 10 =? 0 then acc' else digitsOf f (v / 10) acc'
  end.

Definition decimal (v : Z) : string :=
  digitsOf (S (Z.to_nat (Z.log2 v))) v "".

Definition numDigits (v : Z) : Z := Z.of_nat (String.length (decimal v)).

Fixpoint allDigits (s : string) : bool :=
  match s with
  | "" => true
  | String c s' => isDigit c && allDigits s'
  end.

(** Value of a run of digits read left to right, starting from [acc]. *)
Fixpoint digitsValue (s : string) (acc : Z) : Z :=
  match s with
  | "" => acc
  | String c s' => digitsValue s' (10 * acc + digitVal c)
  end.

(** *** Number::toString

    For a positive [x], ECMAScript picks the shortest digit string [s] and
    the exponent [n] such that [s * 10^(n-k)] rounds to [x] ([k] the number
    of digits of [s]); [shortest x] is that value [s * 10^(n-k)], the
    candidate closest to [x] when two of one length round to [x]. *)
Fixpoint shortestFrom (x D k : Z) (fuel : nat) : Z :=
  match fuel with
  | O => x
  | S f =>
      let p := 10 ^ (D - k) in
      let lo := x / p * p in
      let hi := lo + p in
      let okLo := roundToDouble lo =? x in
      let okHi := roundToDouble hi =? x in
      if okLo && okHi then (if x - lo <=? hi - x then lo else hi)
      else if okLo then lo
      else if okHi then hi
      else shortestFrom x D (k + 1) f
  end.

Definition shortest (x : Z) : Z :=
  let D := numDigits x in shortestFrom x D 1 (Z.to_nat D).

Fixpoint stripTrailingZeros (s : string) : string :=
  match s with
  | "" => ""
  | String c s' =>
      match stripTrailingZeros s' with
      | "" => if Ascii.eqb c "0" then "" else String c ""
      | t => String c t
      end
  end.

(** [d.ddde+n] for a value of 22 digits or more. *)
Definition exponential (v : Z) : string :=
  match stripTrailingZeros (decimal v) with
  | "" => "0"
  | String d "" => String d ("e+" +:+ decimal (numDigits v - 1))
  | String d ds => String d ("." +:+ ds +:+ "e+" +:+ decimal (numDigits v - 1))
  end.

Definition positiveToString (x : Z) : string :=
  let v := shortest x in
  if numDigits v <=? 21 then decimal v else exponential v.

Definition toString (x : number) : string :=
  match x with
  | NaN => "NaN"
  | Num z =>
      if z =? 0 then "0"
      else if z <? 0 then "-" +:+ positiveToString (- z)
      else positiveToString z
  end.

(** *** parseInt(string, 10) *)

(** White space among the code units below 256. *)
Definition isWhiteSpace (c : ascii) : bool :=
  let n := N_of_ascii c in
  (((9 <=? n) && (n <=? 13)) || (n =? 32) || (n =? 160))%N.

Fixpoint trimStart (s : string) : string :=
  match s with
  | "" => ""
  | String c s' => if isWhiteSpace c then trimStart s' else s
  end.

(** The longest prefix of decimal digits. *)
Fixpoint digitPrefix (s : string) : string :=
  match s with
  | "" => ""
  | String c s' => if isDigit c then String c (digitPrefix s') else ""
  end.

Definition parseInt (s : string) : number :=
  let s1 := trimStart s in
  let sign :=
    match s1 with
    | String c _ => if Ascii.eqb c "-" then -1 else 1
    | "" => 1
    end in
  let s2 :=
    match s1 with
    | String c r => if Ascii.eqb c "-" || Ascii.eqb c "+" then r else s1
    | "" => s1
    end in
  match digitPrefix s2 with
  | "" => NaN
  | ds => Num (roundToDouble (sign * digitsValue ds 0))
  end.

(** *** String.prototype.split with a one character separator *)
Fixpoint split (sep : ascii) (s : string) : list string :=
  match s with
  | "" => [""]
  | String c s' =>
      if Ascii.eqb c sep then "" :: split sep s'
      else
        match split sep s' with
        | [] => [String c ""]
        | p :: ps => String c p :: ps
        end
  end.

(** *** 32 bit integer operators

    [<<] and [&] convert their operands with ToInt32 ([NaN] becomes 0) and
    use the low five bits of the shift count. *)
Definition wrapInt32 (z : Z) : Z :=
  let m := z mod 2 ^ 32 in if m <? 2 ^ 31 then m else m - 2 ^ 32.

Definition toInt32 (x : number) : Z :=
  match x with
  | NaN => 0
  | Num z => wrapInt32 z
  end.

Definition toUint32 (x : number) : Z :=
  match x with
  | NaN => 0
  | Num z => z mod 2 ^ 32
  end.

Definition shl (a b : number) : number :=
  Num (wrapInt32 (Z.shiftl (toInt32 a) (Z.land (toUint32 b) 31))).

Definition band (a b : number) : number :=
  Num (Z.land (toInt32 a) (toInt32 b)).

Definition sub (a b : number) : number :=
  match a, b with
  | Num x, Num y => Num (x - y)
  | _, _ => NaN
  end.

(** [a !== b] on numbers; [NaN] differs from every number. *)
Definition strictNe (a b : number) : bool :=
  match a, b with
  | Num x, Num y => negb (x =? y)
  | _, _ => true
  end.

Definition fromCharCode (code : Z) : ascii := ascii_of_N (Z.to_N (code mod 2 ^ 16)).

(** [a % b] on integer valued numbers: the sign is that of the dividend, and
    the remainder by zero is [NaN]. *)
Definition rem (a b : number) : number :=
  match a, b with
  | Num x, Num y => if y =? 0 then NaN else Num (Z.rem x y)
  | _, _ => NaN
  end.

(** *** String.prototype.replace with a string pattern

    The first occurrence of the pattern is replaced; in the replacement text
    [$$], [$&], [$`] and [$'] stand for a dollar sign, the match, what comes
    before it and what comes after it. *)
Fixpoint stripPrefix (p s : string) : option string :=
  match p, s with
  | "", _ => Some s
  | String a p', String b s' => if Ascii.eqb a b then stripPrefix p' s' else None
  | String _ _, "" => None
  end.

Fixpoint getSubstitution (matched before after replacement : string) : string :=
  match replacement with
  | "" => ""
  | String c r =>
      if Ascii.eqb c "$" then
        match r with
        | "" => String c ""
        | String d r' =>
            if Ascii.eqb d "$" then String "$" (getSubstitution matched before after r')
            else if Ascii.eqb d "&" then matched +:+ getSubstitution matched before after r'
            else if Ascii.eqb d "`" then before +:+ getSubstitution matched before after r'
            else if Ascii.eqb d "'" then after +:+ getSubstitution matched before after r'
            else String c (getSubstitution matched before after r)
        end
      else String c (getSubstitution matched before after r)
  end.

Fixpoint replaceFrom (pattern replacement before s : string) : string :=
  match stripPrefix pattern s with
  | Some after => before +:+ getSubstitution pattern before after replacement +:+ after
  | None =>
      match s with
      | "" => before
      | String c s' => replaceFrom pattern replacement (before +:+ String c "") s'
      end
  end.

Definition replace (s pattern replacement : string) : string :=
  replaceFrom pattern replacement "" s.

(** [s] does not contain the code unit [sep]. *)
Fixpoint avoids (sep : ascii) (s : string) : bool :=
  match s with
  | "" => true
  | String c s' => negb (Ascii.eqb c sep) && avoids sep s'
  end.

End JS.

(** ** QuadId *)

Record QuadId : Type := mkQuadId {
  level : JS.number;
  column : JS.number;
  row : JS.number
}.

Definition isValid (q : QuadId) : bool := JS.ge (level q) (JS.Num 0).

Definition contentId (q : QuadId) : string :=
  JS.toString (level q) +:+ "_" +:+ JS.toString (column q) +:+ "_" +:+ JS.toString (row q).

Definition createFromContentId (assertionsEnabled : bool) (stringId : string)
  : Outcome QuadId :=
  let idParts := JS.split "_" stringId in
  if negb (Nat.eqb 3 (length idParts)) then
    let! _ := assert assertionsEnabled false in
    Returned (mkQuadId (JS.Num (-1)) (JS.Num (-1)) (JS.Num (-1)))
  else
    Returned (mkQuadId (JS.parseInt (nth 0 idParts ""))
                       (JS.parseInt (nth 1 idParts ""))
                       (JS.parseInt (nth 2 idParts ""))).

(** ** Bing imagery provider: quadkeys *)

(** The body of the loop of [tileXYToQuadKey], for the current [i]. *)
Definition quadKeyDigit (tileX tileY : JS.number) (i : Z) : Z :=
  let digit := 48 in
  let mask := JS.shl (JS.Num 1) (JS.sub (JS.Num i) (JS.Num 1)) in
  let digit := if JS.strictNe (JS.band tileX mask) (JS.Num 0) then digit + 1 else digit in
  let digit := if JS.strictNe (JS.band tileY mask) (JS.Num 0) then digit + 1 + 1 else digit in
  digit.

(** [for (let i = zoomLevel; i > 0; i--)], [count] iterations being left. *)
Fixpoint quadKeyLoop (tileX tileY : JS.number) (count : nat) (quadKey : string) : string :=
  match count with
  | O => quadKey
  | S count' =>
      let digit := quadKeyDigit tileX tileY (Z.of_nat count) in
      quadKeyLoop tileX tileY count' (quadKey +:+ String (JS.fromCharCode digit) "")
  end.

Definition tileXYToQuadKey (assertionsEnabled : bool)
    (tileX tileY zoomLevel : JS.number) : Outcome string :=
  let! _ := assert assertionsEnabled (JS.strictNe (JS.Num 0) zoomLevel) in
  Returned
    match zoomLevel with
    | JS.NaN => ""
    | JS.Num z => quadKeyLoop tileX tileY (Z.to_nat z) ""
    end.

(** The digit the quadkey has for bit position [i] according to the digit
    formula: the row bit counts 2, the column bit 1. *)
Definition quadKeyDigitAt (column row i : Z) : ascii :=
  JS.fromCharCode (48 + 2 * Z.b2z (Z.testbit row i) + Z.b2z (Z.testbit column i)).

(** ** Geodetic ranges and coverage

    Longitudes and latitudes are finite doubles; the code only compares them,
    and comparison of finite doubles is that of the rationals they denote. *)

Definition Qltb (a b : Q) : bool := negb (Qle_bool b a).

Record Cartographic : Type := mkCartographic {
  longitude : Q;
  latitude : Q
}.

Record Point2d : Type := mkPoint2d { x : Q; y : Q }.

(** Modelled from the spec: Range2d belongs to geometry-core, which is not
    part of these sources.  [getLatLongRange] is described as returning the
    bounding box of the corners it projects: a range is null until it is
    extended, and extending it gives the smallest box that holds the point
    too. *)
Inductive Range2d : Type :=
| NullRange2d
| Box2d (low high : Point2d).

Definition Range2d_createNull : Range2d := NullRange2d.

Definition Range2d_extendXY (range : Range2d) (px py : Q) : Range2d :=
  match range with
  | NullRange2d => Box2d (mkPoint2d px py) (mkPoint2d px py)
  | Box2d low high =>
      Box2d (mkPoint2d (if Qltb px (x low) then px else x low)
                       (if Qltb py (y low) then py else y low))
            (mkPoint2d (if Qltb (x high) px then px else x high)
                       (if Qltb (y high) py then py else y high))
  end.

(** What the code takes from MapTilingScheme and Angle, neither of which is
    part of these sources: the projection of a tile corner to radians and
    the conversion of radians to degrees. *)
Record MapTilingScheme : Type := mkMapTilingScheme {
  tileXYToCartographic : JS.number -> JS.number -> JS.number -> Cartographic;
  timesDegreesPerRadian : Q -> Q
}.

Definition getLatLongRange (q : QuadId) (mapTilingScheme : MapTilingScheme) : Range2d :=
  let range := Range2d_createNull in
  let scratch := tileXYToCartographic mapTilingScheme (column q) (row q) (level q) in
  let range := Range2d_extendXY range
                 (timesDegreesPerRadian mapTilingScheme (longitude scratch))
                 (timesDegreesPerRadian mapTilingScheme (latitude scratch)) in
  let scratch := tileXYToCartographic mapTilingScheme
                   (JS.add (column q) (JS.Num 1)) (JS.add (row q) (JS.Num 1)) (level q) in
  let range := Range2d_extendXY range
                 (timesDegreesPerRadian mapTilingScheme (longitude scratch))
                 (timesDegreesPerRadian mapTilingScheme (latitude scratch)) in
  range.

Record Coverage : Type := mkCoverage {
  _lowerLeftLatitude : Q;
  _lowerLeftLongitude : Q;
  _upperRightLatitude : Q;
  _upperRightLongitude : Q;
  _minimumZoomLevel : JS.number;
  _maximumZoomLevel : JS.number
}.

Definition overlaps (this : Coverage) (quadId : QuadId) (tilingScheme : MapTilingScheme) : bool :=
  match getLatLongRange quadId tilingScheme with
  | NullRange2d => false
  | Box2d low high =>
      if JS.lt (level quadId) (_minimumZoomLevel this) then false
      else if JS.gt (level quadId) (_maximumZoomLevel this) then false
      else if Qltb (_upperRightLongitude this) (x low) then false
      else if Qltb (_upperRightLatitude this) (y low) then false
      else if Qltb (x high) (_lowerLeftLongitude this) then false
      else if Qltb (y high) (_lowerLeftLatitude this) then false
      else true
  end.

(** The inclusive intersection test of two axis-aligned boxes, as the spec
    words it: on each axis neither box starts after the other has ended. *)
Definition boxesIntersect (low high : Point2d) (c : Coverage) : Prop :=
  (x low <= _upperRightLongitude c)%Q /\ (_lowerLeftLongitude c <= x high)%Q
  /\ (y low <= _upperRightLatitude c)%Q /\ (_lowerLeftLatitude c <= y high)%Q.

(** A point of the plane lies in the quad's range, in the coverage's box. *)
Definition inRange (low high : Point2d) (px py : Q) : Prop :=
  (x low <= px <= x high)%Q /\ (y low <= py <= y high)%Q.

Definition inCoverage (c : Coverage) (px py : Q) : Prop :=
  (_lowerLeftLongitude c <= px <= _upperRightLongitude c)%Q
  /\ (_lowerLeftLatitude c <= py <= _upperRightLatitude c)%Q.

(** ** Tiles and attributions *)

Record Tile : Type := mkTile {
  tileContentId : string;
  depth : Z
}.

Record BingAttribution : Type := mkBingAttribution {
  copyrightMessage : string;
  _coverages : list Coverage
}.

Definition matchesTile (assertionsEnabled : bool) (this : BingAttribution)
    (tile : Tile) (tilingScheme : MapTilingScheme) : Outcome bool :=
  let! quadId := createFromContentId assertionsEnabled (tileContentId tile) in
  Returned (existsb (fun coverage => overlaps coverage quadId tilingScheme) (_coverages this)).

(** ** Imagery providers *)

#[export] Instance byte_eq_dec : EqDecision Byte.byte := Byte.byte_eq_dec.

Inductive ImageSourceFormat : Type := Jpeg | Png.

#[export] Instance ImageSourceFormat_eq_dec : EqDecision ImageSourceFormat.
Proof. solve_decision. Defined.

Record ImageSource : Type := mkImageSource {
  data : list Byte.byte;
  format : ImageSourceFormat
}.

(** What [request] resolves to: the body, as the bytes [new Uint8Array(body)]
    holds (none for an absent body), and the content-type header if any. *)
Record Response : Type := mkResponse {
  body : list Byte.byte;
  contentType : option string
}.

(** The abstract class: the methods [loadTile] calls on [this]. *)
Class ImageryProvider (P : Type) : Type := {
  constructUrl : bool -> P -> JS.number -> JS.number -> JS.number -> Outcome string;
  matchesMissingTile : P -> list Byte.byte -> bool
}.

(** The base class's [matchesMissingTile]. *)
Definition ImageryProvider_matchesMissingTile {P : Type} (this : P)
    (_tileData : list Byte.byte) : bool := false.

Section LoadTile.
Context {P : Type} `{ImageryProvider P}.
(** The HTTP client, which is not part of these sources: a request
    resolves to a response or is rejected. *)
Variable request : string -> Outcome Response.
Variable assertionsEnabled : bool.

Definition loadTile (this : P) (row column zoomLevel : JS.number)
  : Outcome (option ImageSource) :=
  let! tileUrl := constructUrl assertionsEnabled this row column zoomLevel in
  tryCatch
    (let! tileResponse := request tileUrl in
     let byteArray := body tileResponse in
     if Nat.eqb (length byteArray) 0 then Returned None
     else if matchesMissingTile this byteArray then Returned None
     else
       if bool_decide (contentType tileResponse = Some "image/jpeg") then
         Returned (Some (mkImageSource byteArray Jpeg))
       else if bool_decide (contentType tileResponse = Some "image/png") then
         Returned (Some (mkImageSource byteArray Png))
       else
         let! _ := assert assertionsEnabled false in
         Returned None)
    (Returned None).
End LoadTile.

(** *** Bing *)

Record BingImageryProvider : Type := mkBingImageryProvider {
  _urlTemplate : option string;
  _urlSubdomains : option (list string);
  _attributions : option (list BingAttribution);
  _missingTileData : option (list Byte.byte);
  _mapTilingScheme : MapTilingScheme
}.

(** [for (let i = 0; i < tileData.length; i += 10)], with [fuel] turns left. *)
Fixpoint missingTileLoop (missingTileData tileData : list Byte.byte)
    (fuel : nat) (i : nat) : bool :=
  match fuel with
  | O => true
  | S fuel' =>
      if (i <? length tileData)%nat then
        if negb (bool_decide (missingTileData !! i = tileData !! i)) then false
        else missingTileLoop missingTileData tileData fuel' (i + 10)
      else true
  end.

Definition Bing_matchesMissingTile (this : BingImageryProvider)
    (tileData : list Byte.byte) : bool :=
  match _missingTileData this with
  | None => false
  | Some missingTileData =>
      if negb (Nat.eqb (length tileData) (length missingTileData)) then false
      else missingTileLoop missingTileData tileData (length tileData) 0
  end.

Definition Bing_constructUrl (assertionsEnabled : bool) (this : BingImageryProvider)
    (row column zoomLevel : JS.number) : Outcome string :=
  let! quadKey := tileXYToQuadKey assertionsEnabled column row zoomLevel in
  match _urlSubdomains this, _urlTemplate this with
  | Some subdomains, Some template =>
      let subdomain :=
        match JS.rem (JS.add row column) (JS.Num (Z.of_nat (length subdomains))) with
        | JS.Num i => if i <? 0 then None else subdomains !! Z.to_nat i
        | JS.NaN => None
        end in
      let url := JS.replace template "{subdomain}" (default "undefined" subdomain) in
      Returned (JS.replace url "{quadkey}" quadKey)
  | _, _ => Thrown
  end.

#[export] Instance BingImageryProvider_provider : ImageryProvider BingImageryProvider := {
  constructUrl := Bing_constructUrl;
  matchesMissingTile := Bing_matchesMissingTile
}.

(** The inner loop of [getMatchingAttributions]: [iAttr] runs over the indices
    of [unmatchedSet], of which [count] are left; a deleted entry is a hole. *)
Fixpoint attributionLoop (assertionsEnabled : bool) (tilingScheme : MapTilingScheme)
    (tile : Tile) (count iAttr : nat)
    (matchingAttributions : list BingAttribution)
    (unmatchedSet : list (option BingAttribution))
  : Outcome (list BingAttribution * list (option BingAttribution)) :=
  match count with
  | O => Returned (matchingAttributions, unmatchedSet)
  | S count' =>
      match unmatchedSet !! iAttr with
      | Some (Some attribution) =>
          let! matched := matchesTile assertionsEnabled attribution tile tilingScheme in
          if matched then
            attributionLoop assertionsEnabled tilingScheme tile count' (S iAttr)
              (matchingAttributions ++ [attribution]) (<[iAttr := None]> unmatchedSet)
          else
            attributionLoop assertionsEnabled tilingScheme tile count' (S iAttr)
              matchingAttributions unmatchedSet
      | _ =>
          attributionLoop assertionsEnabled tilingScheme tile count' (S iAttr)
            matchingAttributions unmatchedSet
      end
  end.

Fixpoint tileLoop (assertionsEnabled : bool) (tilingScheme : MapTilingScheme)
    (tiles : list Tile)
    (matchingAttributions : list BingAttribution)
    (unmatchedSet : list (option BingAttribution))
  : Outcome (list BingAttribution * list (option BingAttribution)) :=
  match tiles with
  | [] => Returned (matchingAttributions, unmatchedSet)
  | tile :: tiles' =>
      let! (matchingAttributions', unmatchedSet') :=
        attributionLoop assertionsEnabled tilingScheme tile (length unmatchedSet) 0
          matchingAttributions unmatchedSet in
      tileLoop assertionsEnabled tilingScheme tiles' matchingAttributions' unmatchedSet'
  end.

Definition getMatchingAttributions (assertionsEnabled : bool)
    (this : BingImageryProvider) (tiles : list Tile) : Outcome (list BingAttribution) :=
  match _attributions this with
  | None => Returned []
  | Some attributions =>
      let unmatchedSet := Some <$> attributions in
      let! (matchingAttributions, _) :=
        tileLoop assertionsEnabled (_mapTilingScheme this) tiles [] unmatchedSet in
      Returned matchingAttributions
  end.

(** What [getMatchingAttributions] keeps true of its two arrays, [indices]
    being the positions in the provider's list of the attributions matched
    so far: they are distinct, [matchingAttributions] holds the attributions
    at those positions in that order, [unmatchedSet] is the provider's list
    with a hole at each of them, and each matched attribution matches one of
    the tiles. *)
Definition attributionsInvariant (assertionsEnabled : bool)
    (tilingScheme : MapTilingScheme) (attributions : list BingAttribution)
    (tiles : list Tile) (indices : list nat)
    (matchingAttributions : list BingAttribution)
    (unmatchedSet : list (option BingAttribution)) : Prop :=
  NoDup indices
  /\ Forall2 (fun i attribution => attributions !! i = Some attribution)
             indices matchingAttributions
  /\ length unmatchedSet = length attributions
  /\ (forall i, i ∈ indices -> (i < length attributions)%nat /\ unmatchedSet !! i = Some None)
  /\ (forall i attribution, i ∉ indices -> attributions !! i = Some attribution ->
        unmatchedSet !! i = Some (Some attribution))
  /\ Forall (fun attribution => exists tile, tile ∈ tiles
               /\ matchesTile assertionsEnabled attribution tile tilingScheme = Returned true)
            matchingAttributions.

(** *** MapBox *)

Record MapBoxImageryProvider : Type := mkMapBoxImageryProvider {
  _baseUrl : string
}.

Definition MapBox_constructUrl (assertionsEnabled : bool) (this : MapBoxImageryProvider)
    (row column zoomLevel : JS.number) : Outcome string :=
  let url := _baseUrl this +:+ JS.toString zoomLevel in
  let url := url +:+ "/" +:+ JS.toString column +:+ "/" +:+ JS.toString row in
  let url := url +:+ ".jpg80?access_token=pk%2EeyJ1IjoibWFwYm94YmVudGxleSIsImEiOiJjaWZvN2xpcW00ZWN2czZrcXdreGg2eTJ0In0%2Ef7c9GAxz6j10kZvL%5F2DBHg" in
  Returned url.

#[export] Instance MapBoxImageryProvider_provider : ImageryProvider MapBoxImageryProvider := {
  constructUrl := MapBox_constructUrl;
  matchesMissingTile := ImageryProvider_matchesMissingTile
}.

(** ** Tile loaders *)

(** Array.prototype.sort with a comparison function: a stable sort by the
    sign of the comparison, here by insertion.  The array is sorted in place
    and returned; the list stands for its contents. *)
Section ArraySort.
Context {A : Type} (comparefn : A -> A -> Z).

Fixpoint sortedInsert (v : A) (sorted : list A) : list A :=
  match sorted with
  | [] => [v]
  | w :: rest => if comparefn v w <=? 0 then v :: w :: rest else w :: sortedInsert v rest
  end.

Definition Array_sort (array : list A) : list A := foldr sortedInsert [] array.
End ArraySort.

Definition processSelectedTiles (selected : list Tile) : list Tile :=
  Array_sort (fun lhs rhs => depth lhs - depth rhs) selected.

(** Asynchronous code that runs against the world outside (the DOM, the
    render system, the tile tree): a step takes the world as it is, returns
    or throws, and leaves the world as it has made it. *)
Definition Async (World A : Type) : Type := World -> Outcome A * World.

Definition retA {World A : Type} (a : A) : Async World A := fun w => (Returned a, w).

Definition bindA {World A B : Type} (m : Async World A) (k : A -> Async World B)
  : Async World B :=
  fun w => match m w with
           | (Returned a, w') => k a w'
           | (Thrown, w') => (Thrown, w')
           end.

(** [m.catch(_ => h)], and [try { m } catch (e) { h }] around asynchronous code. *)
Definition catchA {World A : Type} (m : Async World A) (h : Async World A)
  : Async World A :=
  fun w => match m w with
           | (Returned a, w') => (Returned a, w')
           | (Thrown, w') => h w'
           end.

Notation "'await!' x ':=' m 'in' k" := (bindA m (fun x => k))
  (at level 10, x pattern, m at level 100, k at level 200).

Record TileContent (RenderGraphic : Type) : Type := mkTileContent {
  graphic : option RenderGraphic
}.
Arguments mkTileContent {RenderGraphic} graphic.
Arguments graphic {RenderGraphic} t.

Section WebMapTileLoader.
(** The collaborators of the loader, none of which is part of these
    sources: the map tile, the image decoder and the render system. *)
Variables World MapTile HTMLImageElement RenderTexture RenderGraphic : Type.
Variable isLoading : MapTile -> World -> bool.
Variable reprojectCorners : MapTile -> Async World unit.
Variable imageElementFromImageSource : ImageSource -> Async World HTMLImageElement.
Variable createTextureFromImage :
  HTMLImageElement -> bool -> Async World (option RenderTexture).
Variable createTile : RenderTexture -> MapTile -> Async World (option RenderGraphic).
Variable createBatch : RenderGraphic -> MapTile -> Async World RenderGraphic.
Variable assertionsEnabled : bool.

Definition loadTextureImage (imageSource : ImageSource)
    (isCanceled : Async World bool) : Async World (option RenderTexture) :=
  catchA
    (catchA
       (await! image := imageElementFromImageSource imageSource in
        await! canceled := isCanceled in
        if canceled then retA None
        else createTextureFromImage image
               (bool_decide (Png = format imageSource)))
       (retA None))
    (retA None).

Definition loadTileContent (tile : MapTile) (data : ImageSource)
    (isCanceled : option (Async World bool))
  : Async World (TileContent RenderGraphic) :=
  let isCanceled :=
    match isCanceled with
    | None => fun w => (Returned (negb (isLoading tile w)), w)
    | Some supplied => supplied
    end in
  await! _ := (fun w => (assert assertionsEnabled true, w)) in
  await! _ := (fun w => (assert assertionsEnabled true, w)) in
  await! _ := reprojectCorners tile in
  let content := mkTileContent None in
  await! texture := loadTextureImage data isCanceled in
  match texture with
  | None => retA content
  | Some texture =>
      await! graphic := createTile texture tile in
      match graphic with
      | Some graphic =>
          await! batch := createBatch graphic tile in
          retA (mkTileContent (Some batch))
      | None => retA (mkTileContent None)
      end
  end.
End WebMapTileLoader.

(** ** Tile tree supplier *)

(** Modelled from the spec: compareStrings, compareNumbers and
    compareBooleans are imported from bentleyjs-core, which is not part of
    these sources; they are parameters.  The spec calls them a string compare
    and numeric compares of a total order comparator, and that is what is
    taken of them, as the sign of their answer: 0 for equal arguments only,
    opposite signs for swapped arguments, and "less" carried along chains.
    Nothing is taken of the size of an answer, which is a number. *)
Class OrderComparator {A : Type} (compare : A -> A -> Q) : Prop := {
  compare_eq : forall a b, (compare a b == 0)%Q <-> a = b;
  compare_swap : forall a b, (compare a b < 0)%Q <-> (0 < compare b a)%Q;
  compare_trans : forall a b c,
    (compare a b < 0)%Q -> (compare b c < 0)%Q -> (compare a c < 0)%Q
}.

Section BackgroundMapTreeSupplier.
(** [JSNumber] stands for the numbers that [compareNumbers] is given: the
    values of the map type enumeration and the ground bias, finite numbers. *)
Variable JSNumber : Type.
Variable compareStrings : string -> string -> Q.
Variable compareNumbers : JSNumber -> JSNumber -> Q.
Variable compareBooleans : bool -> bool -> Q.

Record BackgroundMapTreeId : Type := mkBackgroundMapTreeId {
  providerName : string;
  mapType : JSNumber;
  groundBias : JSNumber;
  forDrape : bool
}.

Definition compareTileTreeIds (lhs rhs : BackgroundMapTreeId) : Q :=
  let cmp := compareStrings (providerName lhs) (providerName rhs) in
  if Qeq_bool 0 cmp then
    let cmp := compareNumbers (mapType lhs) (mapType rhs) in
    if Qeq_bool 0 cmp then
      let cmp := compareNumbers (groundBias lhs) (groundBias rhs) in
      if Qeq_bool 0 cmp then
        let cmp := compareBooleans (forDrape lhs) (forDrape rhs) in
        cmp
      else cmp
    else cmp
  else cmp.
End BackgroundMapTreeSupplier.

Arguments mkBackgroundMapTreeId {JSNumber} providerName mapType groundBias forDrape.
Arguments providerName {JSNumber} b.
Arguments mapType {JSNumber} b.
Arguments groundBias {JSNumber} b.
Arguments forDrape {JSNumber} b.
Arguments compareTileTreeIds {JSNumber} compareStrings compareNumbers compareBooleans lhs rhs.

(** The first comparison of a list that is not 0, and the last one when
    those before it all are: comparing tuples field by field in a fixed
    order. *)
Fixpoint lexicographic (comparisons : list Q) : Q :=
  match comparisons with
  | [] => 0
  | c :: rest =>
      match rest with
      | [] => c
      | _ :: _ => if Qeq_bool 0 c then lexicographic rest else c
      end
  end.

(** Comparators to run the supplier on.  Strings are compared by code units
    and booleans by value (false before true), with answers -1, 0 and 1;
    numbers are compared as [compareNumbers] of bentleyjs-core compares
    them, by their difference [a - b], here on integers. *)
Definition ofComparison (c : comparison) : Q :=
  match c with
  | Lt => -1
  | Eq => 0
  | Gt => 1
  end.

Definition codeUnitCompare (a b : string) : Q := ofComparison (String.compare a b).
Definition differenceCompare (a b : Z) : Q := inject_Z (a - b).
Definition booleanCompare (a b : bool) : Q := ofComparison (Bool.compare a b).

(** A tiling scheme to run the code on: columns count degrees east and rows
    degrees south. *)
Definition sampleScheme : MapTilingScheme :=
  mkMapTilingScheme
    (fun column row level =>
       match column, row with
       | JS.Num c, JS.Num r => mkCartographic (inject_Z c) (inject_Z (- r))
       | _, _ => mkCartographic 0 0
       end)
    (fun radians => radians).

(** ** Data to run the code on *)

Definition sampleBing : BingImageryProvider :=
  mkBingImageryProvider
    (Some "https://ecn.{subdomain}.tiles.virtualearth.net/tiles/r{quadkey}.jpeg")
    (Some ["t0"; "t1"; "t2"; "t3"])
    (Some [mkBingAttribution "HERE" [mkCoverage (-10) 0 10 20 (JS.Num 1) (JS.Num 9)];
           mkBingAttribution "Elsewhere" [mkCoverage 50 50 60 60 (JS.Num 1) (JS.Num 9)]])
    (Some [Byte.x89; Byte.x50; Byte.x4e; Byte.x47; Byte.x0d; Byte.x0a;
           Byte.x1a; Byte.x0a; Byte.x00; Byte.x00; Byte.x00; Byte.x0d])
    sampleScheme.

Definition sampleTiles : list Tile :=
  [mkTile "4_3_2" 4; mkTile "4_3_3" 4; mkTile "4_4_2" 4; mkTile "4_4_3" 4;
   mkTile "5_6_4" 5; mkTile "5_6_5" 5; mkTile "5_7_4" 5; mkTile "5_7_5" 5;
   mkTile "3_1_1" 3; mkTile "3_2_1" 3].

(** A world that logs what is done to it, and collaborators that do nothing
    but log; the predicate of the sample load reports a cancellation. *)
Definition sampleReproject (tile : unit) : Async (list string) unit :=
  fun w => (Returned tt, w ++ ["reprojectCorners"]).
Definition sampleDecode (source : ImageSource) : Async (list string) unit :=
  fun w => (Returned tt, w ++ ["imageElementFromImageSource"]).
Definition sampleTexture (image : unit) (alpha : bool) : Async (list string) (option unit) :=
  fun w => (Returned (Some tt), w ++ ["createTextureFromImage"]).
Definition sampleCreateTile (texture : unit) (tile : unit) : Async (list string) (option unit) :=
  fun w => (Returned (Some tt), w ++ ["createTile"]).
Definition sampleBatch (tileGraphic : unit) (tile : unit) : Async (list string) unit :=
  fun w => (Returned tt, w ++ ["createBatch"]).


(** A server that has one tile. *)
Definition sampleRequest (tileUrl : string) : Outcome Response :=
  if bool_decide (tileUrl = "https://ecn.t0.tiles.virtualearth.net/tiles/r213.jpeg")
  then Returned (mkResponse [Byte.xff; Byte.xd8; Byte.xff] (Some "image/jpeg"))
  else Thrown.


(** ** Further code of the file *)

(** String.prototype.startsWith and String.prototype.slice with a start
    index only. *)
Definition startsWith (s searchString : string) : bool :=
  match JS.stripPrefix searchString s with
  | Some _ => true
  | None => false
  end.

Fixpoint sliceFrom (start : nat) (s : string) : string :=
  match start, s with
  | O, _ => s
  | S _, "" => ""
  | S start', String _ s' => sliceFrom start' s'
  end.

Definition replaceHttpWithHttps (originalUrl : string) : string :=
  if startsWith originalUrl "http:" then "https:" +:+ sliceFrom 5 originalUrl
  else originalUrl.

Section RequestTileContent.
Context {P : Type} `{ImageryProvider P}.
Variable request : string -> Outcome Response.
Variable assertionsEnabled : bool.

(** [WebMapTileLoader.requestTileContent], [this] being the loader's
    imagery provider. *)
Definition requestTileContent (this : P) (tile : Tile) : Outcome (option ImageSource) :=
  let! quadId := createFromContentId assertionsEnabled (tileContentId tile) in
  loadTile request assertionsEnabled this (row quadId) (column quadId) (level quadId).
End RequestTileContent.

(** The integers that print as plain decimal numerals: Number values of
    magnitude below 10^21. *)
Definition plainInteger (z : Z) : Prop := JS.isDouble z /\ Z.abs z < 10 ^ 21.

Definition mapBoxSuffix : string :=
  ".jpg80?access_token=pk%2EeyJ1IjoibWFwYm94YmVudGxleSIsImEiOiJjaWZvN2xpcW00ZWN2czZrcXdreGg2eTJ0In0%2Ef7c9GAxz6j10kZvL%5F2DBHg".

(** The callback of the probe that [BingImageryProvider.initialize] sends
    for a tile known to be missing: the data of the tile loaded, if any,
    becomes the fingerprint. *)
Definition captureMissingTile (this : BingImageryProvider)
    (tileData : option ImageSource) : BingImageryProvider :=
  match tileData with
  | Some tileData =>
      mkBingImageryProvider (_urlTemplate this) (_urlSubdomains this) (_attributions this)
        (Some (data tileData)) (_mapTilingScheme this)
  | None => this
  end.

(** *** Tile and tile tree properties *)

Record Point3d : Type := mkPoint3d { x3 : Q; y3 : Q; z3 : Q }.

(** Modelled from the spec: Range3d and Range1d belong to geometry-core, which
    is not part of these sources.  The root of a tree is described as
    covering a bounding footprint at an elevation: a range is null until it
    is extended, extending it by points gives their bounding box, and the z
    bounds of a box can be set. *)
Inductive Range3d : Type :=
| NullRange3d
| Box3d (low high : Point3d).

Definition Range3d_extend (range : Range3d) (p : Point3d) : Range3d :=
  match range with
  | NullRange3d => Box3d p p
  | Box3d low high =>
      Box3d (mkPoint3d (if Qltb (x3 p) (x3 low) then x3 p else x3 low)
                       (if Qltb (y3 p) (y3 low) then y3 p else y3 low)
                       (if Qltb (z3 p) (z3 low) then z3 p else z3 low))
            (mkPoint3d (if Qltb (x3 high) (x3 p) then x3 p else x3 high)
                       (if Qltb (y3 high) (y3 p) then y3 p else y3 high)
                       (if Qltb (z3 high) (z3 p) then z3 p else z3 high))
  end.

Definition Range3d_extendArray (range : Range3d) (points : list Point3d) : Range3d :=
  foldl Range3d_extend range points.

Definition Range3d_setZ (range : Range3d) (zLow zHigh : Q) : Range3d :=
  match range with
  | NullRange3d => NullRange3d
  | Box3d low high =>
      Box3d (mkPoint3d (x3 low) (y3 low) zLow) (mkPoint3d (x3 high) (y3 high) zHigh)
  end.

Record Range1d : Type := mkRange1d { low1 : Q; high1 : Q }.

Definition Range1d_createXX (a b : Q) : Range1d :=
  if Qltb b a then mkRange1d b a else mkRange1d a b.

Record WebMapTileProps : Type := mkWebMapTileProps {
  props_contentId : string;
  props_range : Range3d;
  props_maximumSize : JS.number;
  props_isLeaf : bool;
  props_corners : list Point3d
}.

Definition WebMapTileProps_new (thisId : string) (level : JS.number)
    (corners : list Point3d) (zLow zHigh : Q) : WebMapTileProps :=
  let scratchRange := NullRange3d in
  let scratchRange := Range3d_extendArray scratchRange corners in
  let scratchRange := Range3d_setZ scratchRange zLow zHigh in
  mkWebMapTileProps thisId scratchRange
    (if JS.strictNe (JS.Num 0) level then JS.Num 256 else JS.Num 0)
    false corners.

Record WebMapTileTreeProps : Type := mkWebMapTileTreeProps {
  treeProps_id : string;
  treeProps_rootTile : WebMapTileProps;
  treeProps_yAxisUp : bool;
  treeProps_isBackgroundMap : bool;
  treeProps_maxTilesToSkip : JS.number
}.

(** [if (maxTilesToSkip)]: a number counts as true unless it is 0 or [NaN]. *)
Definition truthy (n : JS.number) : bool := JS.strictNe n (JS.Num 0) && negb (JS.strictNe n n).

Definition WebMapTileTreeProps_new (groundBias : Q) (modelId : string)
    (heightRange : option Range1d) (maxTilesToSkip : option JS.number) : WebMapTileTreeProps :=
  let corners :=
    [mkPoint3d (-10000000) (-10000000) groundBias;
     mkPoint3d (-10000000) 10000000 groundBias;
     mkPoint3d 10000000 (-10000000) groundBias;
     mkPoint3d 10000000 10000000 groundBias] in
  let rootTile :=
    WebMapTileProps_new "0_0_0" (JS.Num 0) corners
      (match heightRange with Some range => low1 range | None => groundBias end)
      (match heightRange with Some range => high1 range | None => groundBias end) in
  mkWebMapTileTreeProps modelId rootTile true true
    (match maxTilesToSkip with
     | Some given => if truthy given then given else JS.Num 10
     | None => JS.Num 10
     end).

(** [MapTileLoaderBase.tileRequiresLoading], on the maximum size of the
    tile's parameters. *)
Definition tileRequiresLoading (maximumSize : JS.number) : bool :=
  JS.strictNe (JS.Num 0) maximumSize.

(** *** Creating a tile tree *)

(** What the loader and the tree are constructed with. *)
Record WebMapTileLoader (P : Type) : Type := mkWebMapTileLoader {
  loader_imageryProvider : P;
  loader_modelId : string;
  loader_groundBias : Q;
  loader_heightRange : option Range1d
}.
Arguments mkWebMapTileLoader {P} _ _ _ _.
Arguments loader_imageryProvider {P} _.
Arguments loader_modelId {P} _.
Arguments loader_groundBias {P} _.
Arguments loader_heightRange {P} _.

Record BackgroundMapTileTree (P : Type) : Type := mkBackgroundMapTileTree {
  tree_props : WebMapTileTreeProps;
  tree_loader : WebMapTileLoader P;
  tree_modelId : string;
  tree_groundBias : Q;
  tree_seaLevelOffset : Q;
  tree_gcsConverterAvailable : bool;
  tree_heightRange : Range1d
}.
Arguments mkBackgroundMapTileTree {P} _ _ _ _ _ _ _.
Arguments tree_props {P} _.
Arguments tree_loader {P} _.
Arguments tree_modelId {P} _.
Arguments tree_groundBias {P} _.
Arguments tree_seaLevelOffset {P} _.
Arguments tree_gcsConverterAvailable {P} _.
Arguments tree_heightRange {P} _.

Section CreateTileTree.
(** The iModel connection and the provider's [initialize], which are not
    part of these sources or are taken as given: whether the iModel has an
    ECEF location, its next transient id, the answer of its coordinate
    converter (the status of each point converted), and the status meaning
    that no coordinate system is defined. *)
Variables World P GeoCoordStatus : Type.
Context `{EqDecision GeoCoordStatus}.
Variable NoGCSDefined : GeoCoordStatus.
Variable hasEcefLocation : World -> bool.
Variable transientIdsNext : Async World string.
Variable getIModelCoordinatesFromGeoCoordinates : Async World (list GeoCoordStatus).
Variable initialize : P -> Async World P.

Definition getGcsConverterAvailable : Async World bool :=
  catchA
    (await! iModelCoords := getIModelCoordinatesFromGeoCoordinates in
     retA (Nat.eqb (length iModelCoords) 1
           && match iModelCoords !! 0%nat with
              | Some s => negb (bool_decide (s = NoGCSDefined))
              | None => false
              end))
    (retA false).

Definition createTileTreeFromImageryProvider (imageryProvider : P) (groundBias : Q)
  : Async World (option (BackgroundMapTileTree P)) :=
  fun w =>
    if negb (hasEcefLocation w) then retA None w
    else
      (await! imageryProvider := initialize imageryProvider in
       await! modelId := transientIdsNext in
       let heightRange := Range1d_createXX groundBias groundBias in
       await! haveConverter := getGcsConverterAvailable in
       let loader := mkWebMapTileLoader imageryProvider modelId groundBias None in
       let tileTreeProps := WebMapTileTreeProps_new groundBias modelId None None in
       retA (Some (mkBackgroundMapTileTree tileTreeProps loader modelId groundBias 0
                     haveConverter heightRange))) w.
End CreateTileTree.

(** An iModel to create trees for: it logs what is asked of it, has an ECEF
    location once "ecef" is in its log, and a converter that fails. *)
Definition sampleHasEcef (w : list string) : bool := bool_decide ("ecef" ∈ w).
Definition sampleNextId : Async (list string) string :=
  fun w => (Returned "0xffffff0000000001", w ++ ["transientIds.next"]).
Definition sampleConverter : Async (list string) (list bool) :=
  fun w => (Thrown, w ++ ["getIModelCoordinatesFromGeoCoordinates"]).
Definition sampleInitialize (provider : MapBoxImageryProvider)
  : Async (list string) MapBoxImageryProvider :=
  fun w => (Returned provider, w ++ ["initialize"]).

(** ** The copyright elements of a Bing provider

    [getCopyrightElements] keeps one pair of DOM elements per viewport in the
    map [_copyrightElementByViewportId].  The document hands out elements
    with a fresh identity, the number of elements created so far; a viewport
    stands for its [viewportId], a number.  Of the handlers of the span only
    [onclick] is kept, as the viewport it is bound to: the others stop the
    propagation of their event and hold nothing. *)

Definition Document : Type := nat.

Record HTMLSpanElement : Type := mkHTMLSpanElement {
  span_identity : nat;
  span_className : string;
  span_onclick : Z;
  span_innerText : string;
  span_textDecoration : string;
  span_cursor : string
}.

Record HTMLImageElement : Type := mkHTMLImageElement {
  image_identity : nat;
  image_src : string
}.

Record BingCopyrightElements : Type := mkBingCopyrightElements {
  logoImage : option HTMLImageElement;
  attribution : HTMLSpanElement
}.

Section CopyrightElements.

(** [IModelApp.i18n.translate]. *)
Variable translate : string -> string.

(** The provider's [_logoUrl] is read, its map and the document are updated. *)
Definition getCopyrightElements (_logoUrl : option string) (viewportId : Z)
    (_copyrightElementByViewportId : gmap Z BingCopyrightElements) (document : Document) :
    BingCopyrightElements * gmap Z BingCopyrightElements * Document :=
  match _copyrightElementByViewportId !! viewportId with
  | Some elems => (elems, _copyrightElementByViewportId, document)
  | None =>
      let attribution :=
        mkHTMLSpanElement document "bgmap-copyright" viewportId
          (translate "iModelJs:BackgroundMap.BingDataClickTarget") "underline" "pointer" in
      let document := S document in
      let '(logoImage, document) :=
        match _logoUrl with
        | Some url => (Some (mkHTMLImageElement document url), S document)
        | None => (None, document)
        end in
      let elems := mkBingCopyrightElements logoImage attribution in
      (elems, <[viewportId := elems]> _copyrightElementByViewportId, document)
  end.

Definition getCopyrightImage (_logoUrl : option string) (viewportId : Z)
    (_copyrightElementByViewportId : gmap Z BingCopyrightElements) (document : Document) :
    option HTMLImageElement * gmap Z BingCopyrightElements * Document :=
  let '(elems, cache, document) :=
    getCopyrightElements _logoUrl viewportId _copyrightElementByViewportId document in
  (logoImage elems, cache, document).

Definition getCopyrightMessage (_logoUrl : option string) (viewportId : Z)
    (_copyrightElementByViewportId : gmap Z BingCopyrightElements) (document : Document) :
    HTMLSpanElement * gmap Z BingCopyrightElements * Document :=
  let '(elems, cache, document) :=
    getCopyrightElements _logoUrl viewportId _copyrightElementByViewportId document in
  (attribution elems, cache, document).

(** What a provider's map and the document can become: the map starts empty
    (line 424), only [getCopyrightElements] writes it, the logo URL may change
    between calls ([initialize]) and other code creates elements too. *)
Inductive copyrightReachable : gmap Z BingCopyrightElements -> Document -> Prop :=
| reachable_new (document : Document) : copyrightReachable ∅ document
| reachable_get (_logoUrl : option string) (viewportId : Z)
    (cache : gmap Z BingCopyrightElements) (document : Document) :
    copyrightReachable cache document ->
    copyrightReachable
      (snd (fst (getCopyrightElements _logoUrl viewportId cache document)))
      (snd (getCopyrightElements _logoUrl viewportId cache document))
| reachable_createElement (cache : gmap Z BingCopyrightElements) (document : Document) :
    copyrightReachable cache document -> copyrightReachable cache (S document).

(** Later requests, each with the logo URL of its time. *)
Fixpoint copyrightRequests (requests : list (option string * Z))
    (cache : gmap Z BingCopyrightElements) (document : Document) :
    gmap Z BingCopyrightElements * Document :=
  match requests with
  | [] => (cache, document)
  | (_logoUrl, viewportId) :: requests =>
      let '(_, cache, document) := getCopyrightElements _logoUrl viewportId cache document in
      copyrightRequests requests cache document
  end.

End CopyrightElements.

(** The identities of the elements a pair holds. *)
Definition identities (elems : BingCopyrightElements) : list nat :=
  span_identity (attribution elems)
  :: match logoImage elems with Some image => [image_identity image] | None => [] end.

(** What holds of a provider's map: the elements of a viewport are below the
    document's next identity and bound to that viewport, and no identity
    occurs under two viewports. *)
Definition copyrightInvariant (cache : gmap Z BingCopyrightElements) (document : Document) :
    Prop :=
  (forall viewportId elems, cache !! viewportId = Some elems ->
     NoDup (identities elems)
     /\ span_onclick (attribution elems) = viewportId
     /\ forall identity, identity ∈ identities elems -> (identity < document)%nat)
  /\ (forall v1 v2 e1 e2 identity,
        cache !! v1 = Some e1 -> cache !! v2 = Some e2 ->
        identity ∈ identities e1 -> identity ∈ identities e2 -> v1 = v2).

(** ** Bing: reading the imagery metadata

    [initialize] reads the body of the metadata response, typed [any] in the
    source.  The records below give it the shape the code reads: the
    properties it dereferences are present, a bounding box has its four
    numbers, and the two arrays the code indexes at 0 may be empty.  A body
    with properties missing is read by [Bing_initialize_any] further down,
    which agrees with [Bing_initialize] on the bodies of this shape. *)

Record CoverageAreaProps : Type := mkCoverageAreaProps {
  area_bbox : Q * Q * Q * Q;
  area_zoomMin : JS.number;
  area_zoomMax : JS.number
}.

Record AttributionProps : Type := mkAttributionProps {
  props_attribution : string;
  props_coverageAreas : list CoverageAreaProps
}.

Record ResourceProps : Type := mkResourceProps {
  zoomMin : JS.number;
  zoomMax : JS.number;
  imageHeight : JS.number;
  imageWidth : JS.number;
  imageUrl : string;
  imageUrlSubdomains : list string;
  imageryProviders : list AttributionProps
}.

Record ResourceSetProps : Type := mkResourceSetProps {
  resources : list ResourceProps
}.

Record BingResponseProps : Type := mkBingResponseProps {
  brandLogoUri : string;
  resourceSets : list ResourceSetProps
}.

(** [new Coverage(bbox[0], bbox[1], bbox[2], bbox[3], zoomMin, zoomMax)]. *)
Definition Coverage_new (thisCoverageProps : CoverageAreaProps) : Coverage :=
  let '(bbox0, bbox1, bbox2, bbox3) := area_bbox thisCoverageProps in
  mkCoverage bbox0 bbox1 bbox2 bbox3
    (area_zoomMin thisCoverageProps) (area_zoomMax thisCoverageProps).

(** The inner loop of [readAttributions]: each coverage is pushed. *)
Definition readCoverages (coverageAreas : list CoverageAreaProps) : list Coverage :=
  fold_left (fun coverages thisCoverageProps => coverages ++ [Coverage_new thisCoverageProps])
    coverageAreas [].

(** The outer loop, on the field [_attributions], which is created when the
    first attribution is pushed. *)
Definition readAttributions (attributionProps : list AttributionProps)
    (_attributions : option (list BingAttribution)) : option (list BingAttribution) :=
  fold_left
    (fun _attributions thisAttributionProps =>
       let thisAttribution :=
         mkBingAttribution (props_attribution thisAttributionProps)
           (readCoverages (props_coverageAreas thisAttributionProps)) in
       Some (default [] _attributions ++ [thisAttribution]))
    attributionProps _attributions.

(** A [BingImageryProvider] with all its fields: those of the record above,
    which the URL and attribution code reads, and the others. *)
Record BingImagery : Type := mkBingImagery {
  Bing_mapType : Q;
  _logoUrl : option string;
  _zoomMin : JS.number;
  _zoomMax : JS.number;
  _tileHeight : JS.number;
  _tileWidth : JS.number;
  Bing_imagery : BingImageryProvider
}.

Definition bingKey : string :=
  "AtaeI3QDNG7Bpv1L53cSfDBgBKXIgLq3q-xmn_Y2UyzvF-68rdVxwAuje49syGZt".

Section BingInitialize.
(** What is not part of these sources: the members of [BackgroundMapType],
    the Web Mercator tiling scheme, and [request], here the one for the
    metadata with the body of its response. *)
Variable World : Type.
Variables Street Aerial Hybrid : Q.
Variable WebMercatorTilingScheme : MapTilingScheme.
Variable request : string -> Async World BingResponseProps.

(** The constructor. *)
Definition Bing_new (mapType : Q) : BingImagery :=
  mkBingImagery mapType None (JS.Num 0) (JS.Num 0) (JS.Num 0) (JS.Num 0)
    (mkBingImageryProvider None None None None WebMercatorTilingScheme).

Definition bingRequestUrl (mapType : Q) : string :=
  let imagerySet :=
    if Qeq_bool Aerial mapType then "Aerial"
    else if Qeq_bool Hybrid mapType then "AerialWithLabels"
    else "Road" in
  let bingRequestUrl :=
    "https://dev.virtualearth.net/REST/v1/Imagery/Metadata/{imagerySet}?o=json&incl=ImageryProviders&key={bingKey}" in
  let bingRequestUrl := JS.replace bingRequestUrl "{imagerySet}" imagerySet in
  JS.replace bingRequestUrl "{bingKey}" bingKey.

(** [initialize] up to its return: the outcome, the provider's fields and
    the world afterwards.  Whatever is thrown inside the [try] is thrown on
    as the one error of line 625; the fields assigned before stay assigned.
    The probe of line 621 is started and not awaited: it ends later, in
    [captureMissingTile]. *)
Definition Bing_initialize (this : BingImagery) (w : World)
  : Outcome unit * BingImagery * World :=
  match request (bingRequestUrl (Bing_mapType this)) w with
  | (Thrown, w) => (Thrown, this, w)
  | (Returned bingResponseProps, w) =>
      let this :=
        mkBingImagery (Bing_mapType this)
          (Some (replaceHttpWithHttps (brandLogoUri bingResponseProps)))
          (_zoomMin this) (_zoomMax this) (_tileHeight this) (_tileWidth this)
          (Bing_imagery this) in
      match resourceSets bingResponseProps !! 0%nat with
      | None => (Thrown, this, w)
      | Some thisResourceSetProps =>
          match resources thisResourceSetProps !! 0%nat with
          | None => (Thrown, this, w)
          | Some thisResourceProps =>
              (Returned tt,
               mkBingImagery (Bing_mapType this) (_logoUrl this)
                 (zoomMin thisResourceProps) (zoomMax thisResourceProps)
                 (imageHeight thisResourceProps) (imageWidth thisResourceProps)
                 (mkBingImageryProvider
                    (Some (replaceHttpWithHttps
                             (JS.replace (imageUrl thisResourceProps) "{culture}" "en-US")))
                    (Some (imageUrlSubdomains thisResourceProps))
                    (readAttributions (imageryProviders thisResourceProps)
                       (_attributions (Bing_imagery this)))
                    (_missingTileData (Bing_imagery this))
                    (_mapTilingScheme (Bing_imagery this))),
               w)
          end
      end
  end.

(** The constructor of the MapBox provider. *)
Definition MapBox_new (assertionsEnabled : bool) (mapType : Q)
  : Outcome MapBoxImageryProvider :=
  if Qeq_bool mapType Street then
    Returned (mkMapBoxImageryProvider "https://api.mapbox.com/v4/mapbox.streets/")
  else if Qeq_bool mapType Aerial then
    Returned (mkMapBoxImageryProvider "https://api.mapbox.com/v4/mapbox.satellite/")
  else if Qeq_bool mapType Hybrid then
    Returned (mkMapBoxImageryProvider "https://api.mapbox.com/v4/mapbox.streets-satellite/")
  else
    let! _ := assert assertionsEnabled false in
    Returned (mkMapBoxImageryProvider "").

(** The providers the supplier creates, and [initialize] called on one. *)
Inductive ImageryProviderInstance : Type :=
| BingInstance (provider : BingImagery)
| MapBoxInstance (provider : MapBoxImageryProvider).

Definition initializeInstance (imageryProvider : ImageryProviderInstance)
  : Async World ImageryProviderInstance :=
  match imageryProvider with
  | BingInstance provider =>
      fun w => match Bing_initialize provider w with
               | (Returned _, provider, w) => (Returned (BingInstance provider), w)
               | (Thrown, _, w) => (Thrown, w)
               end
  | MapBoxInstance provider => retA (MapBoxInstance provider)
  end.

Variable GeoCoordStatus : Type.
Context `{EqDecision GeoCoordStatus}.
Variable NoGCSDefined : GeoCoordStatus.
Variable hasEcefLocation : World -> bool.
Variable transientIdsNext : Async World string.
Variable getIModelCoordinatesFromGeoCoordinates : Async World (list GeoCoordStatus).
Variable assertionsEnabled : bool.

(** [BackgroundMapTreeSupplier.createTileTree]. *)
Definition createTileTree (id : BackgroundMapTreeId Q)
  : Async World (option (BackgroundMapTileTree ImageryProviderInstance)) :=
  fun w =>
    let imageryProvider :=
      if String.eqb (providerName id) "BingProvider" then
        Returned (Some (BingInstance (Bing_new (mapType id))))
      else if String.eqb (providerName id) "MapBoxProvider" then
        let! provider := MapBox_new assertionsEnabled (mapType id) in
        Returned (Some (MapBoxInstance provider))
      else Returned None in
    match imageryProvider with
    | Thrown => (Thrown, w)
    | Returned None => (Returned None, w)
    | Returned (Some imageryProvider) =>
        createTileTreeFromImageryProvider World ImageryProviderInstance GeoCoordStatus
          NoGCSDefined hasEcefLocation transientIdsNext
          getIModelCoordinatesFromGeoCoordinates initializeInstance
          imageryProvider (groundBias id) w
    end.

End BingInitialize.

(** A metadata service in the logging world: it answers once "online" is in
    the log. *)
Definition sampleMetadata : BingResponseProps :=
  mkBingResponseProps "http://dev.virtualearth.net/Branding/logo_powered_by.png"
    [mkResourceSetProps
       [mkResourceProps (JS.Num 1) (JS.Num 21) (JS.Num 256) (JS.Num 256)
          "http://ecn.{subdomain}.tiles.virtualearth.net/tiles/r{quadkey}.jpeg?mkt={culture}"
          ["t0"; "t1"; "t2"; "t3"]
          [mkAttributionProps "HERE" [mkCoverageAreaProps ((-90)%Q, (-180)%Q, 90%Q, 180%Q) (JS.Num 1) (JS.Num 9)];
           mkAttributionProps "Elsewhere" []]]].

Definition sampleMetadataRequest (url : string) : Async (list string) BingResponseProps :=
  fun w => ((if bool_decide ("online" ∈ w) then Returned sampleMetadata else Thrown),
            w ++ [url]).

(** ** Bing: a metadata body with properties missing

    [initialize] reads the body, which the source types [any], without
    checking it.  In the records below each property whose absence changes
    what [initialize] does may be absent: reading a property of an absent
    value, calling [replace] or [startsWith] on one, and iterating over one
    throw inside the [try], after the assignments made so far; an absent
    [imageUrlSubdomains] is stored as it is.  A property that is present has
    the type the metadata service documents, and the numbers are present. *)

Record CoverageAreaBody : Type := mkCoverageAreaBody {
  body_bbox : option (Q * Q * Q * Q);
  body_areaZoomMin : JS.number;
  body_areaZoomMax : JS.number
}.

Record AttributionBody : Type := mkAttributionBody {
  body_attribution : string;
  body_coverageAreas : option (list CoverageAreaBody)
}.

Record ResourceBody : Type := mkResourceBody {
  body_zoomMin : JS.number;
  body_zoomMax : JS.number;
  body_imageHeight : JS.number;
  body_imageWidth : JS.number;
  body_imageUrl : option string;
  body_imageUrlSubdomains : option (list string);
  body_imageryProviders : option (list AttributionBody)
}.

Record ResourceSetBody : Type := mkResourceSetBody {
  body_resources : option (list ResourceBody)
}.

Record MetadataBody : Type := mkMetadataBody {
  body_brandLogoUri : option string;
  body_resourceSets : option (list ResourceSetBody)
}.

(** The inner loop of [readAttributions] from the coverages pushed so far:
    [thisCoverageProps.bbox[0]] throws when there is no [bbox]. *)
Fixpoint readCoveragesFrom (coverageAreas : list CoverageAreaBody)
    (coverages : list Coverage) : Outcome (list Coverage) :=
  match coverageAreas with
  | [] => Returned coverages
  | thisCoverageProps :: coverageAreas =>
      match body_bbox thisCoverageProps with
      | None => Thrown
      | Some (bbox0, bbox1, bbox2, bbox3) =>
          let thisCoverage :=
            mkCoverage bbox0 bbox1 bbox2 bbox3
              (body_areaZoomMin thisCoverageProps) (body_areaZoomMax thisCoverageProps) in
          readCoveragesFrom coverageAreas (coverages ++ [thisCoverage])
      end
  end.

(** The outer loop, with the field [_attributions] as it is when the loop
    ends or throws: the attributions pushed before a throw stay pushed. *)
Fixpoint readAttributionsFrom (attributionProps : list AttributionBody)
    (_attributions : option (list BingAttribution))
  : Outcome unit * option (list BingAttribution) :=
  match attributionProps with
  | [] => (Returned tt, _attributions)
  | thisAttributionProps :: attributionProps =>
      match body_coverageAreas thisAttributionProps with
      | None => (Thrown, _attributions)
      | Some coverageAreas =>
          match readCoveragesFrom coverageAreas [] with
          | Thrown => (Thrown, _attributions)
          | Returned coverages =>
              let thisAttribution :=
                mkBingAttribution (body_attribution thisAttributionProps) coverages in
              readAttributionsFrom attributionProps
                (Some (default [] _attributions ++ [thisAttribution]))
          end
      end
  end.

(** [bingResponseProps.resourceSets[0]] and, of that, [resources[0]]: the
    first resource of the first resource set, if every value on the way is
    there.  Reading on from a value that is not throws. *)
Definition firstResourceBody (bingResponseProps : MetadataBody) : option ResourceBody :=
  match body_resourceSets bingResponseProps with
  | Some (thisResourceSetProps :: _) =>
      match body_resources thisResourceSetProps with
      | Some (thisResourceProps :: _) => Some thisResourceProps
      | _ => None
      end
  | _ => None
  end.

Section BingInitializeAny.
(** [request] is the one for the metadata, with the body of its response;
    [sendTileRequest] is the request that [loadTile] makes for a tile URL,
    as far as it goes before [initialize] returns: the request leaves, its
    answer comes later. *)
Variable World : Type.
Variables Aerial Hybrid : Q.
Variable request : string -> Async World MetadataBody.
Variable sendTileRequest : string -> World -> World.
Variable assertionsEnabled : bool.

(** [initialize] up to its return, for any body.  The probe of line 621 is
    started last: [loadTile] builds its URL and sends the request, or is
    rejected without a request if the URL cannot be built; nothing waits for
    it, and its answer is stored later, by [captureMissingTile]. *)
Definition Bing_initialize_any (this : BingImagery) (w : World)
  : Outcome unit * BingImagery * World :=
  match request (bingRequestUrl Aerial Hybrid (Bing_mapType this)) w with
  | (Thrown, w) => (Thrown, this, w)
  | (Returned bingResponseProps, w) =>
      match body_brandLogoUri bingResponseProps with
      | None => (Thrown, this, w)
      | Some brandLogoUri =>
          let this :=
            mkBingImagery (Bing_mapType this) (Some (replaceHttpWithHttps brandLogoUri))
              (_zoomMin this) (_zoomMax this) (_tileHeight this) (_tileWidth this)
              (Bing_imagery this) in
          match firstResourceBody bingResponseProps with
          | None => (Thrown, this, w)
          | Some thisResourceProps =>
              let this :=
                mkBingImagery (Bing_mapType this) (_logoUrl this)
                  (body_zoomMin thisResourceProps) (body_zoomMax thisResourceProps)
                  (body_imageHeight thisResourceProps) (body_imageWidth thisResourceProps)
                  (Bing_imagery this) in
              match body_imageUrl thisResourceProps with
              | None => (Thrown, this, w)
              | Some imageUrl =>
                  let assigned (_attributions : option (list BingAttribution)) :=
                    mkBingImagery (Bing_mapType this) (_logoUrl this)
                      (_zoomMin this) (_zoomMax this) (_tileHeight this) (_tileWidth this)
                      (mkBingImageryProvider
                         (Some (replaceHttpWithHttps
                                  (JS.replace imageUrl "{culture}" "en-US")))
                         (body_imageUrlSubdomains thisResourceProps)
                         _attributions
                         (_missingTileData (Bing_imagery this))
                         (_mapTilingScheme (Bing_imagery this))) in
                  match body_imageryProviders thisResourceProps with
                  | None => (Thrown, assigned (_attributions (Bing_imagery this)), w)
                  | Some attributionProps =>
                      match readAttributionsFrom attributionProps
                              (_attributions (Bing_imagery this)) with
                      | (Thrown, _attributions) => (Thrown, assigned _attributions, w)
                      | (Returned _, _attributions) =>
                          let this := assigned _attributions in
                          let w :=
                            match Bing_constructUrl assertionsEnabled (Bing_imagery this)
                                    (JS.Num 0) (JS.Num 0)
                                    (JS.sub (_zoomMax this) (JS.Num 1)) with
                            | Returned tileUrl => sendTileRequest tileUrl w
                            | Thrown => w
                            end in
                          (Returned tt, this, w)
                      end
                  end
              end
          end
      end
  end.

End BingInitializeAny.

(** A body in which [initialize] finds all it dereferences: a logo URL, a
    first resource with an image URL and a list of imagery providers, each
    with a list of coverage areas that each have a bounding box. *)
Definition readableAttribution (thisAttributionProps : AttributionBody) : bool :=
  match body_coverageAreas thisAttributionProps with
  | Some coverageAreas =>
      forallb (fun thisCoverageProps => bool_decide (is_Some (body_bbox thisCoverageProps)))
        coverageAreas
  | None => false
  end.

Definition readableBody (bingResponseProps : MetadataBody) : bool :=
  bool_decide (is_Some (body_brandLogoUri bingResponseProps))
  && match firstResourceBody bingResponseProps with
     | Some thisResourceProps =>
         bool_decide (is_Some (body_imageUrl thisResourceProps))
         && match body_imageryProviders thisResourceProps with
            | Some attributionProps => forallb readableAttribution attributionProps
            | None => false
            end
     | None => false
     end.

(** A body that has every property, as a body in which any may be absent. *)
Definition fullCoverageArea (thisCoverageProps : CoverageAreaProps) : CoverageAreaBody :=
  mkCoverageAreaBody (Some (area_bbox thisCoverageProps))
    (area_zoomMin thisCoverageProps) (area_zoomMax thisCoverageProps).

Definition fullAttribution (thisAttributionProps : AttributionProps) : AttributionBody :=
  mkAttributionBody (props_attribution thisAttributionProps)
    (Some (fullCoverageArea <$> props_coverageAreas thisAttributionProps)).

Definition fullResource (thisResourceProps : ResourceProps) : ResourceBody :=
  mkResourceBody
    (zoomMin thisResourceProps) (zoomMax thisResourceProps)
    (imageHeight thisResourceProps) (imageWidth thisResourceProps)
    (Some (imageUrl thisResourceProps))
    (Some (imageUrlSubdomains thisResourceProps))
    (Some (fullAttribution <$> imageryProviders thisResourceProps)).

Definition fullResourceSet (thisResourceSetProps : ResourceSetProps) : ResourceSetBody :=
  mkResourceSetBody (Some (fullResource <$> resources thisResourceSetProps)).

Definition fullBody (bingResponseProps : BingResponseProps) : MetadataBody :=
  mkMetadataBody (Some (brandLogoUri bingResponseProps))
    (Some (fullResourceSet <$> resourceSets bingResponseProps)).

(** A request whose bodies have every property. *)
Definition fullRequest {World : Type} (request : string -> Async World BingResponseProps)
    (url : string) : Async World MetadataBody :=
  fun w => match request url w with
           | (Returned bingResponseProps, w) => (Returned (fullBody bingResponseProps), w)
           | (Thrown, w) => (Thrown, w)
           end.

(** Metadata services in the logging world: one whose body lacks the image
    URL, one whose body lacks the subdomains; and tile requests that are
    logged. *)
Definition sampleBodyWithoutImageUrl : MetadataBody :=
  mkMetadataBody (Some "http://dev.virtualearth.net/Branding/logo_powered_by.png")
    (Some [mkResourceSetBody
             (Some [mkResourceBody (JS.Num 1) (JS.Num 21) (JS.Num 256) (JS.Num 256)
                      None (Some ["t0"; "t1"]) (Some [])])]).

Definition sampleBodyWithoutSubdomains : MetadataBody :=
  mkMetadataBody (Some "http://dev.virtualearth.net/Branding/logo_powered_by.png")
    (Some [mkResourceSetBody
             (Some [mkResourceBody (JS.Num 1) (JS.Num 21) (JS.Num 256) (JS.Num 256)
                      (Some "http://ecn.{subdomain}.tiles.virtualearth.net/tiles/r{quadkey}.jpeg")
                      None
                      (Some [mkAttributionBody "HERE"
                               (Some [mkCoverageAreaBody
                                        (Some ((-90)%Q, (-180)%Q, 90%Q, 180%Q))
                                        (JS.Num 1) (JS.Num 9)])])])]).

Definition sampleBodyRequest (body : MetadataBody) (url : string)
  : Async (list string) MetadataBody :=
  fun w => (Returned body, w ++ [url]).

Definition sampleSendTileRequest (tileUrl : string) (w : list string) : list string :=
  w ++ [tileUrl].

(** The attribution that one entry of the metadata describes. *)
Definition BingAttribution_new (thisAttributionProps : AttributionProps) : BingAttribution :=
  mkBingAttribution (props_attribution thisAttributionProps)
    (map Coverage_new (props_coverageAreas thisAttributionProps)).

(** The first resource of the first resource set, if the body has one. *)
Definition firstResource (bingResponseProps : BingResponseProps) : option ResourceProps :=
  match resourceSets bingResponseProps with
  | thisResourceSetProps :: _ => head (resources thisResourceSetProps)
  | [] => None
  end.

(** ** The plane of a tile tree reference

    [MapTileTreeReference] keeps the plane it last created with the height
    it was created for, in [_plane].  The ground bias is read from settings
    that can change between two calls. *)

Section MapTileTreeReference.
(** The plane type and [Plane3dByOriginAndUnitNormal.createXYPlane], which
    belong to geometry-core. *)
Variable Plane3dByOriginAndUnitNormal : Type.
Variable createXYPlane : Point3d -> Plane3dByOriginAndUnitNormal.

Record PlaneAtHeight : Type := mkPlaneAtHeight {
  plane_height : Q;
  plane_plane : Plane3dByOriginAndUnitNormal
}.

(** [get plane()]: the plane returned and the field afterwards. *)
Definition plane (_groundBias : Q) (_plane : option PlaneAtHeight)
  : Plane3dByOriginAndUnitNormal * option PlaneAtHeight :=
  let height := _groundBias in
  let _plane :=
    match _plane with
    | Some cached =>
        if negb (Qeq_bool (plane_height cached) height)
        then mkPlaneAtHeight height (createXYPlane (mkPoint3d 0 0 height))
        else cached
    | None => mkPlaneAtHeight height (createXYPlane (mkPoint3d 0 0 height))
    end in
  (plane_plane _plane, Some _plane).

(** What [treeOwner.tileTree.loader] can be. *)
Inductive TileLoader : Type :=
| MapTileLoader (heightRange : option Range1d)
| OtherTileLoader.

(** [addPlanes], with the loader of the owner's tree if the tree is loaded. *)
Definition addPlanes (loader : option TileLoader) (_groundBias : Q)
    (planes : list Plane3dByOriginAndUnitNormal) (_plane : option PlaneAtHeight)
  : list Plane3dByOriginAndUnitNormal * option PlaneAtHeight :=
  match loader with
  | Some (MapTileLoader (Some heightRange)) =>
      (planes ++ [createXYPlane (mkPoint3d 0 0 (low1 heightRange))]
              ++ [createXYPlane (mkPoint3d 0 0 (high1 heightRange))],
       _plane)
  | _ =>
      (* the getter is read twice: in the test, which never fails, and in the push *)
      let '(_, _plane) := plane _groundBias _plane in
      let '(this_plane, _plane) := plane _groundBias _plane in
      (planes ++ [this_plane], _plane)
  end.

(** The values the field takes: undefined at first, then whatever the getter
    leaves, called directly or by [addPlanes], at any ground bias. *)
Inductive planeReachable : option PlaneAtHeight -> Prop :=
| planeReachable_new : planeReachable None
| planeReachable_get (_groundBias : Q) (_plane : option PlaneAtHeight) :
    planeReachable _plane -> planeReachable (snd (plane _groundBias _plane))
| planeReachable_addPlanes (loader : option TileLoader) (_groundBias : Q)
    (planes : list Plane3dByOriginAndUnitNormal) (_plane : option PlaneAtHeight) :
    planeReachable _plane ->
    planeReachable (snd (addPlanes loader _groundBias planes _plane)).

End MapTileTreeReference.

Arguments mkPlaneAtHeight {Plane3dByOriginAndUnitNormal} plane_height plane_plane.
Arguments plane_height {Plane3dByOriginAndUnitNormal} p.
Arguments plane_plane {Plane3dByOriginAndUnitNormal} p.

(** The loader of a background map tree, as the reference sees it. *)
Definition loaderOf {P : Type} (tree : BackgroundMapTileTree P) : TileLoader :=
  MapTileLoader (loader_heightRange (tree_loader tree)).

(** ** Showing the attributions

    What [showAttributions] puts on screen: a brief message through
    [IModelApp.notifications.outputMessage], or a message box whose element
    has a heading as inner text and one list item per line.  The priority of
    the message and the type and icon of the box are constants of the code. *)

Inductive Notification : Type :=
| OutputMessage (briefMessage : string)
| OpenMessageBox (innerText : string) (items : list string).

(** [tiles] are the tiles [tileProvider.getTilesForView(viewport)] selected,
    [geometryAttribution] what the geometry attribution provider answers if
    there is one. *)
Definition showAttributions (assertionsEnabled : bool) (translate : string -> string)
    (this : BingImageryProvider) (tiles : list Tile) (geometryAttribution : option string)
  : Outcome Notification :=
  let! matchingAttributions := getMatchingAttributions assertionsEnabled this tiles in
  if (0 =? Z.of_nat (length matchingAttributions)) then
    Returned (OutputMessage (translate "iModelJs:BackgroundMap.NoBingDataAttribution"))
  else
    let items := copyrightMessage <$> matchingAttributions in
    let items :=
      match geometryAttribution with
      | Some attribution => items ++ [attribution]
      | None => items
      end in
    Returned (OpenMessageBox (translate "iModelJs:BackgroundMap.BingDataAttribution") items).

(** * Properties *)

(** ** Decimal numerals and [parseInt] *)

Module JSFacts.
Import JS.

(** The conversions on a few values. *)
Example toString_samples :
  toString (Num (-12345)) = "-12345"
  /\ toString (Num (2 ^ 60)) = "1152921504606847000"
  /\ toString (Num 123456789012345680000) = "123456789012345680000"
  /\ toString (Num (10 ^ 21)) = "1e+21"
  /\ toString (Num (2 ^ 70)) = "1.1805916207174113e+21"
  /\ toString NaN = "NaN".
Proof. repeat split; vm_compute; reflexivity. Qed.

Example parseInt_samples :
  parseInt " 12px" = Num 12 /\ parseInt "+3" = Num 3 /\ parseInt "-4.5" = Num (-4)
  /\ parseInt "1e+21" = Num 1 /\ parseInt "x" = NaN /\ parseInt "" = NaN
  /\ parseInt "9007199254740993" = Num 9007199254740992.
Proof. repeat split; vm_compute; reflexivity. Qed.

Example split_samples :
  split "_" "bad" = ["bad"] /\ split "_" "a__b" = ["a"; ""; "b"]
  /\ split "_" "" = [""] /\ split "_" "4_3_2" = ["4"; "3"; "2"].
Proof. repeat split; reflexivity. Qed.

Example replace_samples :
  replace "r{quadkey}.jpeg" "{quadkey}" "213" = "r213.jpeg"
  /\ replace "a-b-c" "-" "+" = "a+b-c"
  /\ replace "abc" "x" "y" = "abc"
  /\ replace "abc" "b" "[$&$$]" = "a[b$]c".
Proof. repeat split; reflexivity. Qed.

Lemma append_cons (c : ascii) (a b : string) : String c a +:+ b = String c (a +:+ b).
Proof. reflexivity. Qed.

Lemma append_nil_l (b : string) : "" +:+ b = b.
Proof. reflexivity. Qed.

Lemma append_assoc (a b c : string) : (a +:+ b) +:+ c = a +:+ (b +:+ c).
Proof.
  induction a as [|x a IH]; [reflexivity |].
  now rewrite !append_cons, IH.
Qed.

Lemma append_nil_r (a : string) : a +:+ "" = a.
Proof.
  induction a as [|x a IH]; [reflexivity |]. now rewrite append_cons, IH.
Qed.

Lemma length_append (a b : string) :
  String.length (a +:+ b) = (String.length a + String.length b)%nat.
Proof.
  induction a as [|x a IH]; [reflexivity |].
  rewrite append_cons. cbn [String.length]. now rewrite IH.
Qed.

Lemma digitsValue_append (a b : string) (acc : Z) :
  digitsValue (a +:+ b) acc = digitsValue b (digitsValue a acc).
Proof.
  revert acc; induction a as [|x a IH]; intros acc; [reflexivity |].
  rewrite append_cons. cbn [digitsValue]. apply IH.
Qed.

Lemma allDigits_append (a b : string) :
  allDigits (a +:+ b) = allDigits a && allDigits b.
Proof.
  induction a as [|x a IH]; [reflexivity |].
  rewrite append_cons. cbn [allDigits]. now rewrite IH, andb_assoc.
Qed.

Lemma N_of_digitChar (d : Z) : 0 <= d < 10 -> N_of_ascii (digitChar d) = (48 + Z.to_N d)%N.
Proof.
  intros Hd. unfold digitChar. apply N_ascii_embedding. lia.
Qed.

Lemma isDigit_digitChar (d : Z) : 0 <= d < 10 -> isDigit (digitChar d) = true.
Proof.
  intros Hd. unfold isDigit. rewrite N_of_digitChar by exact Hd.
  apply andb_true_intro; split; apply N.leb_le; lia.
Qed.

Lemma digitVal_digitChar (d : Z) : 0 <= d < 10 -> digitVal (digitChar d) = d.
Proof.
  intros Hd. unfold digitVal. rewrite N_of_digitChar by exact Hd. lia.
Qed.

(** What [digitsOf] pushes in front of the accumulator: a non-empty run of
    digits whose value is [v] and whose length is the number of decimal
    digits of [v]. *)
Lemma digitsOf_spec (f : nat) : forall (v : Z) (acc : string),
  0 <= v < 2 ^ Z.of_nat (S f) ->
  exists ds, digitsOf (S f) v acc = ds +:+ acc
    /\ allDigits ds = true
    /\ (1 <= String.length ds)%nat
    /\ (forall a, digitsValue ds a = a * 10 ^ Z.of_nat (String.length ds) + v)
    /\ v < 10 ^ Z.of_nat (String.length ds)
    /\ (0 < v -> 10 ^ (Z.of_nat (String.length ds) - 1) <= v).
Proof.
  induction f as [|f IH]; intros v acc Hv;
    assert (Hm : 0 <= v mod 10 < 10) by (apply Z.mod_pos_bound; lia);
    pose proof (Z.div_mod v 10 ltac:(lia)) as Hdm;
    cbn [digitsOf]; destruct (Z.eqb_spec (v / 10) 0) as [Hz | Hnz].
  1, 3: exists (String (digitChar (v mod 10)) "");
    rewrite append_cons, append_nil_l; cbn [allDigits String.length digitsValue];
    rewrite isDigit_digitChar, digitVal_digitChar by exact Hm;
    change (Z.of_nat 1) with 1; change (10 ^ 1) with 10; change (10 ^ (1 - 1)) with 1;
    repeat split; intros; lia.
  - exfalso. change (2 ^ Z.of_nat 1) with 2 in Hv.
    assert (v / 10 = 0) by (apply Z.div_small; lia). lia.
  - assert (Hq : 0 <= v / 10 < 2 ^ Z.of_nat (S f)).
    { split; [apply Z.div_pos; lia |].
      apply Z.div_lt_upper_bound; [lia |].
      replace (Z.of_nat (S (S f))) with (Z.succ (Z.of_nat (S f))) in Hv by lia.
      rewrite Z.pow_succ_r in Hv by lia. lia. }
    destruct (IH (v / 10) (String (digitChar (v mod 10)) acc) Hq)
      as (ds & Heq & Hall & Hlen & Hval & Hub & Hlb).
    assert (Hqpos : 0 < v / 10) by lia.
    specialize (Hlb Hqpos).
    exists (ds +:+ String (digitChar (v mod 10)) "").
    rewrite append_assoc, append_cons, append_nil_l. split; [exact Heq |].
    rewrite allDigits_append, Hall. cbn [allDigits].
    rewrite isDigit_digitChar by exact Hm.
    rewrite length_append. cbn [String.length].
    replace (Z.of_nat (String.length ds + 1)) with (Z.succ (Z.of_nat (String.length ds))) by lia.
    rewrite Z.pow_succ_r by lia.
    replace (Z.succ (Z.of_nat (String.length ds)) - 1)
      with (Z.succ (Z.of_nat (String.length ds) - 1)) by lia.
    rewrite Z.pow_succ_r by lia.
    repeat split; try reflexivity; try lia.
    intros a. rewrite digitsValue_append, Hval. cbn [digitsValue].
    rewrite digitVal_digitChar by exact Hm. lia.
Qed.

Lemma decimal_spec (v : Z) :
  0 <= v ->
  allDigits (decimal v) = true
  /\ 1 <= numDigits v
  /\ (forall a, digitsValue (decimal v) a = a * 10 ^ numDigits v + v)
  /\ v < 10 ^ numDigits v
  /\ (0 < v -> 10 ^ (numDigits v - 1) <= v).
Proof.
  intros Hv. unfold numDigits, decimal.
  assert (Hfuel : 0 <= v < 2 ^ Z.of_nat (S (Z.to_nat (Z.log2 v)))).
  { split; [exact Hv |].
    rewrite Nat2Z.inj_succ, Z2Nat.id by apply Z.log2_nonneg.
    destruct (Z.eq_dec v 0) as [-> | Hne]; [reflexivity |].
    apply Z.log2_spec. lia. }
  destruct (digitsOf_spec _ v "" Hfuel) as (ds & Heq & Hall & Hlen & Hval & Hub & Hlb).
  rewrite append_nil_r in Heq. rewrite Heq.
  repeat split; auto. lia.
Qed.

Lemma digitPrefix_allDigits (s : string) : allDigits s = true -> digitPrefix s = s.
Proof.
  induction s as [|c s IH]; [reflexivity |]. cbn [allDigits digitPrefix].
  intros [Hc Hs]%andb_prop. rewrite Hc, IH by exact Hs. reflexivity.
Qed.

Lemma isDigit_range (c : ascii) :
  isDigit c = true -> (48 <= N_of_ascii c <= 57)%N.
Proof.
  unfold isDigit. intros [H1 H2]%andb_prop.
  apply N.leb_le in H1. apply N.leb_le in H2. lia.
Qed.

Lemma eqb_by_code (c d : ascii) : N_of_ascii c <> N_of_ascii d -> Ascii.eqb c d = false.
Proof. intros H. apply Ascii.eqb_neq. congruence. Qed.

Lemma isDigit_not_space (c : ascii) : isDigit c = true -> isWhiteSpace c = false.
Proof.
  intros H%isDigit_range. unfold isWhiteSpace.
  repeat (apply orb_false_intro); [apply andb_false_iff; right | |];
    first [apply N.leb_gt | apply N.eqb_neq]; lia.
Qed.

Lemma isDigit_not_sign (c : ascii) :
  isDigit c = true -> Ascii.eqb c "-" = false /\ Ascii.eqb c "+" = false.
Proof.
  intros H%isDigit_range.
  split; apply eqb_by_code; cbn; lia.
Qed.

Lemma isDigit_not_underscore (c : ascii) : isDigit c = true -> Ascii.eqb c "_" = false.
Proof. intros H%isDigit_range. apply eqb_by_code; cbn; lia. Qed.

(** [parseInt] reads an unsigned and a negated run of digits in full. *)
Lemma parseInt_digits (ds : string) :
  allDigits ds = true -> ds <> "" ->
  parseInt ds = Num (roundToDouble (digitsValue ds 0))
  /\ parseInt ("-" +:+ ds) = Num (roundToDouble (- digitsValue ds 0)).
Proof.
  intros Hall Hne. destruct ds as [|c r]; [congruence |].
  pose proof Hall as Hall'. cbn [allDigits] in Hall'.
  apply andb_prop in Hall' as [Hc Hr].
  destruct (isDigit_not_sign c Hc) as [Hm Hp].
  split.
  - unfold parseInt. cbn [trimStart]. rewrite (isDigit_not_space c Hc), Hm, Hp.
    cbn [orb]. rewrite (digitPrefix_allDigits _ Hall).
    f_equal. f_equal. lia.
  - unfold parseInt. rewrite append_cons, append_nil_l.
    change (trimStart (String "-" (String c r))) with (String "-" (String c r)).
    cbn [orb]. rewrite Ascii.eqb_refl. cbn [orb].
    rewrite (digitPrefix_allDigits _ Hall).
    do 2 f_equal; lia.
Qed.

Lemma decimal_nonempty (v : Z) : 0 <= v -> decimal v <> "".
Proof.
  intros Hv Hempty. destruct (decimal_spec v Hv) as (_ & Hlen & _).
  unfold numDigits in Hlen. rewrite Hempty in Hlen. cbn in Hlen. lia.
Qed.

Lemma parseInt_decimal (v : Z) :
  0 <= v ->
  parseInt (decimal v) = Num (roundToDouble v)
  /\ parseInt ("-" +:+ decimal v) = Num (roundToDouble (- v)).
Proof.
  intros Hv. destruct (decimal_spec v Hv) as (Hall & _ & Hval & _).
  destruct (parseInt_digits (decimal v) Hall (decimal_nonempty v Hv)) as [H1 H2].
  rewrite H1, H2, Hval. split; do 2 f_equal; lia.
Qed.

(** ** Rounding and the shortest digit string *)

Lemma roundMagnitude_nonneg (v : Z) : 0 <= v -> 0 <= roundMagnitude v.
Proof.
  intros Hv. unfold roundMagnitude.
  destruct (Z.log2 v + 1 <=? 53); [exact Hv |].
  apply Z.shiftl_nonneg.
  assert (0 <= Z.shiftr v (Z.log2 v + 1 - 53)) by (apply Z.shiftr_nonneg; exact Hv).
  repeat match goal with |- context [if ?b then _ else _] => destruct b end; lia.
Qed.

(** Integers of magnitude up to 2^53 are Number values. *)
Lemma roundToDouble_small (z : Z) : Z.abs z <= 2 ^ 53 -> roundToDouble z = z.
Proof.
  intros Hz. unfold roundToDouble.
  assert (Hm : roundMagnitude (Z.abs z) = Z.abs z).
  { destruct (Z.eq_dec (Z.abs z) (2 ^ 53)) as [-> | Hne]; [reflexivity |].
    unfold roundMagnitude.
    destruct (Z.eq_dec (Z.abs z) 0) as [-> | Hpos]; [reflexivity |].
    assert (Z.log2 (Z.abs z) < 53) by (apply Z.log2_lt_pow2; lia).
    destruct (Z.leb_spec (Z.log2 (Z.abs z) + 1) 53); [reflexivity | lia]. }
  rewrite Hm. lia.
Qed.

Lemma roundToDouble_opp (z : Z) : roundToDouble (- z) = - roundToDouble z.
Proof.
  unfold roundToDouble. rewrite Z.sgn_opp, Z.abs_opp. lia.
Qed.

Lemma roundToDouble_pos (v x : Z) : roundToDouble v = x -> 0 < x -> 0 < v.
Proof.
  unfold roundToDouble. intros H Hx.
  destruct (Z.lt_trichotomy v 0) as [Hneg | [-> | Hpos]]; [| cbn in H; lia | exact Hpos].
  pose proof (roundMagnitude_nonneg (Z.abs v) (Z.abs_nonneg v)).
  rewrite (Z.sgn_neg v Hneg) in H. lia.
Qed.

Lemma shortestFrom_rounds (x D : Z) (fuel : nat) : forall k,
  isDouble x -> roundToDouble (shortestFrom x D k fuel) = x.
Proof.
  induction fuel as [|fuel IH]; intros k Hx; cbn [shortestFrom]; [exact Hx |].
  destruct (Z.eqb_spec (roundToDouble (x / 10 ^ (D - k) * 10 ^ (D - k))) x) as [Hlo | Hlo];
    destruct (Z.eqb_spec (roundToDouble (x / 10 ^ (D - k) * 10 ^ (D - k) + 10 ^ (D - k))) x)
      as [Hhi | Hhi]; cbn [andb]; auto.
  destruct (_ <=? _); assumption.
Qed.

Lemma ten_pow_21_isDouble : roundToDouble (10 ^ 21) = 10 ^ 21.
Proof. vm_compute. reflexivity. Qed.

Lemma shortestFrom_below (x D : Z) (fuel : nat) : forall k,
  0 < x < 10 ^ 21 -> 1 <= k -> k + Z.of_nat fuel = D + 1 -> D <= 21 ->
  shortestFrom x D k fuel < 10 ^ 21.
Proof.
  induction fuel as [|fuel IH]; intros k Hx Hk Hsum HD; cbn [shortestFrom]; [lia |].
  set (p := 10 ^ (D - k)).
  assert (Hp : 0 < p) by (apply Z.pow_pos_nonneg; lia).
  assert (Hsplit : 10 ^ 21 = p * 10 ^ (21 - (D - k))).
  { unfold p. rewrite <- Z.pow_add_r by lia. f_equal. lia. }
  assert (Hlo : x / p * p <= x) by (pose proof (Z.mul_div_le x p Hp); lia).
  assert (Hhi : x / p * p + p <= 10 ^ 21).
  { assert (x / p < 10 ^ (21 - (D - k))) by (apply Z.div_lt_upper_bound; lia).
    rewrite Hsplit. nia. }
  destruct (Z.eqb_spec (roundToDouble (x / p * p)) x) as [Hlo' | Hlo'];
    destruct (Z.eqb_spec (roundToDouble (x / p * p + p)) x) as [Hhi' | Hhi'];
    cbn [andb].
  - destruct (_ <=? _); [lia |].
    destruct (Z.eq_dec (x / p * p + p) (10 ^ 21)) as [E | E]; [| lia].
    rewrite E, ten_pow_21_isDouble in Hhi'. lia.
  - lia.
  - destruct (Z.eq_dec (x / p * p + p) (10 ^ 21)) as [E | E]; [| lia].
    rewrite E, ten_pow_21_isDouble in Hhi'. lia.
  - apply IH; lia.
Qed.

Lemma numDigits_below (v : Z) : 0 < v < 10 ^ 21 -> numDigits v <= 21.
Proof.
  intros Hv. destruct (decimal_spec v ltac:(lia)) as (_ & Hlen & _ & _ & Hlb).
  specialize (Hlb ltac:(lia)).
  destruct (Z_le_gt_dec (numDigits v) 21) as [H | H]; [exact H | exfalso].
  assert (10 ^ 21 <= 10 ^ (numDigits v - 1)) by (apply Z.pow_le_mono_r; lia).
  lia.
Qed.

(** Below [10^21] a Number prints as a plain decimal numeral that rounds
    back to it. *)
Lemma positiveToString_decimal (x : Z) :
  isDouble x -> 0 < x < 10 ^ 21 ->
  exists v, 0 < v /\ roundToDouble v = x /\ positiveToString x = decimal v.
Proof.
  intros Hd Hx. exists (shortest x).
  assert (Hr : roundToDouble (shortest x) = x) by (apply shortestFrom_rounds; exact Hd).
  assert (Hpos : 0 < shortest x) by (eapply roundToDouble_pos; [exact Hr | lia]).
  assert (Hb : shortest x < 10 ^ 21).
  { unfold shortest. pose proof (numDigits_below x Hx).
    destruct (decimal_spec x ltac:(lia)) as (_ & Hlen & _).
    apply shortestFrom_below; lia. }
  repeat split; try assumption.
  unfold positiveToString.
  pose proof (numDigits_below (shortest x) ltac:(lia)) as Hn.
  apply Z.leb_le in Hn. rewrite Hn. reflexivity.
Qed.

Lemma parseInt_toString (z : Z) :
  isDouble z -> Z.abs z < 10 ^ 21 -> parseInt (toString (Num z)) = Num z.
Proof.
  intros Hd Hz. unfold toString.
  destruct (Z.eqb_spec z 0) as [-> | Hne]; [reflexivity |].
  destruct (Z.ltb_spec z 0) as [Hneg | Hpos].
  - assert (Hd' : isDouble (- z)) by (unfold isDouble in *; rewrite roundToDouble_opp; lia).
    destruct (positiveToString_decimal (- z) Hd' ltac:(lia)) as (v & Hv & Hr & ->).
    destruct (parseInt_decimal v ltac:(lia)) as [_ ->].
    rewrite roundToDouble_opp, Hr. f_equal. lia.
  - destruct (positiveToString_decimal z Hd ltac:(lia)) as (v & Hv & Hr & ->).
    destruct (parseInt_decimal v ltac:(lia)) as [-> _].
    now rewrite Hr.
Qed.

(** ** Splitting *)

Lemma split_avoids (sep : ascii) (s : string) : avoids sep s = true -> split sep s = [s].
Proof.
  induction s as [|c s IH]; [reflexivity |]. cbn [avoids split].
  intros [Hc Hs]%andb_prop. apply negb_true_iff in Hc. rewrite Hc, IH by exact Hs.
  reflexivity.
Qed.

Lemma split_append (sep : ascii) (a b : string) :
  avoids sep a = true -> split sep (a +:+ String sep b) = a :: split sep b.
Proof.
  induction a as [|c a IH].
  - intros _. rewrite append_nil_l. cbn [split]. now rewrite Ascii.eqb_refl.
  - cbn [avoids]. intros [Hc Ha]%andb_prop. apply negb_true_iff in Hc.
    rewrite append_cons. cbn [split]. rewrite Hc, IH by exact Ha. reflexivity.
Qed.

Lemma avoids_append (sep : ascii) (a b : string) :
  avoids sep (a +:+ b) = avoids sep a && avoids sep b.
Proof.
  induction a as [|c a IH]; [reflexivity |].
  rewrite append_cons. cbn [avoids]. now rewrite IH, andb_assoc.
Qed.

Lemma allDigits_avoids_underscore (s : string) :
  allDigits s = true -> avoids "_" s = true.
Proof.
  induction s as [|c s IH]; [reflexivity |]. cbn [allDigits avoids].
  intros [Hc Hs]%andb_prop. rewrite (isDigit_not_underscore c Hc), IH by exact Hs.
  reflexivity.
Qed.

Lemma toString_avoids_underscore (z : Z) :
  isDouble z -> Z.abs z < 10 ^ 21 -> avoids "_" (toString (Num z)) = true.
Proof.
  intros Hd Hz. unfold toString.
  destruct (Z.eqb_spec z 0) as [-> | Hne]; [reflexivity |].
  destruct (Z.ltb_spec z 0) as [Hneg | Hpos].
  - assert (Hd' : isDouble (- z)) by (unfold isDouble in *; rewrite roundToDouble_opp; lia).
    destruct (positiveToString_decimal (- z) Hd' ltac:(lia)) as (v & Hv & Hr & ->).
    rewrite avoids_append. apply andb_true_intro. split; [reflexivity |].
    apply allDigits_avoids_underscore, decimal_spec. lia.
  - destruct (positiveToString_decimal z Hd ltac:(lia)) as (v & Hv & Hr & ->).
    apply allDigits_avoids_underscore, decimal_spec. lia.
Qed.

End JSFacts.

(** ** QuadId: content ids *)

Section ContentId.
Import JS JSFacts.

Lemma split_contentId (l c r : Z) :
  isDouble l -> isDouble c -> isDouble r ->
  Z.abs l < 10 ^ 21 -> Z.abs c < 10 ^ 21 -> Z.abs r < 10 ^ 21 ->
  split "_" (contentId (mkQuadId (Num l) (Num c) (Num r)))
  = [toString (Num l); toString (Num c); toString (Num r)].
Proof.
  intros Hl Hc Hr Bl Bc Br. unfold contentId. cbn [level column row].
  rewrite !append_cons, !append_nil_l.
  rewrite split_append by (apply toString_avoids_underscore; assumption).
  rewrite split_append by (apply toString_avoids_underscore; assumption).
  rewrite split_avoids by (apply toString_avoids_underscore; assumption).
  reflexivity.
Qed.

(** C1, as the code has it: a QuadId whose level, column and row are integer
    Number values of magnitude below 10^21 is reproduced by
    [createFromContentId] from its [contentId], whatever the build. *)
Theorem createFromContentId_contentId (assertionsEnabled : bool) (l c r : Z) :
  isDouble l -> isDouble c -> isDouble r ->
  Z.abs l < 10 ^ 21 -> Z.abs c < 10 ^ 21 -> Z.abs r < 10 ^ 21 ->
  createFromContentId assertionsEnabled (contentId (mkQuadId (Num l) (Num c) (Num r)))
  = Returned (mkQuadId (Num l) (Num c) (Num r)).
Proof.
  intros Hl Hc Hr Bl Bc Br. unfold createFromContentId.
  rewrite split_contentId by assumption. cbn [length Nat.eqb negb nth].
  rewrite !parseInt_toString by assumption. reflexivity.
Qed.

Lemma createFromContentId_contentId_witness :
  createFromContentId true (contentId (mkQuadId (Num 17) (Num 70123) (Num (-4))))
  = Returned (mkQuadId (Num 17) (Num 70123) (Num (-4))).
Proof.
  apply (createFromContentId_contentId true 17 70123 (-4));
    first [vm_compute; reflexivity | vm_compute; reflexivity].
Defined.

(** C1 fails as stated at level 10^21, an integer Number value: its content
    id is "1e+21_0_0", of which [parseInt] reads the level 1. *)
Lemma createFromContentId_contentId_counterexample :
  isDouble (10 ^ 21)
  /\ isValid (mkQuadId (Num (10 ^ 21)) (Num 0) (Num 0)) = true
  /\ contentId (mkQuadId (Num (10 ^ 21)) (Num 0) (Num 0)) = "1e+21_0_0"
  /\ createFromContentId false (contentId (mkQuadId (Num (10 ^ 21)) (Num 0) (Num 0)))
     = Returned (mkQuadId (Num 1) (Num 0) (Num 0))
  /\ createFromContentId false (contentId (mkQuadId (Num (10 ^ 21)) (Num 0) (Num 0)))
     <> Returned (mkQuadId (Num (10 ^ 21)) (Num 0) (Num 0)).
Proof.
  repeat split; try (vm_compute; reflexivity).
  vm_compute. discriminate.
Qed.

(** C3, as the code has it: the only check is the number of parts.  With
    assertions disabled a string that does not split into exactly three parts
    gives the marker QuadId(-1,-1,-1), which is not valid, and nothing is
    thrown; with assertions enabled the failed assertion throws.  A string of
    exactly three parts is never rejected: each part goes through [parseInt],
    and the result is valid exactly when the first part parses to a number
    that is not negative. *)
Theorem createFromContentId_malformed (stringId : string) :
  (length (split "_" stringId) <> 3%nat ->
     createFromContentId false stringId
       = Returned (mkQuadId (Num (-1)) (Num (-1)) (Num (-1)))
     /\ isValid (mkQuadId (Num (-1)) (Num (-1)) (Num (-1))) = false
     /\ createFromContentId true stringId = Thrown)
  /\ (forall p0 p1 p2 assertionsEnabled,
        split "_" stringId = [p0; p1; p2] ->
        createFromContentId assertionsEnabled stringId
          = Returned (mkQuadId (parseInt p0) (parseInt p1) (parseInt p2))
        /\ (isValid (mkQuadId (parseInt p0) (parseInt p1) (parseInt p2)) = true
            <-> exists z, parseInt p0 = Num z /\ 0 <= z)).
Proof.
  split.
  - intros Hlen. unfold createFromContentId.
    destruct (Nat.eqb_spec 3 (length (split "_" stringId))) as [E | _]; [congruence |].
    cbn. auto.
  - intros p0 p1 p2 ae Hs. unfold createFromContentId. rewrite Hs. cbn.
    split; [reflexivity |]. unfold isValid. cbn.
    destruct (parseInt p0) as [|z]; cbn.
    + split; [discriminate | intros (z & Hz & _); discriminate].
    + rewrite Z.leb_le. split; [intros H; exists z; auto | intros (z' & [= <-] & H); exact H].
Qed.

Lemma createFromContentId_malformed_witness :
  createFromContentId false "bad" = Returned (mkQuadId (Num (-1)) (Num (-1)) (Num (-1)))
  /\ isValid (mkQuadId (Num (-1)) (Num (-1)) (Num (-1))) = false
  /\ createFromContentId true "bad" = Thrown.
Proof.
  apply (proj1 (createFromContentId_malformed "bad")). vm_compute. lia.
Defined.

(** C3 fails as stated at "1_x_y", which has three parts of which two are
    not numeric: the result has level 1 and is valid. *)
Lemma createFromContentId_malformed_counterexample :
  split "_" "1_x_y" = ["1"; "x"; "y"]
  /\ parseInt "x" = NaN /\ parseInt "y" = NaN
  /\ createFromContentId false "1_x_y" = Returned (mkQuadId (Num 1) NaN NaN)
  /\ isValid (mkQuadId (Num 1) NaN NaN) = true
  /\ createFromContentId false "x_1_2" = Returned (mkQuadId NaN (Num 1) (Num 2)).
Proof. repeat split; vm_compute; reflexivity. Qed.

End ContentId.

(** ** Quadkeys *)

Section QuadKey.
Import JS JSFacts.

Lemma wrapInt32_range (z : Z) : - 2 ^ 31 <= wrapInt32 z < 2 ^ 31.
Proof.
  unfold wrapInt32. pose proof (Z.mod_pos_bound z (2 ^ 32) ltac:(lia)).
  destruct (Z.ltb_spec (z mod 2 ^ 32) (2 ^ 31)); lia.
Qed.

Lemma wrapInt32_low_bits (z n : Z) :
  0 <= n < 32 -> Z.testbit (wrapInt32 z) n = Z.testbit z n.
Proof.
  intros Hn.
  assert (Hmod : wrapInt32 z mod 2 ^ 32 = z mod 2 ^ 32).
  { unfold wrapInt32. destruct (_ <? _).
    - apply Z.mod_mod. lia.
    - replace (z mod 2 ^ 32 - 2 ^ 32) with (z mod 2 ^ 32 + (-1) * 2 ^ 32) by lia.
      rewrite Z.mod_add by lia. apply Z.mod_mod. lia. }
  rewrite <- (Z.mod_pow2_bits_low (wrapInt32 z) 32 n) by lia.
  rewrite Hmod. apply Z.mod_pow2_bits_low. lia.
Qed.

Lemma wrapInt32_id (a : Z) : - 2 ^ 31 <= a < 2 ^ 31 -> wrapInt32 a = a.
Proof.
  intros Ha. unfold wrapInt32. destruct (Z_lt_le_dec a 0) as [Hneg | Hpos].
  - rewrite <- (Z.mod_add a 1 (2 ^ 32)) by lia.
    rewrite Z.mod_small by lia.
    destruct (Z.ltb_spec (a + 1 * 2 ^ 32) (2 ^ 31)); lia.
  - rewrite Z.mod_small by lia.
    destruct (Z.ltb_spec a (2 ^ 31)); lia.
Qed.

(** Sign extension: from bit 31 on, all the bits of a 32 bit integer agree. *)
Lemma int32_high_bits (a n : Z) :
  - 2 ^ 31 <= a < 2 ^ 31 -> 31 <= n -> Z.testbit a n = Z.testbit a 31.
Proof.
  intros Ha Hn.
  assert (Hsmall : forall b m, 0 <= b < 2 ^ 31 -> 31 <= m -> Z.testbit b m = false).
  { intros b m Hb Hm. apply Z.testbit_false; [lia |].
    rewrite Z.div_small; [reflexivity |].
    split; [lia |]. apply Z.lt_le_trans with (2 ^ 31); [lia |].
    apply Z.pow_le_mono_r; lia. }
  destruct (Z_lt_le_dec a 0) as [Hneg | Hpos].
  - replace a with (- (- a)) by lia.
    rewrite !Z.bits_opp by lia.
    rewrite !Hsmall by lia. reflexivity.
  - rewrite !Hsmall by lia. reflexivity.
Qed.

Lemma wrapInt32_bits (z n : Z) :
  0 <= n -> Z.testbit (wrapInt32 z) n = Z.testbit z (Z.min n 31).
Proof.
  intros Hn. destruct (Z_lt_le_dec n 31) as [Hlt | Hge].
  - rewrite Z.min_l by lia. apply wrapInt32_low_bits. lia.
  - rewrite Z.min_r by lia.
    rewrite (int32_high_bits _ n (wrapInt32_range z) Hge).
    apply wrapInt32_low_bits. lia.
Qed.

(** The mask of iteration [i] selects bit [i - 1] as long as [i <= 32]. *)
Lemma band_mask (z i : Z) :
  1 <= i <= 32 ->
  strictNe (band (Num z) (shl (Num 1) (sub (Num i) (Num 1)))) (Num 0)
  = Z.testbit z (i - 1).
Proof.
  intros Hi. cbn [sub shl band toInt32 toUint32 strictNe].
  change (wrapInt32 1) with 1.
  assert (Hcount : Z.land ((i - 1) mod 2 ^ 32) 31 = i - 1).
  { rewrite Z.mod_small by lia. change 31 with (Z.ones 5).
    rewrite Z.land_ones by lia. apply Z.mod_small. lia. }
  rewrite Hcount, Z.shiftl_1_l.
  rewrite (wrapInt32_id (wrapInt32 _)) by apply wrapInt32_range.
  set (m := wrapInt32 (2 ^ (i - 1))).
  assert (Hm : forall n, 0 <= n -> Z.testbit m n = (Z.min n 31 =? i - 1)).
  { intros n Hn. unfold m. rewrite wrapInt32_bits by exact Hn.
    rewrite Z.pow2_bits_eqb by lia. apply Z.eqb_sym. }
  destruct (Z.testbit z (i - 1)) eqn:Hbit.
  - apply negb_true_iff, Z.eqb_neq. intros Hzero.
    assert (Z.testbit (Z.land (wrapInt32 z) m) (i - 1) = true) as Hone.
    { rewrite Z.land_spec, wrapInt32_low_bits, Hbit, Hm by lia.
      rewrite Z.min_l by lia. now rewrite Z.eqb_refl. }
    rewrite Hzero, Z.bits_0 in Hone. discriminate.
  - apply negb_false_iff, Z.eqb_eq, Z.bits_inj'. intros n Hn.
    rewrite Z.land_spec, Z.bits_0, wrapInt32_bits, Hm by exact Hn.
    destruct (Z.eqb_spec (Z.min n 31) (i - 1)) as [E | E].
    + rewrite E, Hbit. reflexivity.
    + apply andb_false_r.
Qed.

Lemma quadKeyDigit_formula (column row i : Z) :
  1 <= i <= 32 ->
  fromCharCode (quadKeyDigit (Num column) (Num row) i) = quadKeyDigitAt column row (i - 1).
Proof.
  intros Hi. unfold quadKeyDigit, quadKeyDigitAt.
  rewrite !band_mask by exact Hi.
  destruct (Z.testbit column (i - 1)), (Z.testbit row (i - 1)); reflexivity.
Qed.

Lemma get_append_l (a b : string) (n : nat) :
  (n < String.length a)%nat -> String.get n (a +:+ b) = String.get n a.
Proof.
  revert n; induction a as [|c a IH]; intros n Hn; cbn [String.length] in Hn; [lia |].
  rewrite append_cons. destruct n as [|n]; cbn [String.get]; [reflexivity |].
  apply IH. lia.
Qed.

Lemma get_append_r (a b : string) (n : nat) :
  String.get (String.length a + n) (a +:+ b) = String.get n b.
Proof.
  induction a as [|c a IH]; [reflexivity |].
  rewrite append_cons. cbn [String.length Nat.add String.get]. exact IH.
Qed.

(** The loop appends one character a turn, that of turn [i] at offset
    [count - i] from where it started. *)
Lemma quadKeyLoop_spec (tileX tileY : number) (count : nat) : forall quadKey,
  String.length (quadKeyLoop tileX tileY count quadKey)
    = (String.length quadKey + count)%nat
  /\ (forall n, (n < String.length quadKey)%nat ->
        String.get n (quadKeyLoop tileX tileY count quadKey) = String.get n quadKey)
  /\ (forall i, (1 <= i <= count)%nat ->
        String.get (String.length quadKey + (count - i))
                   (quadKeyLoop tileX tileY count quadKey)
        = Some (fromCharCode (quadKeyDigit tileX tileY (Z.of_nat i)))).
Proof.
  induction count as [|count IH]; intros quadKey; cbn [quadKeyLoop].
  - repeat split; intros; first [lia | reflexivity].
  - destruct (IH (quadKey +:+ String (fromCharCode
                    (quadKeyDigit tileX tileY (Z.of_nat (S count)))) ""))
      as (Hlen & Hkeep & Hdig).
    rewrite length_append in Hlen, Hkeep, Hdig. cbn [String.length] in Hlen, Hkeep, Hdig.
    repeat split.
    + lia.
    + intros n Hn. rewrite Hkeep by lia. apply get_append_l. exact Hn.
    + intros i Hi. destruct (Nat.eq_dec i (S count)) as [-> | Hne].
      * replace (S count - S count)%nat with 0%nat by lia.
        rewrite Hkeep by lia.
        rewrite get_append_r. reflexivity.
      * specialize (Hdig i ltac:(lia)).
        replace (String.length quadKey + (S count - i))%nat
          with (String.length quadKey + 1 + (count - i))%nat by lia.
        exact Hdig.
Qed.





End QuadKey.

(** ** Coverage *)

Section CoverageFacts.

Lemma Qltb_spec (a b : Q) : reflect (a < b)%Q (Qltb a b).
Proof.
  unfold Qltb. destruct (Qle_bool b a) eqn:E; constructor.
  - apply Qle_bool_iff in E. apply Qle_not_lt. exact E.
  - apply Qnot_le_lt. intros Hle. apply Qle_bool_iff in Hle. congruence.
Qed.

(** The range of a quad is the bounding box of its two projected corners. *)
Lemma getLatLongRange_box (q : QuadId) (s : MapTilingScheme) :
  exists low high,
    getLatLongRange q s = Box2d low high
    /\ (x low <= x high)%Q /\ (y low <= y high)%Q.
Proof.
  unfold getLatLongRange, Range2d_createNull, Range2d_extendXY. cbn [x y].
  eexists _, _. split; [reflexivity |]. cbn [x y].
  split; repeat match goal with |- context [Qltb ?a ?b] => destruct (Qltb_spec a b) end; lra.
Qed.

Lemma boxesIntersect_shared_point (low high : Point2d) (c : Coverage) :
  (x low <= x high)%Q -> (y low <= y high)%Q ->
  (_lowerLeftLongitude c <= _upperRightLongitude c)%Q ->
  (_lowerLeftLatitude c <= _upperRightLatitude c)%Q ->
  boxesIntersect low high c <-> exists px py, inRange low high px py /\ inCoverage c px py.
Proof.
  intros Hx Hy Hlon Hlat. unfold boxesIntersect, inRange, inCoverage. split.
  - intros (H1 & H2 & H3 & H4).
    exists (if Qltb (x low) (_lowerLeftLongitude c) then _lowerLeftLongitude c else x low),
           (if Qltb (y low) (_lowerLeftLatitude c) then _lowerLeftLatitude c else y low).
    destruct (Qltb_spec (x low) (_lowerLeftLongitude c)),
             (Qltb_spec (y low) (_lowerLeftLatitude c)); lra.
  - intros (px & py & H1 & H2). lra.
Qed.

(** C4: [overlaps] is false whenever the level is below the minimum or above
    the maximum zoom level; otherwise it is false exactly when the quad's
    range and the coverage's box fail the inclusive intersection test, so it
    is true for a quad inside the box; for a coverage whose box is not empty
    the test says that the two boxes share a point. *)
Theorem overlaps_spec (c : Coverage) (quadId : QuadId) (tilingScheme : MapTilingScheme) :
  exists low high,
    getLatLongRange quadId tilingScheme = Box2d low high
    /\ (JS.lt (level quadId) (_minimumZoomLevel c) = true
        \/ JS.gt (level quadId) (_maximumZoomLevel c) = true ->
        overlaps c quadId tilingScheme = false)
    /\ (JS.lt (level quadId) (_minimumZoomLevel c) = false ->
        JS.gt (level quadId) (_maximumZoomLevel c) = false ->
        (overlaps c quadId tilingScheme = false <-> ~ boxesIntersect low high c)
        /\ (overlaps c quadId tilingScheme = true <-> boxesIntersect low high c)
        /\ ((_lowerLeftLongitude c <= x low)%Q -> (x high <= _upperRightLongitude c)%Q ->
            (_lowerLeftLatitude c <= y low)%Q -> (y high <= _upperRightLatitude c)%Q ->
            overlaps c quadId tilingScheme = true)
        /\ ((_lowerLeftLongitude c <= _upperRightLongitude c)%Q ->
            (_lowerLeftLatitude c <= _upperRightLatitude c)%Q ->
            (overlaps c quadId tilingScheme = true
             <-> exists px py, inRange low high px py /\ inCoverage c px py))).
Proof.
  destruct (getLatLongRange_box quadId tilingScheme) as (low & high & Hrange & Hx & Hy).
  exists low, high. split; [exact Hrange |].
  assert (Htest : JS.lt (level quadId) (_minimumZoomLevel c) = false ->
                  JS.gt (level quadId) (_maximumZoomLevel c) = false ->
                  (overlaps c quadId tilingScheme = true <-> boxesIntersect low high c)).
  { intros Hmin Hmax. unfold overlaps, boxesIntersect. rewrite Hrange, Hmin, Hmax.
    destruct (Qltb_spec (_upperRightLongitude c) (x low)),
             (Qltb_spec (_upperRightLatitude c) (y low)),
             (Qltb_spec (x high) (_lowerLeftLongitude c)),
             (Qltb_spec (y high) (_lowerLeftLatitude c));
      split; intros H; try discriminate; try reflexivity;
      try (destruct H as (? & ? & ? & ?)); try lra;
      repeat split; lra. }
  split.
  - intros Hzoom. unfold overlaps. rewrite Hrange.
    destruct (JS.lt (level quadId) (_minimumZoomLevel c)); [reflexivity |].
    destruct Hzoom as [Hzoom | Hzoom]; [discriminate | now rewrite Hzoom].
  - intros Hmin Hmax. specialize (Htest Hmin Hmax).
    split; [| split; [exact Htest | split]].
    + split.
      * intros Hf Hi. apply Htest in Hi. congruence.
      * intros Hn. destruct (overlaps c quadId tilingScheme); [| reflexivity].
        exfalso. apply Hn, Htest. reflexivity.
    + intros H1 H2 H3 H4. apply Htest. unfold boxesIntersect. lra.
    + intros Hlon Hlat. rewrite Htest.
      apply boxesIntersect_shared_point; assumption.
Qed.

End CoverageFacts.

Lemma overlaps_spec_witness :
  overlaps (mkCoverage (-10) 0 10 20 (JS.Num 1) (JS.Num 9))
           (mkQuadId (JS.Num 4) (JS.Num 3) (JS.Num 2)) sampleScheme = true
  /\ overlaps (mkCoverage (-10) 0 10 20 (JS.Num 5) (JS.Num 9))
              (mkQuadId (JS.Num 4) (JS.Num 3) (JS.Num 2)) sampleScheme = false.
Proof.
  split.
  - destruct (overlaps_spec (mkCoverage (-10) 0 10 20 (JS.Num 1) (JS.Num 9))
                (mkQuadId (JS.Num 4) (JS.Num 3) (JS.Num 2)) sampleScheme)
      as (low & high & Hrange & _ & Hin).
    vm_compute in Hrange. injection Hrange as <- <-.
    destruct (Hin eq_refl eq_refl) as (_ & _ & Hinside & _).
    apply Hinside; vm_compute; discriminate.
  - destruct (overlaps_spec (mkCoverage (-10) 0 10 20 (JS.Num 5) (JS.Num 9))
                (mkQuadId (JS.Num 4) (JS.Num 3) (JS.Num 2)) sampleScheme)
      as (low & high & _ & Hzoom & _).
    apply Hzoom. left. reflexivity.
Defined.

(** ** The missing tile of Bing *)

Section MissingTile.

Lemma missingTileLoop_spec (missing tile : list Byte.byte) (fuel : nat) : forall i,
  (length tile <= i + 10 * fuel)%nat ->
  missingTileLoop missing tile fuel i = true
  <-> forall k, (i + 10 * k < length tile)%nat ->
        missing !! (i + 10 * k)%nat = tile !! (i + 10 * k)%nat.
Proof.
  induction fuel as [|fuel IH]; intros i Hfuel; cbn [missingTileLoop].
  - split; [intros _ k Hk; lia | reflexivity].
  - destruct (Nat.ltb_spec i (length tile)) as [Hlt | Hge].
    + destruct (bool_decide_reflect (missing !! i = tile !! i)) as [Heq | Hne]; cbn [negb].
      * rewrite IH by lia. split.
        -- intros Hrest k Hk. destruct k as [|k].
           ++ now rewrite Nat.mul_0_r, Nat.add_0_r.
           ++ specialize (Hrest k). replace (i + 10 * S k)%nat with (i + 10 + 10 * k)%nat by lia.
              apply Hrest. lia.
        -- intros Hall k Hk. replace (i + 10 + 10 * k)%nat with (i + 10 * S k)%nat by lia.
           apply Hall. lia.
      * split; [discriminate |]. intros Hall. exfalso. apply Hne.
        specialize (Hall 0%nat). rewrite Nat.mul_0_r, Nat.add_0_r in Hall. apply Hall. exact Hlt.
    + split; [intros _ k Hk; lia | reflexivity].
Qed.

(** C10: Bing's [matchesMissingTile] answers true exactly when a fingerprint
    has been captured, the tile data has its length and the two agree at
    every index that is a multiple of 10; without a fingerprint it answers
    false, and so does the base class's method whatever it is given. *)
Theorem matchesMissingTile_spec (this : BingImageryProvider) (tileData : list Byte.byte) :
  (Bing_matchesMissingTile this tileData = true
   <-> exists missingTileData,
         _missingTileData this = Some missingTileData
         /\ length tileData = length missingTileData
         /\ forall i, (i < length tileData)%nat -> (i mod 10 = 0)%nat ->
              missingTileData !! i = tileData !! i)
  /\ Bing_matchesMissingTile
       (mkBingImageryProvider (_urlTemplate this) (_urlSubdomains this)
          (_attributions this) None (_mapTilingScheme this)) tileData = false
  /\ (forall (P : Type) (provider : P),
        ImageryProvider_matchesMissingTile provider tileData = false)
  /\ (forall provider : MapBoxImageryProvider,
        matchesMissingTile provider tileData = false).
Proof.
  split; [| repeat split].
  unfold Bing_matchesMissingTile. destruct (_missingTileData this) as [missing |].
  - destruct (Nat.eqb_spec (length tileData) (length missing)) as [Hlen | Hlen]; cbn [negb].
    + rewrite missingTileLoop_spec by lia. split.
      * intros Hall. exists missing. repeat split; [exact Hlen |].
        intros i Hi Hmod. specialize (Hall (i / 10)%nat).
        pose proof (Nat.div_mod_eq i 10) as Hdm.
        replace (0 + 10 * (i / 10))%nat with i in Hall by lia. apply Hall. exact Hi.
      * intros (m & [= <-] & _ & Hall) k Hk. apply Hall; [exact Hk |].
        cbn [Nat.add]. rewrite Nat.mul_comm. apply Nat.Div0.mod_mul.
    + split; [discriminate |]. intros (m & [= <-] & Hlen' & _). contradiction.
  - split; [discriminate |]. intros (m & Hm & _). discriminate.
Qed.

End MissingTile.

(** ** Attributions *)

Section Attributions.
Variable assertionsEnabled : bool.
Variable tilingScheme : MapTilingScheme.
Variable attributions : list BingAttribution.
Variable tiles : list Tile.

Local Abbreviation Inv :=
  (attributionsInvariant assertionsEnabled tilingScheme attributions tiles).

Lemma createFromContentId_production (stringId : string) :
  exists quadId, createFromContentId false stringId = Returned quadId.
Proof.
  unfold createFromContentId. destruct (negb _); cbn; eauto.
Qed.

Lemma matchesTile_returns (attribution : BingAttribution) (tile : Tile) :
  (exists quadId, createFromContentId assertionsEnabled (tileContentId tile) = Returned quadId) ->
  exists matched,
    matchesTile assertionsEnabled attribution tile tilingScheme = Returned matched.
Proof. intros [quadId Hq]. unfold matchesTile. rewrite Hq. cbn. eauto. Qed.

(** One pass over the unmatched attributions for [tile]. *)
Lemma attributionLoop_spec (tile : Tile) (count : nat) :
  forall iAttr indices matching unmatched,
    tile ∈ tiles ->
    (exists quadId,
       createFromContentId assertionsEnabled (tileContentId tile) = Returned quadId) ->
    (iAttr + count = length attributions)%nat ->
    Inv indices matching unmatched ->
    (forall i attribution, (i < iAttr)%nat -> attributions !! i = Some attribution ->
       matchesTile assertionsEnabled attribution tile tilingScheme = Returned true ->
       i ∈ indices) ->
    exists indices' matching' unmatched',
      attributionLoop assertionsEnabled tilingScheme tile count iAttr matching unmatched
        = Returned (matching', unmatched')
      /\ Inv indices' matching' unmatched'
      /\ indices ⊆ indices'
      /\ (forall i attribution, attributions !! i = Some attribution ->
            matchesTile assertionsEnabled attribution tile tilingScheme = Returned true ->
            i ∈ indices').
Proof.
  induction count as [|count IH]; intros iAttr indices matching unmatched Htile Hq Hcount HInv Hdone.
  - exists indices, matching, unmatched. cbn [attributionLoop].
    split; [reflexivity |]. split; [exact HInv |]. split; [intros i Hi; exact Hi |].
    intros i a Ha Hm. apply (Hdone i a); [| exact Ha | exact Hm].
    apply lookup_lt_Some in Ha. lia.
  - cbn [attributionLoop].
    destruct HInv as (Hnodup & Hvals & Hlen & Hholes & Hpresent & Hmatch).
    assert (Hlt : (iAttr < length attributions)%nat) by lia.
    destruct (lookup_lt_is_Some_2 attributions iAttr Hlt) as [attribution Hattr].
    destruct (decide (iAttr ∈ indices)) as [Hin | Hnotin].
    + (* a hole: already matched *)
      rewrite (proj2 (Hholes iAttr Hin)).
      apply IH; try assumption; [lia | unfold attributionsInvariant; split_and!; assumption |].
      intros i a Hi Ha Hm. destruct (decide (i = iAttr)) as [-> | Hne]; [exact Hin |].
      apply (Hdone i a); [lia | exact Ha | exact Hm].
    + rewrite (Hpresent iAttr attribution Hnotin Hattr).
      destruct (matchesTile_returns attribution tile Hq) as [matched Hmatched].
      rewrite Hmatched. cbn [bindO]. destruct matched.
      * destruct (IH (S iAttr) (indices ++ [iAttr]) (matching ++ [attribution])
                    (<[iAttr := None]> unmatched)) as (indices' & m' & u' & Hrun & HInv' & Hsub & Hall);
          try assumption; [lia | |  |].
        { unfold attributionsInvariant. split_and!.
          - apply NoDup_app. split; [exact Hnodup |]. split; [| apply NoDup_singleton].
            intros i Hi Hi'. apply list_elem_of_singleton in Hi'. subst. contradiction.
          - apply Forall2_app; [exact Hvals |]. constructor; [exact Hattr | constructor].
          - rewrite length_insert. exact Hlen.
          - intros i [Hi | Hi]%elem_of_app.
            + split; [apply Hholes; exact Hi |].
              destruct (decide (i = iAttr)) as [-> | Hne]; [contradiction |].
              rewrite list_lookup_insert_ne by congruence. apply Hholes. exact Hi.
            + apply list_elem_of_singleton in Hi. subst.
              split; [exact Hlt |]. apply list_lookup_insert_eq. lia.
          - intros i a Hi Ha.
            assert (i <> iAttr) by (intros ->; apply Hi, elem_of_app; right; apply list_elem_of_singleton; reflexivity).
            rewrite list_lookup_insert_ne by congruence.
            apply Hpresent; [| exact Ha]. intros Hi'. apply Hi, elem_of_app. left. exact Hi'.
          - apply Forall_app. split; [exact Hmatch |]. constructor; [| constructor].
            exists tile. split; assumption. }
        { intros i a Hi Ha Hm. apply elem_of_app.
          destruct (decide (i = iAttr)) as [-> | Hne]; [right; apply list_elem_of_singleton; reflexivity |].
          left. apply (Hdone i a); [lia | exact Ha | exact Hm]. }
        exists indices', m', u'. split; [exact Hrun |]. split; [exact HInv' |].
        split; [| exact Hall]. intros i Hi. apply Hsub, elem_of_app. left. exact Hi.
      * apply IH; try assumption; [lia | unfold attributionsInvariant; split_and!; assumption |].
        intros i a Hi Ha Hm. destruct (decide (i = iAttr)) as [-> | Hne].
        -- rewrite Hattr in Ha. injection Ha as <-. congruence.
        -- apply (Hdone i a); [lia | exact Ha | exact Hm].
Qed.

(** The passes for a run of tiles, one after the other. *)
Lemma tileLoop_spec (rest : list Tile) :
  forall indices matching unmatched,
    (forall tile, tile ∈ rest -> tile ∈ tiles) ->
    Forall (fun tile => exists quadId,
              createFromContentId assertionsEnabled (tileContentId tile) = Returned quadId)
           rest ->
    Inv indices matching unmatched ->
    exists indices' matching' unmatched',
      tileLoop assertionsEnabled tilingScheme rest matching unmatched
        = Returned (matching', unmatched')
      /\ Inv indices' matching' unmatched'
      /\ indices ⊆ indices'
      /\ (forall tile i attribution, tile ∈ rest -> attributions !! i = Some attribution ->
            matchesTile assertionsEnabled attribution tile tilingScheme = Returned true ->
            i ∈ indices').
Proof.
  induction rest as [|tile rest IH]; intros indices matching unmatched Hsub Hret HInv.
  - exists indices, matching, unmatched. cbn [tileLoop].
    split_and!; [reflexivity | exact HInv | intros i Hi; exact Hi |].
    intros tile i a Ht. apply elem_of_nil in Ht. contradiction.
  - cbn [tileLoop]. apply Forall_cons in Hret as [Hq Hret].
    assert (Hlen : length unmatched = length attributions) by apply HInv.
    destruct (attributionLoop_spec tile (length unmatched) 0 indices matching unmatched)
      as (indices1 & m1 & u1 & Hrun1 & HInv1 & Hsub1 & Hall1);
      [apply Hsub; left | exact Hq | lia | exact HInv | intros i a Hi; lia |].
    rewrite Hrun1. cbn [bindO].
    destruct (IH indices1 m1 u1) as (indices2 & m2 & u2 & Hrun2 & HInv2 & Hsub2 & Hall2);
      [intros t Ht; apply Hsub; right; exact Ht | exact Hret | exact HInv1 |].
    exists indices2, m2, u2.
    split_and!; [exact Hrun2 | exact HInv2 | intros i Hi; apply Hsub2, Hsub1, Hi |].
    intros t i a [-> | Ht]%elem_of_cons Ha Hm.
    + apply Hsub2. apply (Hall1 i a Ha Hm).
    + apply (Hall2 t i a Ht Ha Hm).
Qed.
End Attributions.

(** C5: when the content id of every tile can be read (as it always can
    with assertions disabled), [getMatchingAttributions] returns attributions
    that stand at distinct positions of the provider's list, so none more
    often than the list has it, and each of them matches one of the tiles;
    an attribution of the list that matches one of the tiles is among them. *)
Theorem getMatchingAttributions_spec (assertionsEnabled : bool)
    (this : BingImageryProvider) (tiles : list Tile) :
  Forall (fun tile => exists quadId,
            createFromContentId assertionsEnabled (tileContentId tile) = Returned quadId)
         tiles ->
  exists result indices,
    getMatchingAttributions assertionsEnabled this tiles = Returned result
    /\ NoDup indices
    /\ Forall2 (fun i attribution =>
                  default [] (_attributions this) !! i = Some attribution)
               indices result
    /\ Forall (fun attribution => exists tile, tile ∈ tiles
                 /\ matchesTile assertionsEnabled attribution tile (_mapTilingScheme this)
                    = Returned true)
              result
    /\ (forall tile i attribution,
          tile ∈ tiles ->
          default [] (_attributions this) !! i = Some attribution ->
          matchesTile assertionsEnabled attribution tile (_mapTilingScheme this)
            = Returned true ->
          i ∈ indices).
Proof.
  intros Hret. unfold getMatchingAttributions.
  destruct (_attributions this) as [attributions |]; cbn [default].
  - destruct (tileLoop_spec assertionsEnabled (_mapTilingScheme this) attributions tiles
                tiles [] [] (Some <$> attributions))
      as (indices & matching & unmatched & Hrun & HInv & _ & Hall);
      [auto | exact Hret | |].
    { unfold attributionsInvariant. split_and!.
      - constructor.
      - constructor.
      - apply length_fmap.
      - intros i Hi. apply elem_of_nil in Hi. contradiction.
      - intros i a _ Ha. rewrite list_lookup_fmap, Ha. reflexivity.
      - constructor. }
    rewrite Hrun. cbn [bindO].
    destruct HInv as (Hnodup & Hvals & _ & _ & _ & Hmatch).
    exists matching, indices. split_and!; auto.
  - exists [], []. split_and!; [reflexivity | constructor | constructor | constructor |].
    intros tile i a _ Ha. rewrite lookup_nil in Ha. discriminate.
Qed.

Lemma getMatchingAttributions_spec_witness :
  exists result indices,
    getMatchingAttributions true sampleBing sampleTiles = Returned result
    /\ NoDup indices
    /\ Forall2 (fun i attribution =>
                  default [] (_attributions sampleBing) !! i = Some attribution)
               indices result
    /\ Forall (fun attribution => exists tile, tile ∈ sampleTiles
                 /\ matchesTile true attribution tile (_mapTilingScheme sampleBing)
                    = Returned true)
              result
    /\ (forall tile i attribution,
          tile ∈ sampleTiles ->
          default [] (_attributions sampleBing) !! i = Some attribution ->
          matchesTile true attribution tile (_mapTilingScheme sampleBing) = Returned true ->
          i ∈ indices).
Proof.
  apply (getMatchingAttributions_spec true sampleBing sampleTiles).
  unfold sampleTiles.
  repeat (constructor; [eexists; vm_compute; reflexivity |]). constructor.
Defined.

(** Ten tiles of which several match the first attribution: it is returned
    once. *)
Example getMatchingAttributions_sample :
  getMatchingAttributions true sampleBing sampleTiles
  = Returned [mkBingAttribution "HERE" [mkCoverage (-10) 0 10 20 (JS.Num 1) (JS.Num 9)]].
Proof. vm_compute. reflexivity. Qed.

Example Bing_constructUrl_sample :
  Bing_constructUrl true sampleBing (JS.Num 5) (JS.Num 3) (JS.Num 3)
  = Returned "https://ecn.t0.tiles.virtualearth.net/tiles/r213.jpeg".
Proof. vm_compute. reflexivity. Qed.

(** ** Loading a tile *)

Section LoadTileFacts.
Context {P : Type} `{ImageryProvider P}.
Variable request : string -> Outcome Response.
Variable assertionsEnabled : bool.

Lemma tryCatch_assert_None :
  tryCatch (let! _ := assert assertionsEnabled false in Returned (@None ImageSource))
           (Returned None) = Returned None.
Proof. unfold assert. destruct assertionsEnabled; reflexivity. Qed.

(** C6: once the URL is built, [loadTile] returns in every case: nothing
    when the request fails, when the body is empty, when the bytes match
    the provider's missing tile and when the content type is neither
    "image/jpeg" nor "image/png"; the bytes as a JPEG or a PNG image
    otherwise. *)
Theorem loadTile_spec (this : P) (row column zoomLevel : JS.number) (tileUrl : string) :
  constructUrl assertionsEnabled this row column zoomLevel = Returned tileUrl ->
  (exists result,
     loadTile request assertionsEnabled this row column zoomLevel = Returned result)
  /\ (request tileUrl = Thrown ->
      loadTile request assertionsEnabled this row column zoomLevel = Returned None)
  /\ (forall response, request tileUrl = Returned response ->
      (body response = [] ->
       loadTile request assertionsEnabled this row column zoomLevel = Returned None)
      /\ (matchesMissingTile this (body response) = true ->
          loadTile request assertionsEnabled this row column zoomLevel = Returned None)
      /\ (body response <> [] -> matchesMissingTile this (body response) = false ->
          (contentType response = Some "image/jpeg" ->
           loadTile request assertionsEnabled this row column zoomLevel
             = Returned (Some (mkImageSource (body response) Jpeg)))
          /\ (contentType response = Some "image/png" ->
              loadTile request assertionsEnabled this row column zoomLevel
                = Returned (Some (mkImageSource (body response) Png)))
          /\ (contentType response <> Some "image/jpeg" ->
              contentType response <> Some "image/png" ->
              loadTile request assertionsEnabled this row column zoomLevel
                = Returned None))).
Proof.
  intros Hurl. unfold loadTile. rewrite Hurl. cbn [bindO].
  split_and!.
  - destruct (request tileUrl) as [response |]; cbn [bindO tryCatch]; [| eauto].
    destruct (Nat.eqb _ 0); [cbn; eauto |].
    destruct (matchesMissingTile this _); [cbn; eauto |].
    repeat case_bool_decide; cbn [tryCatch]; eauto.
    rewrite tryCatch_assert_None. eauto.
  - intros ->. reflexivity.
  - intros response ->. cbn [bindO]. split_and!.
    + intros ->. reflexivity.
    + intros ->. destruct (Nat.eqb _ 0); reflexivity.
    + intros Hbody Hmiss. rewrite Hmiss.
      assert (Nat.eqb (length (body response)) 0 = false) as ->.
      { apply Nat.eqb_neq. destruct (body response); [congruence | cbn; lia]. }
      split_and!.
      * intros Hct. rewrite bool_decide_true by exact Hct. reflexivity.
      * intros Hct. rewrite bool_decide_false by (rewrite Hct; discriminate).
        rewrite bool_decide_true by exact Hct. reflexivity.
      * intros Hj Hp. rewrite !bool_decide_false by assumption.
        apply tryCatch_assert_None.
Qed.
End LoadTileFacts.

Lemma loadTile_spec_witness :
  loadTile sampleRequest true sampleBing (JS.Num 5) (JS.Num 3) (JS.Num 3)
    = Returned (Some (mkImageSource [Byte.xff; Byte.xd8; Byte.xff] Jpeg))
  /\ loadTile sampleRequest true sampleBing (JS.Num 5) (JS.Num 3) (JS.Num 2)
     = Returned None.
Proof.
  split.
  - destruct (loadTile_spec sampleRequest true sampleBing (JS.Num 5) (JS.Num 3) (JS.Num 3)
                "https://ecn.t0.tiles.virtualearth.net/tiles/r213.jpeg")
      as (_ & _ & Hresponse); [vm_compute; reflexivity |].
    destruct (Hresponse (mkResponse [Byte.xff; Byte.xd8; Byte.xff] (Some "image/jpeg")))
      as (_ & _ & Haccepted); [vm_compute; reflexivity |].
    destruct Haccepted as (Hjpeg & _); [discriminate | vm_compute; reflexivity |].
    apply Hjpeg. reflexivity.
  - destruct (loadTile_spec sampleRequest true sampleBing (JS.Num 5) (JS.Num 3) (JS.Num 2)
                "https://ecn.t0.tiles.virtualearth.net/tiles/r13.jpeg")
      as (_ & Hfailed & _); [vm_compute; reflexivity |].
    apply Hfailed. vm_compute. reflexivity.
Defined.

(** ** Loading tile content *)

Section LoadTileContentFacts.
Variables World MapTile HTMLImageElement RenderTexture RenderGraphic : Type.
Variable isLoading : MapTile -> World -> bool.
Variable reprojectCorners : MapTile -> Async World unit.
Variable imageElementFromImageSource : ImageSource -> Async World HTMLImageElement.
Variable createTextureFromImage :
  HTMLImageElement -> bool -> Async World (option RenderTexture).
Variable createTile : RenderTexture -> MapTile -> Async World (option RenderGraphic).
Variable createBatch : RenderGraphic -> MapTile -> Async World RenderGraphic.
Variable assertionsEnabled : bool.

Local Abbreviation load :=
  (loadTileContent World MapTile HTMLImageElement RenderTexture RenderGraphic
     isLoading reprojectCorners imageElementFromImageSource
     createTextureFromImage createTile createBatch assertionsEnabled).

Lemma assert_true : assert assertionsEnabled true = Returned tt.
Proof. unfold assert. now rewrite andb_false_r. Qed.

End LoadTileContentFacts.



(** The same load with a predicate that answers false goes on to the render
    system. *)
Example loadTileContent_not_canceled :
  loadTileContent (list string) unit unit unit unit (fun _ _ => true)
    sampleReproject sampleDecode sampleTexture sampleCreateTile sampleBatch true
    tt (mkImageSource [Byte.xff; Byte.xd8; Byte.xff] Jpeg) (Some (retA false)) []
  = (Returned (mkTileContent (Some tt)),
     ["reprojectCorners"; "imageElementFromImageSource"; "createTextureFromImage";
      "createTile"; "createBatch"]).
Proof. reflexivity. Qed.

(** ** Draw order *)

Section ArraySortFacts.
Context {A : Type} (comparefn : A -> A -> Z).
Local Abbreviation before := (fun a b : A => comparefn a b <= 0).
Hypothesis before_total : forall a b, comparefn a b <= 0 \/ comparefn b a <= 0.
Hypothesis before_trans :
  forall a b c, comparefn a b <= 0 -> comparefn b c <= 0 -> comparefn a c <= 0.

Lemma sortedInsert_Permutation (v : A) (sorted : list A) :
  sortedInsert comparefn v sorted ≡ₚ v :: sorted.
Proof.
  induction sorted as [|w rest IH]; cbn [sortedInsert]; [reflexivity |].
  destruct (comparefn v w <=? 0); [reflexivity |].
  rewrite IH. apply Permutation_swap.
Qed.

Lemma Array_sort_Permutation (array : list A) : Array_sort comparefn array ≡ₚ array.
Proof.
  induction array as [|v array IH]; [reflexivity |].
  unfold Array_sort in *. cbn [foldr]. now rewrite sortedInsert_Permutation, IH.
Qed.

Lemma sortedInsert_StronglySorted (v : A) (sorted : list A) :
  StronglySorted before sorted -> StronglySorted before (sortedInsert comparefn v sorted).
Proof.
  induction 1 as [|w rest Hrest IH Hw]; cbn [sortedInsert].
  - repeat constructor.
  - destruct (Z.leb_spec (comparefn v w) 0) as [Hle | Hgt].
    + constructor; [constructor; assumption |].
      constructor; [exact Hle |].
      eapply Forall_impl; [exact Hw |]. intros u Hu. cbn beta in *.
      eapply before_trans; eassumption.
    + constructor; [exact IH |].
      rewrite sortedInsert_Permutation. constructor; [| exact Hw].
      destruct (before_total w v) as [Hwv | Hvw]; [exact Hwv | lia].
Qed.

Lemma Array_sort_StronglySorted (array : list A) :
  StronglySorted before (Array_sort comparefn array).
Proof.
  induction array as [|v array IH]; [constructor |].
  unfold Array_sort in *. cbn [foldr]. now apply sortedInsert_StronglySorted.
Qed.
End ArraySortFacts.

Lemma StronglySorted_weaken {A : Type} (R S : A -> A -> Prop) (l : list A) :
  (forall a b, R a b -> S a b) -> StronglySorted R l -> StronglySorted S l.
Proof.
  intros HRS. induction 1 as [|w rest Hrest IH Hw]; constructor; [exact IH |].
  eapply Forall_impl; [exact Hw |]. intros u. apply HRS.
Qed.

Lemma StronglySorted_lookup {A : Type} (R : A -> A -> Prop) (l : list A) :
  StronglySorted R l ->
  forall i j a b, l !! i = Some a -> l !! j = Some b -> (i < j)%nat -> R a b.
Proof.
  induction 1 as [|w rest Hrest IH Hw]; intros i j a b Hi Hj Hlt.
  - rewrite lookup_nil in Hi. discriminate.
  - destruct j as [|j]; [lia |]. cbn in Hj. destruct i as [|i].
    + cbn in Hi. injection Hi as <-.
      rewrite Forall_forall in Hw. apply Hw. eapply list_elem_of_lookup_2. exact Hj.
    + cbn in Hi. eapply IH; [exact Hi | exact Hj | lia].
Qed.

(** C8: [processSelectedTiles] returns the selected tiles rearranged in
    ascending order of depth: a tile of lower depth stands before every tile
    of higher depth. *)
Theorem processSelectedTiles_sorted (selected : list Tile) :
  processSelectedTiles selected ≡ₚ selected
  /\ StronglySorted (fun lhs rhs => depth lhs <= depth rhs) (processSelectedTiles selected)
  /\ (forall i j coarse fine,
        processSelectedTiles selected !! i = Some coarse ->
        processSelectedTiles selected !! j = Some fine ->
        depth coarse < depth fine -> (i < j)%nat).
Proof.
  assert (Hsorted : StronglySorted (fun lhs rhs => depth lhs <= depth rhs)
                      (processSelectedTiles selected)).
  { eapply StronglySorted_weaken;
      [| apply (Array_sort_StronglySorted (fun lhs rhs => depth lhs - depth rhs));
         intros; lia].
    cbn. intros; lia. }
  split_and!.
  - apply Array_sort_Permutation.
  - exact Hsorted.
  - intros i j coarse fine Hi Hj Hdepth.
    destruct (Nat.lt_trichotomy i j) as [Hlt | [-> | Hgt]]; [exact Hlt | |].
    + rewrite Hi in Hj. injection Hj as ->. lia.
    + pose proof (StronglySorted_lookup _ _ Hsorted j i fine coarse Hj Hi Hgt). cbn in *. lia.
Qed.

Example processSelectedTiles_sample :
  processSelectedTiles
    [mkTile "5_6_4" 5; mkTile "3_1_1" 3; mkTile "4_3_2" 4; mkTile "3_2_1" 3]
  = [mkTile "3_1_1" 3; mkTile "3_2_1" 3; mkTile "4_3_2" 4; mkTile "5_6_4" 5].
Proof. reflexivity. Qed.

(** ** Tile tree identities *)

Section ComparatorFacts.

Lemma Qeq_bool_zero (c : Q) : Qeq_bool 0 c = true <-> (c == 0)%Q.
Proof. rewrite Qeq_bool_iff. split; intros E; now symmetry. Qed.

Lemma Qeq_bool_nonzero (c : Q) : Qeq_bool 0 c = false <-> ~ (c == 0)%Q.
Proof.
  rewrite <- Qeq_bool_zero. destruct (Qeq_bool 0 c); split; congruence.
Qed.

(** Comparing by a first component and then by a second one orders the
    pairs when the two comparisons order the components. *)
Lemma OrderComparator_pair {A B : Type}
    (first : A -> A -> Q) (second : B -> B -> Q)
    `{!OrderComparator first} `{!OrderComparator second} :
  OrderComparator
    (fun p q : A * B =>
       if Qeq_bool 0 (first p.1 q.1) then second p.2 q.2 else first p.1 q.1).
Proof.
  assert (Hzero : forall a b, Qeq_bool 0 (first a b) = true <-> a = b).
  { intros a b. rewrite Qeq_bool_zero. apply (compare_eq (compare := first)). }
  assert (Hnonzero : forall a b, Qeq_bool 0 (first a b) = false -> a <> b).
  { intros a b E Hab. apply Hzero in Hab. congruence. }
  assert (Hneg : forall a b, (first a b < 0)%Q -> Qeq_bool 0 (first a b) = false).
  { intros a b Hlt. apply Qeq_bool_nonzero. intros E. rewrite E in Hlt.
    now apply Qlt_irrefl in Hlt. }
  split.
  - intros [a1 b1] [a2 b2]. cbn [fst snd].
    destruct (Qeq_bool 0 (first a1 a2)) eqn:E.
    + apply Hzero in E. subst a2. rewrite (compare_eq (compare := second)).
      split; [intros -> | intros [= ->]]; reflexivity.
    + split.
      * intros E'. apply Qeq_bool_nonzero in E. contradiction.
      * intros [= -> ->]. now apply Hnonzero in E.
  - intros [a1 b1] [a2 b2]. cbn [fst snd].
    destruct (Qeq_bool 0 (first a1 a2)) eqn:E12.
    + apply Hzero in E12. subst a2. rewrite (proj2 (Hzero a1 a1) eq_refl).
      apply (compare_swap (compare := second)).
    + destruct (Qeq_bool 0 (first a2 a1)) eqn:E21.
      * apply Hzero in E21. subst a2. now apply Hnonzero in E12.
      * apply (compare_swap (compare := first)).
  - intros [a1 b1] [a2 b2] [a3 b3]. cbn [fst snd].
    destruct (Qeq_bool 0 (first a1 a2)) eqn:E12;
      destruct (Qeq_bool 0 (first a2 a3)) eqn:E23; intros H12 H23.
    + apply Hzero in E12, E23. subst a2 a3. rewrite (proj2 (Hzero a1 a1) eq_refl).
      eapply (compare_trans (compare := second)); eassumption.
    + apply Hzero in E12. subst a2. rewrite E23. exact H23.
    + apply Hzero in E23. subst a3. rewrite E12. exact H12.
    + pose proof (compare_trans (compare := first) a1 a2 a3 H12 H23) as H13.
      rewrite (Hneg a1 a3 H13). exact H13.
Qed.

(** A comparison read through a one-to-one function. *)
Lemma OrderComparator_image {A B : Type} (f : A -> B) (compare : B -> B -> Q)
    `{!OrderComparator compare} :
  (forall a b, f a = f b -> a = b) ->
  OrderComparator (fun a b => compare (f a) (f b)).
Proof.
  intros Hinj. split.
  - intros a b. rewrite (compare_eq (compare := compare)).
    split; [apply Hinj | now intros ->].
  - intros a b. apply (compare_swap (compare := compare)).
  - intros a b c. apply (compare_trans (compare := compare)).
Qed.

Lemma OrderComparator_ofComparison {A : Type} (compare : A -> A -> comparison) :
  (forall a b, compare a b = Eq <-> a = b) ->
  (forall a b, compare b a = CompOpp (compare a b)) ->
  (forall a b c, compare a b = Lt -> compare b c = Lt -> compare a c = Lt) ->
  OrderComparator (fun a b => ofComparison (compare a b)).
Proof.
  intros Heq Hopp Htrans.
  assert (Hlt : forall a b, (ofComparison (compare a b) < 0)%Q <-> compare a b = Lt).
  { intros a b. destruct (compare a b); cbn [ofComparison];
      split; first [reflexivity | discriminate | intros H; now inversion H]. }
  split.
  - intros a b. rewrite <- Heq. destruct (compare a b); cbn [ofComparison];
      split; first [reflexivity | discriminate | intros H; now inversion H].
  - intros a b. rewrite (Hopp a b). destruct (compare a b); cbn [ofComparison CompOpp];
      split; first [reflexivity | intros H; now inversion H].
  - intros a b c. rewrite !Hlt. apply Htrans.
Qed.

Lemma codeUnitCompare_order : OrderComparator codeUnitCompare.
Proof.
  apply OrderComparator_ofComparison.
  - apply OrderedTypeEx.String_as_OT.cmp_eq.
  - intros a b. apply OrderedTypeEx.String_as_OT.cmp_antisym.
  - intros a b c Hab Hbc. apply OrderedTypeEx.String_as_OT.cmp_lt.
    apply OrderedTypeEx.String_as_OT.cmp_lt in Hab, Hbc.
    eapply OrderedTypeEx.String_as_OT.lt_trans; eassumption.
Qed.

(** The difference of two integers orders them, though it is -1, 0 or 1
    for neighbours only. *)
Lemma differenceCompare_order : OrderComparator differenceCompare.
Proof.
  unfold differenceCompare. split.
  - intros a b. change 0%Q with (inject_Z 0). rewrite inject_Z_injective. lia.
  - intros a b. change 0%Q with (inject_Z 0). rewrite <- !Zlt_Qlt. lia.
  - intros a b c. change 0%Q with (inject_Z 0). rewrite <- !Zlt_Qlt. lia.
Qed.

Lemma booleanCompare_order : OrderComparator booleanCompare.
Proof.
  apply OrderComparator_ofComparison.
  - intros [] []; cbn; split; congruence.
  - intros [] []; reflexivity.
  - intros [] [] []; cbn; congruence.
Qed.
End ComparatorFacts.

(** C9: with comparators whose sign orders strings, numbers and booleans,
    [compareTileTreeIds] is the first comparison that is not 0 among those
    of the provider names, the map types, the ground biases and the drape
    flags, in this order, and its sign orders the identities: it is 0
    exactly for equal fields, has opposite signs for swapped arguments, and
    is transitive.  Its size is that of the comparison that decides. *)
Theorem compareTileTreeIds_total_order (JSNumber : Type)
    (compareStrings : string -> string -> Q)
    (compareNumbers : JSNumber -> JSNumber -> Q)
    (compareBooleans : bool -> bool -> Q) :
  OrderComparator compareStrings ->
  OrderComparator compareNumbers ->
  OrderComparator compareBooleans ->
  (forall lhs rhs : BackgroundMapTreeId JSNumber,
     compareTileTreeIds compareStrings compareNumbers compareBooleans lhs rhs
     = lexicographic [compareStrings (providerName lhs) (providerName rhs);
                      compareNumbers (mapType lhs) (mapType rhs);
                      compareNumbers (groundBias lhs) (groundBias rhs);
                      compareBooleans (forDrape lhs) (forDrape rhs)])
  /\ OrderComparator (compareTileTreeIds compareStrings compareNumbers compareBooleans)
  /\ (forall lhs rhs : BackgroundMapTreeId JSNumber,
        (compareTileTreeIds compareStrings compareNumbers compareBooleans lhs rhs == 0)%Q
        <-> providerName lhs = providerName rhs /\ mapType lhs = mapType rhs
            /\ groundBias lhs = groundBias rhs /\ forDrape lhs = forDrape rhs).
Proof.
  intros HS HN HB.
  assert (Hlex : forall lhs rhs : BackgroundMapTreeId JSNumber,
     compareTileTreeIds compareStrings compareNumbers compareBooleans lhs rhs
     = lexicographic [compareStrings (providerName lhs) (providerName rhs);
                      compareNumbers (mapType lhs) (mapType rhs);
                      compareNumbers (groundBias lhs) (groundBias rhs);
                      compareBooleans (forDrape lhs) (forDrape rhs)]).
  { intros lhs rhs. reflexivity. }
  assert (Htotal : OrderComparator
                     (compareTileTreeIds compareStrings compareNumbers compareBooleans)).
  { pose proof (OrderComparator_pair compareNumbers compareBooleans) as H3.
    pose proof (OrderComparator_pair compareNumbers _ (OrderComparator1 := H3)) as H2.
    pose proof (OrderComparator_pair compareStrings _ (OrderComparator1 := H2)) as H1.
    pose proof (OrderComparator_image
                  (fun id : BackgroundMapTreeId JSNumber =>
                     (providerName id, (mapType id, (groundBias id, forDrape id))))
                  _ (OrderComparator0 := H1)) as H0.
    apply H0. intros [n1 m1 g1 d1] [n2 m2 g2 d2]. cbn. congruence. }
  split_and!; [exact Hlex | exact Htotal |].
  intros lhs rhs. rewrite (compare_eq (compare := compareTileTreeIds _ _ _)).
  destruct lhs, rhs; cbn. split; [intros [= -> -> -> ->]; auto | intros (-> & -> & -> & ->); reflexivity].
Qed.

Lemma compareTileTreeIds_total_order_witness :
  OrderComparator (compareTileTreeIds codeUnitCompare differenceCompare booleanCompare)
  /\ compareTileTreeIds codeUnitCompare differenceCompare booleanCompare
       (mkBackgroundMapTreeId "BingProvider" 2 0 false)
       (mkBackgroundMapTreeId "BingProvider" 2 0 true) = (-1)%Q.
Proof.
  split; [| reflexivity].
  apply (compareTileTreeIds_total_order Z codeUnitCompare differenceCompare booleanCompare
           codeUnitCompare_order differenceCompare_order booleanCompare_order).
Defined.

(** The answer is not always -1, 0 or 1: for two identities that differ in
    the map type only, 3 against 1, it is their difference, 2. *)
Lemma compareTileTreeIds_total_order_counterexample :
  compareTileTreeIds codeUnitCompare differenceCompare booleanCompare
    (mkBackgroundMapTreeId "BingProvider" 3 0 false)
    (mkBackgroundMapTreeId "BingProvider" 1 0 false) = 2%Q
  /\ ~ (2 == -1)%Q /\ ~ (2 == 0)%Q /\ ~ (2 == 1)%Q.
Proof. split_and!; [reflexivity | discriminate | discriminate | discriminate]. Qed.


(** * Further properties *)

(** ** Rewriting http to https *)

Section HttpsFacts.

Lemma startsWith_append (prefix rest : string) : startsWith (prefix +:+ rest) prefix = true.
Proof.
  unfold startsWith. induction prefix as [|c prefix IH]; [destruct rest; reflexivity |].
  rewrite JSFacts.append_cons. cbn [JS.stripPrefix]. rewrite Ascii.eqb_refl. exact IH.
Qed.

Lemma stripPrefix_append (prefix s rest : string) :
  JS.stripPrefix prefix s = Some rest -> s = prefix +:+ rest.
Proof.
  revert s; induction prefix as [|c prefix IH]; intros s Hs.
  - destruct s; cbn in Hs; injection Hs as <-; reflexivity.
  - destruct s as [|d s]; cbn [JS.stripPrefix] in Hs; [discriminate |].
    destruct (Ascii.eqb_spec c d) as [-> | _]; [| discriminate].
    rewrite JSFacts.append_cons. f_equal. apply IH. exact Hs.
Qed.

Lemma sliceFrom_append (prefix rest : string) :
  sliceFrom (String.length prefix) (prefix +:+ rest) = rest.
Proof.
  induction prefix as [|c prefix IH]; [destruct rest; reflexivity |].
  rewrite JSFacts.append_cons. cbn [String.length sliceFrom]. exact IH.
Qed.

(** X1: [replaceHttpWithHttps] turns "http:" followed by anything into "https:"
    followed by the same and changes no other string; what it returns never
    starts with "http:", so applying it twice is applying it once. *)
Theorem replaceHttpWithHttps_spec (originalUrl : string) :
  replaceHttpWithHttps ("http:" +:+ originalUrl) = "https:" +:+ originalUrl
  /\ (startsWith originalUrl "http:" = false -> replaceHttpWithHttps originalUrl = originalUrl)
  /\ startsWith (replaceHttpWithHttps originalUrl) "http:" = false
  /\ replaceHttpWithHttps (replaceHttpWithHttps originalUrl) = replaceHttpWithHttps originalUrl.
Proof.
  assert (Hhttp : forall rest, replaceHttpWithHttps ("http:" +:+ rest) = "https:" +:+ rest).
  { intros rest. unfold replaceHttpWithHttps. rewrite startsWith_append.
    pose proof (sliceFrom_append "http:" rest) as Hslice.
    cbn [String.length] in Hslice. now rewrite Hslice. }
  assert (Hnever : startsWith (replaceHttpWithHttps originalUrl) "http:" = false).
  { unfold replaceHttpWithHttps. destruct (startsWith originalUrl "http:") eqn:E; [| exact E].
    reflexivity. }
  split_and!; [apply Hhttp | | exact Hnever |].
  - intros E. unfold replaceHttpWithHttps. now rewrite E.
  - unfold replaceHttpWithHttps at 1. now rewrite Hnever.
Qed.

Lemma replaceHttpWithHttps_spec_witness :
  replaceHttpWithHttps "https://dev.virtualearth.net/x" = "https://dev.virtualearth.net/x".
Proof.
  destruct (replaceHttpWithHttps_spec "https://dev.virtualearth.net/x")
    as (_ & Hunchanged & _).
  apply Hunchanged. reflexivity.
Defined.

End HttpsFacts.

(** ** URLs of MapBox and the tiles requested *)

Section UrlFacts.
Import JS JSFacts.

Lemma allDigits_avoids (sep : ascii) (s : string) :
  isDigit sep = false -> allDigits s = true -> avoids sep s = true.
Proof.
  intros Hsep. induction s as [|c s IH]; [reflexivity |]. cbn [allDigits avoids].
  intros [Hc Hs]%andb_prop. rewrite IH by exact Hs.
  destruct (Ascii.eqb_spec c sep) as [-> | _]; [congruence | reflexivity].
Qed.

Lemma toString_avoids (sep : ascii) (z : Z) :
  isDigit sep = false -> Ascii.eqb "-" sep = false ->
  plainInteger z -> avoids sep (toString (Num z)) = true.
Proof.
  intros Hsep Hminus [Hd Hz]. unfold toString.
  destruct (Z.eqb_spec z 0) as [-> | Hne].
  { apply (allDigits_avoids sep "0" Hsep). reflexivity. }
  destruct (Z.ltb_spec z 0) as [Hneg | Hpos].
  - assert (Hd' : isDouble (- z)) by (unfold isDouble in *; rewrite roundToDouble_opp; lia).
    destruct (positiveToString_decimal (- z) Hd' ltac:(lia)) as (v & Hv & Hr & ->).
    rewrite avoids_append. apply andb_true_intro. split.
    + cbn [avoids]. now rewrite Hminus.
    + apply allDigits_avoids; [exact Hsep |]. apply decimal_spec. lia.
  - destruct (positiveToString_decimal z Hd ltac:(lia)) as (v & Hv & Hr & ->).
    apply allDigits_avoids; [exact Hsep |]. apply decimal_spec. lia.
Qed.

Lemma toString_injective (a b : Z) :
  plainInteger a -> plainInteger b -> toString (Num a) = toString (Num b) -> a = b.
Proof.
  intros [Ha Ba] [Hb Bb] Heq. apply (f_equal parseInt) in Heq.
  rewrite !parseInt_toString in Heq by assumption. congruence.
Qed.

Lemma append_inv_head (a b c : string) : a +:+ b = a +:+ c -> b = c.
Proof.
  induction a as [|x a IH]; [intros H; exact H |].
  rewrite !append_cons. intros [= H]. apply IH. exact H.
Qed.

Lemma Returned_inj {A : Type} (a b : A) : Returned a = Returned b -> a = b.
Proof. congruence. Qed.

(** The URL of MapBox with its parts in a row. *)
Lemma MapBox_constructUrl_parts (assertionsEnabled : bool) (this : MapBoxImageryProvider)
    (row column zoomLevel : number) :
  MapBox_constructUrl assertionsEnabled this row column zoomLevel
  = Returned (_baseUrl this +:+ toString zoomLevel +:+ String "/" (toString column
                +:+ String "/" (toString row +:+ mapBoxSuffix))).
Proof.
  unfold MapBox_constructUrl. f_equal.
  rewrite !append_assoc, !append_cons, !append_nil_l. reflexivity.
Qed.

(** X2: At MapBox, tiles with different addresses have different URLs: the zoom
    level, the column and the row can be read off the URL of a tile. *)
Theorem MapBox_constructUrl_injective (assertionsEnabled : bool)
    (this : MapBoxImageryProvider) (row column zoomLevel row' column' zoomLevel' : Z) :
  plainInteger row -> plainInteger column -> plainInteger zoomLevel ->
  plainInteger row' -> plainInteger column' -> plainInteger zoomLevel' ->
  MapBox_constructUrl assertionsEnabled this (Num row) (Num column) (Num zoomLevel)
  = MapBox_constructUrl assertionsEnabled this (Num row') (Num column') (Num zoomLevel') ->
  row = row' /\ column = column' /\ zoomLevel = zoomLevel'.
Proof.
  intros Hr Hc Hz Hr' Hc' Hz'. rewrite !MapBox_constructUrl_parts. intros Heq.
  apply Returned_inj, append_inv_head in Heq.
  assert (Hslash : forall z, plainInteger z -> avoids "/" (toString (Num z)) = true)
    by (intros z; apply toString_avoids; reflexivity).
  assert (Hdot : forall z, plainInteger z -> avoids "." (toString (Num z)) = true)
    by (intros z; apply toString_avoids; reflexivity).
  apply (f_equal (split "/")) in Heq.
  rewrite !split_append in Heq by auto.
  rewrite !(split_avoids "/" (_ +:+ mapBoxSuffix)) in Heq
    by (rewrite avoids_append, Hslash by assumption; reflexivity).
  apply (f_equal (fun parts => (parts !! 0%nat, parts !! 1%nat, split "." <$> parts !! 2%nat)))
    in Heq.
  cbn [lookup list_lookup fmap option_fmap option_map] in Heq.
  unfold mapBoxSuffix in Heq.
  rewrite !split_append in Heq by auto.
  assert (toString (Num zoomLevel) = toString (Num zoomLevel')
          /\ toString (Num column) = toString (Num column')
          /\ toString (Num row) = toString (Num row')) as (Hzoom & Hcolumn & Hrow)
    by (split_and!; congruence).
  split_and!; apply toString_injective; assumption.
Qed.

Lemma MapBox_constructUrl_injective_witness :
  MapBox_constructUrl true (mkMapBoxImageryProvider "https://api.mapbox.com/v4/mapbox.streets/")
    (Num 5) (Num 3) (Num 4)
  <> MapBox_constructUrl true (mkMapBoxImageryProvider "https://api.mapbox.com/v4/mapbox.streets/")
       (Num 3) (Num 5) (Num 4).
Proof.
  intros Heq.
  apply (MapBox_constructUrl_injective true _ 5 3 4 3 5 4) in Heq;
    [destruct Heq as [Heq _]; discriminate | split; vm_compute; reflexivity ..].
Defined.

Section Requests.
Context {P : Type} `{ImageryProvider P}.
Variable request : string -> Outcome Response.

(** X3: The tile a loader requests for a tile of the tree is the one its content
    id names: for the content id of a quad whose level, column and row are
    plain integers, [requestTileContent] is [loadTile] at the quad's row,
    column and level, in either build. *)
Theorem requestTileContent_contentId (assertionsEnabled : bool) (this : P) (tile : Tile)
    (l c r : Z) :
  plainInteger l -> plainInteger c -> plainInteger r ->
  tileContentId tile = contentId (mkQuadId (Num l) (Num c) (Num r)) ->
  requestTileContent request assertionsEnabled this tile
  = loadTile request assertionsEnabled this (Num r) (Num c) (Num l).
Proof.
  intros [Hl Bl] [Hc Bc] [Hr Br] Hid. unfold requestTileContent, createFromContentId.
  rewrite Hid, split_contentId by assumption. cbn [length Nat.eqb negb nth].
  rewrite !parseInt_toString by assumption. reflexivity.
Qed.

(** X4: For a content id that does not split into three parts the loader, with
    assertions disabled, still asks the provider for a tile: the tile of
    row -1, column -1 and level -1.  With assertions enabled the request
    throws. *)
Theorem requestTileContent_malformed (this : P) (tile : Tile) :
  length (split "_" (tileContentId tile)) <> 3%nat ->
  requestTileContent request false this tile
    = loadTile request false this (Num (-1)) (Num (-1)) (Num (-1))
  /\ requestTileContent request true this tile = Thrown.
Proof.
  intros Hlen. unfold requestTileContent, createFromContentId.
  destruct (Nat.eqb_spec 3 (length (split "_" (tileContentId tile)))) as [E | _];
    [congruence |].
  split; reflexivity.
Qed.
End Requests.

Lemma requestTileContent_contentId_witness :
  requestTileContent sampleRequest true sampleBing (mkTile "3_3_5" 3)
  = loadTile sampleRequest true sampleBing (Num 5) (Num 3) (Num 3).
Proof.
  apply (requestTileContent_contentId sampleRequest true sampleBing (mkTile "3_3_5" 3) 3 3 5);
    first [split; vm_compute; reflexivity | reflexivity].
Defined.

Lemma requestTileContent_malformed_witness :
  requestTileContent sampleRequest false
    (mkMapBoxImageryProvider "https://api.mapbox.com/v4/mapbox.streets/") (mkTile "bad" 0)
  = loadTile sampleRequest false
      (mkMapBoxImageryProvider "https://api.mapbox.com/v4/mapbox.streets/")
      (Num (-1)) (Num (-1)) (Num (-1)).
Proof.
  apply (requestTileContent_malformed sampleRequest
           (mkMapBoxImageryProvider "https://api.mapbox.com/v4/mapbox.streets/")
           (mkTile "bad" 0)).
  vm_compute. lia.
Defined.

(** What that request is at MapBox: the URL of the tile -1/-1/-1. *)
Example MapBox_constructUrl_invalid (this : MapBoxImageryProvider) :
  MapBox_constructUrl false this (Num (-1)) (Num (-1)) (Num (-1))
  = Returned (_baseUrl this +:+ "-1/-1/-1" +:+ mapBoxSuffix).
Proof. rewrite MapBox_constructUrl_parts. reflexivity. Qed.

(** X5: A Bing provider that has no URL template or no subdomains (its
    [initialize] has not completed) cannot build a URL, and since the URL is
    built before the [try], [loadTile] throws instead of returning nothing. *)
Theorem loadTile_Bing_uninitialized (request : string -> Outcome Response)
    (assertionsEnabled : bool) (this : BingImageryProvider) (row column zoomLevel : number) :
  _urlTemplate this = None \/ _urlSubdomains this = None ->
  constructUrl assertionsEnabled this row column zoomLevel = Thrown
  /\ loadTile request assertionsEnabled this row column zoomLevel = Thrown.
Proof.
  intros Hmissing.
  assert (Hurl : constructUrl assertionsEnabled this row column zoomLevel = Thrown).
  { cbn [constructUrl BingImageryProvider_provider]. unfold Bing_constructUrl.
    destruct (tileXYToQuadKey _ _ _ _); [cbn [bindO] | reflexivity].
    destruct Hmissing as [-> | ->]; [destruct (_urlSubdomains this) |]; reflexivity. }
  split; [exact Hurl |]. unfold loadTile. now rewrite Hurl.
Qed.

Lemma loadTile_Bing_uninitialized_witness :
  loadTile sampleRequest true
    (mkBingImageryProvider None None None None sampleScheme) (Num 5) (Num 3) (Num 3)
  = Thrown.
Proof.
  apply (loadTile_Bing_uninitialized sampleRequest true
           (mkBingImageryProvider None None None None sampleScheme)).
  left. reflexivity.
Defined.

End UrlFacts.

(** ** Quadkeys along the tree *)

Section QuadKeyTreeFacts.
Import JS JSFacts.

Lemma string_get_ext (a b : string) :
  String.length a = String.length b ->
  (forall n, (n < String.length a)%nat -> String.get n a = String.get n b) ->
  a = b.
Proof.
  revert b; induction a as [|c a IH]; intros [|d b] Hlen Hget; try discriminate; [reflexivity |].
  cbn [String.length] in Hlen, Hget.
  pose proof (Hget 0%nat ltac:(lia)) as Hhead. cbn in Hhead. injection Hhead as ->.
  f_equal. apply IH; [lia |]. intros n Hn. apply (Hget (S n)). lia.
Qed.

Lemma tileXYToQuadKey_loop (assertionsEnabled : bool) (tileX tileY : number) (z : Z) :
  1 <= z ->
  tileXYToQuadKey assertionsEnabled tileX tileY (Num z)
  = Returned (quadKeyLoop tileX tileY (Z.to_nat z) "").
Proof.
  intros Hz. unfold tileXYToQuadKey, assert. cbn [strictNe].
  destruct (Z.eqb_spec 0 z) as [E | _]; [lia |].
  cbn [negb]. rewrite andb_false_r. reflexivity.
Qed.

(** The characters of a quadkey of zoom level [z <= 32], by bit position. *)
Lemma quadKeyLoop_digits (column row z : Z) :
  1 <= z <= 32 ->
  String.length (quadKeyLoop (Num column) (Num row) (Z.to_nat z) "") = Z.to_nat z
  /\ forall i, 0 <= i < z ->
       String.get (Z.to_nat (z - 1 - i)) (quadKeyLoop (Num column) (Num row) (Z.to_nat z) "")
       = Some (quadKeyDigitAt column row i).
Proof.
  intros Hz.
  destruct (quadKeyLoop_spec (Num column) (Num row) (Z.to_nat z) "") as (Hlen & _ & Hdig).
  cbn [String.length Nat.add] in Hlen, Hdig. split; [exact Hlen |].
  intros i Hi. specialize (Hdig (Z.to_nat (i + 1)) ltac:(lia)).
  replace (Z.to_nat z - Z.to_nat (i + 1))%nat with (Z.to_nat (z - 1 - i)) in Hdig by lia.
  rewrite Hdig, Z2Nat.id by lia. rewrite quadKeyDigit_formula by lia.
  do 2 f_equal. lia.
Qed.

Lemma quadKeyDigitAt_child (column row : Z) (east south : bool) (i : Z) :
  0 <= i ->
  quadKeyDigitAt (2 * column + Z.b2z east) (2 * row + Z.b2z south) (Z.succ i)
  = quadKeyDigitAt column row i.
Proof.
  intros Hi. unfold quadKeyDigitAt. now rewrite !Z.testbit_succ_r by exact Hi.
Qed.

(** X6: The quadkey of a child tile is the quadkey of its parent followed by one
    digit, which tells the quadrant: 1 for the eastern half plus 2 for the
    southern half. *)
Theorem tileXYToQuadKey_child (assertionsEnabled : bool) (column row z : Z)
    (east south : bool) :
  1 <= z < 32 ->
  exists parentKey,
    tileXYToQuadKey assertionsEnabled (Num column) (Num row) (Num z) = Returned parentKey
    /\ tileXYToQuadKey assertionsEnabled
         (Num (2 * column + Z.b2z east)) (Num (2 * row + Z.b2z south)) (Num (z + 1))
       = Returned (parentKey
                   +:+ String (fromCharCode (48 + 2 * Z.b2z south + Z.b2z east)) "").
Proof.
  intros Hz. eexists. split; [apply tileXYToQuadKey_loop; lia |].
  rewrite tileXYToQuadKey_loop by lia. f_equal.
  destruct (quadKeyLoop_digits column row z ltac:(lia)) as (Hlen & Hdig).
  destruct (quadKeyLoop_digits (2 * column + Z.b2z east) (2 * row + Z.b2z south) (z + 1)
              ltac:(lia)) as (Hlen' & Hdig').
  apply string_get_ext.
  - rewrite Hlen', length_append, Hlen. cbn [String.length]. lia.
  - rewrite Hlen'. intros n Hn.
    specialize (Hdig' (z - Z.of_nat n) ltac:(lia)).
    replace (Z.to_nat (z + 1 - 1 - (z - Z.of_nat n))) with n in Hdig' by lia.
    rewrite Hdig'. destruct (Nat.eq_dec n (Z.to_nat z)) as [-> | Hne].
    + rewrite <- Hlen at 2. rewrite <- (Nat.add_0_r (String.length _)), get_append_r.
      cbn [String.get]. rewrite Z2Nat.id, Z.sub_diag by lia.
      unfold quadKeyDigitAt. rewrite !Z.testbit_0_r. reflexivity.
    + rewrite get_append_l by lia.
      specialize (Hdig (z - 1 - Z.of_nat n) ltac:(lia)).
      replace (Z.to_nat (z - 1 - (z - 1 - Z.of_nat n))) with n in Hdig by lia.
      rewrite Hdig. f_equal.
      replace (z - Z.of_nat n) with (Z.succ (z - 1 - Z.of_nat n)) by lia.
      apply quadKeyDigitAt_child. lia.
Qed.

Lemma tileXYToQuadKey_child_witness :
  exists parentKey,
    tileXYToQuadKey true (Num 3) (Num 5) (Num 3) = Returned parentKey
    /\ tileXYToQuadKey true (Num (2 * 3 + Z.b2z true)) (Num (2 * 5 + Z.b2z false)) (Num (3 + 1))
       = Returned (parentKey
                   +:+ String (fromCharCode (48 + 2 * Z.b2z false + Z.b2z true)) "").
Proof.
  apply (tileXYToQuadKey_child true 3 5 3 true false). lia.
Defined.

Lemma quadKeyDigitAt_inj (column row column' row' i : Z) :
  quadKeyDigitAt column row i = quadKeyDigitAt column' row' i ->
  Z.testbit column i = Z.testbit column' i /\ Z.testbit row i = Z.testbit row' i.
Proof.
  unfold quadKeyDigitAt.
  destruct (Z.testbit column i), (Z.testbit row i), (Z.testbit column' i), (Z.testbit row' i);
    cbn; intros Heq; try discriminate; split; reflexivity.
Qed.

Lemma low_bits_inj (a b z : Z) :
  0 <= z -> 0 <= a < 2 ^ z -> 0 <= b < 2 ^ z ->
  (forall i, 0 <= i < z -> Z.testbit a i = Z.testbit b i) -> a = b.
Proof.
  intros Hz Ha Hb Hbits.
  rewrite <- (Z.mod_small a (2 ^ z)), <- (Z.mod_small b (2 ^ z)) by assumption.
  apply Z.bits_inj'. intros n Hn. destruct (Z_lt_le_dec n z) as [Hlt | Hge].
  - rewrite !Z.mod_pow2_bits_low by lia. apply Hbits. lia.
  - rewrite !Z.mod_pow2_bits_high by lia. reflexivity.
Qed.

(** X7: A quadkey names one tile: at zoom levels up to 32, tiles whose columns
    and rows lie in the grid of their level have the same quadkey only when
    they have the same level, column and row. *)
Theorem tileXYToQuadKey_injective (assertionsEnabled : bool)
    (column row z column' row' z' : Z) :
  1 <= z <= 32 -> 1 <= z' <= 32 ->
  0 <= column < 2 ^ z -> 0 <= row < 2 ^ z ->
  0 <= column' < 2 ^ z' -> 0 <= row' < 2 ^ z' ->
  tileXYToQuadKey assertionsEnabled (Num column) (Num row) (Num z)
  = tileXYToQuadKey assertionsEnabled (Num column') (Num row') (Num z') ->
  z = z' /\ column = column' /\ row = row'.
Proof.
  intros Hz Hz' Hc Hr Hc' Hr'. rewrite !tileXYToQuadKey_loop by lia. intros Heq.
  apply Returned_inj in Heq.
  destruct (quadKeyLoop_digits column row z Hz) as (Hlen & Hdig).
  destruct (quadKeyLoop_digits column' row' z' Hz') as (Hlen' & Hdig').
  assert (z = z') as <- by (apply (f_equal String.length) in Heq; lia).
  assert (Hbits : forall i, 0 <= i < z ->
            Z.testbit column i = Z.testbit column' i /\ Z.testbit row i = Z.testbit row' i).
  { intros i Hi. apply quadKeyDigitAt_inj.
    specialize (Hdig i Hi). specialize (Hdig' i Hi). rewrite Heq in Hdig. congruence. }
  split_and!; [reflexivity | |]; apply (low_bits_inj _ _ z); try assumption; try lia;
    intros i Hi; apply Hbits; exact Hi.
Qed.

Lemma tileXYToQuadKey_injective_witness :
  tileXYToQuadKey true (Num 3) (Num 5) (Num 3) <> tileXYToQuadKey true (Num 5) (Num 3) (Num 3).
Proof.
  intros Heq.
  apply (tileXYToQuadKey_injective true 3 5 3 5 3 3) in Heq; [| lia ..].
  destruct Heq as (_ & Heq & _). discriminate.
Defined.

End QuadKeyTreeFacts.

(** ** More on attributions *)

Section AttributionFacts.

Lemma attributionLoop_extends (assertionsEnabled : bool) (tilingScheme : MapTilingScheme)
    (tile : Tile) (count : nat) :
  forall iAttr matching unmatched matching' unmatched',
    attributionLoop assertionsEnabled tilingScheme tile count iAttr matching unmatched
      = Returned (matching', unmatched') ->
    exists added, matching' = matching ++ added.
Proof.
  induction count as [|count IH]; intros iAttr matching unmatched matching' unmatched';
    cbn [attributionLoop].
  - intros [= <- <-]. exists []. now rewrite app_nil_r.
  - destruct (unmatched !! iAttr) as [[attribution |] |]; try apply IH.
    destruct (matchesTile _ _ _ _) as [[|] |]; cbn [bindO]; [| apply IH | discriminate].
    intros Hrun. apply IH in Hrun as [added ->].
    exists (attribution :: added). now rewrite <- app_assoc.
Qed.

Lemma tileLoop_extends (assertionsEnabled : bool) (tilingScheme : MapTilingScheme)
    (tiles : list Tile) :
  forall matching unmatched matching' unmatched',
    tileLoop assertionsEnabled tilingScheme tiles matching unmatched
      = Returned (matching', unmatched') ->
    exists added, matching' = matching ++ added.
Proof.
  induction tiles as [|tile tiles IH]; intros matching unmatched matching' unmatched';
    cbn [tileLoop].
  - intros [= <- <-]. exists []. now rewrite app_nil_r.
  - destruct (attributionLoop _ _ _ _ _ _ _) as [[m1 u1] |] eqn:Hfirst; cbn [bindO];
      [| discriminate].
    apply attributionLoop_extends in Hfirst as [added1 ->].
    intros Hrest. apply IH in Hrest as [added2 ->].
    exists (added1 ++ added2). now rewrite app_assoc.
Qed.

Lemma tileLoop_app (assertionsEnabled : bool) (tilingScheme : MapTilingScheme)
    (tiles more : list Tile) :
  forall matching unmatched,
    tileLoop assertionsEnabled tilingScheme (tiles ++ more) matching unmatched
    = bindO (tileLoop assertionsEnabled tilingScheme tiles matching unmatched)
        (fun state => tileLoop assertionsEnabled tilingScheme more state.1 state.2).
Proof.
  induction tiles as [|tile tiles IH]; intros matching unmatched; [reflexivity |].
  cbn [app tileLoop].
  destruct (attributionLoop _ _ _ _ _ _ _) as [[m1 u1] |]; cbn [bindO]; [apply IH | reflexivity].
Qed.

(** What [getMatchingAttributions] returns, by positions in the provider's
    list: the attributions at the positions of those that match a tile. *)
Lemma getMatchingAttributions_positions (assertionsEnabled : bool)
    (this : BingImageryProvider) (tiles : list Tile) :
  Forall (fun tile => exists quadId,
            createFromContentId assertionsEnabled (tileContentId tile) = Returned quadId)
         tiles ->
  exists indices,
    getMatchingAttributions assertionsEnabled this tiles
      = Returned ((fun i => default (mkBingAttribution "" [])
                              (default [] (_attributions this) !! i)) <$> indices)
    /\ NoDup indices
    /\ (forall i, i ∈ indices <->
          exists attribution tile,
            default [] (_attributions this) !! i = Some attribution /\ tile ∈ tiles
            /\ matchesTile assertionsEnabled attribution tile (_mapTilingScheme this)
               = Returned true).
Proof.
  intros Hret. unfold getMatchingAttributions.
  destruct (_attributions this) as [attributions |]; cbn [default]; unfold id.
  - destruct (tileLoop_spec assertionsEnabled (_mapTilingScheme this) attributions tiles
                tiles [] [] (Some <$> attributions))
      as (indices & matching & unmatched & Hrun & HInv & _ & Hall);
      [auto | exact Hret | |].
    { unfold attributionsInvariant. split_and!.
      - constructor.
      - constructor.
      - apply length_fmap.
      - intros i Hi. apply elem_of_nil in Hi. contradiction.
      - intros i a _ Ha. rewrite list_lookup_fmap, Ha. reflexivity.
      - constructor. }
    rewrite Hrun. cbn [bindO].
    destruct HInv as (Hnodup & Hvals & _ & _ & _ & Hmatch).
    exists indices. split_and!; [| exact Hnodup |].
    + f_equal. clear -Hvals.
      induction Hvals as [|j a js matched Hj _ IH]; [reflexivity |].
      rewrite fmap_cons, Hj. cbn [default]. f_equal. exact IH.
    + intros i. split.
      * intros Hin. apply list_elem_of_lookup in Hin as [k Hk].
        destruct (Forall2_lookup_l _ _ _ _ _ Hvals Hk) as (a & Ha & Hia).
        rewrite Forall_forall in Hmatch.
        destruct (Hmatch a) as (tile & Htile & Hm); [eapply list_elem_of_lookup_2; exact Ha |].
        exists a, tile. auto.
      * intros (a & tile & Ha & Htile & Hm). eapply Hall; eassumption.
  - exists []. split_and!; [reflexivity | constructor |].
    intros i. split; [intros Hi; apply elem_of_nil in Hi; contradiction |].
    intros (a & tile & Ha & _). rewrite lookup_nil in Ha. discriminate.
Qed.

(** X8: The attributions found do not depend on the order of the tiles, except
    for their own order: for the same tiles in another order
    [getMatchingAttributions] returns the same attributions rearranged. *)
Theorem getMatchingAttributions_Permutation (assertionsEnabled : bool)
    (this : BingImageryProvider) (tiles tiles' : list Tile) :
  tiles ≡ₚ tiles' ->
  Forall (fun tile => exists quadId,
            createFromContentId assertionsEnabled (tileContentId tile) = Returned quadId)
         tiles ->
  exists result result',
    getMatchingAttributions assertionsEnabled this tiles = Returned result
    /\ getMatchingAttributions assertionsEnabled this tiles' = Returned result'
    /\ result ≡ₚ result'.
Proof.
  intros Hperm Hret.
  assert (Hret' : Forall (fun tile => exists quadId,
            createFromContentId assertionsEnabled (tileContentId tile) = Returned quadId)
          tiles') by (rewrite <- Hperm; exact Hret).
  destruct (getMatchingAttributions_positions assertionsEnabled this tiles Hret)
    as (indices & Hrun & Hnodup & Hin).
  destruct (getMatchingAttributions_positions assertionsEnabled this tiles' Hret')
    as (indices' & Hrun' & Hnodup' & Hin').
  eexists _, _. split_and!; [exact Hrun | exact Hrun' |].
  apply fmap_Permutation, NoDup_Permutation; [assumption | assumption |].
  intros i. rewrite Hin, Hin'.
  split; intros (a & tile & Ha & Htile & Hm); exists a, tile; split_and!; try assumption.
  - rewrite <- Hperm. exact Htile.
  - rewrite Hperm. exact Htile.
Qed.

Lemma getMatchingAttributions_Permutation_witness :
  exists result result',
    getMatchingAttributions true sampleBing sampleTiles = Returned result
    /\ getMatchingAttributions true sampleBing (reverse sampleTiles) = Returned result'
    /\ result ≡ₚ result'.
Proof.
  apply (getMatchingAttributions_Permutation true sampleBing sampleTiles (reverse sampleTiles)).
  - symmetry. apply reverse_Permutation.
  - unfold sampleTiles.
    repeat (constructor; [eexists; vm_compute; reflexivity |]). constructor.
Defined.

(** X9: [getMatchingAttributions] never returns more attributions than the
    provider has. *)
Theorem getMatchingAttributions_bounded (assertionsEnabled : bool)
    (this : BingImageryProvider) (tiles : list Tile) :
  Forall (fun tile => exists quadId,
            createFromContentId assertionsEnabled (tileContentId tile) = Returned quadId)
         tiles ->
  exists result,
    getMatchingAttributions assertionsEnabled this tiles = Returned result
    /\ (length result <= length (default [] (_attributions this)))%nat.
Proof.
  intros Hret.
  destruct (getMatchingAttributions_positions assertionsEnabled this tiles Hret)
    as (indices & Hrun & Hnodup & Hin).
  eexists. split; [exact Hrun |]. rewrite length_fmap.
  assert (Hsub : indices ⊆+ seq 0 (length (default [] (_attributions this)))).
  { apply NoDup_submseteq; [exact Hnodup |].
    intros i (a & _ & Ha & _)%Hin. apply elem_of_seq.
    apply lookup_lt_Some in Ha. lia. }
  apply submseteq_length in Hsub. now rewrite length_seq in Hsub.
Qed.

Lemma getMatchingAttributions_bounded_witness :
  exists result,
    getMatchingAttributions true sampleBing sampleTiles = Returned result
    /\ (length result <= length (default [] (_attributions sampleBing)))%nat.
Proof.
  apply (getMatchingAttributions_bounded true sampleBing sampleTiles).
  unfold sampleTiles.
  repeat (constructor; [eexists; vm_compute; reflexivity |]). constructor.
Defined.

(** The result for a list of tiles is in front of the result for the list
    followed by more tiles. *)
Lemma getMatchingAttributions_prefix (assertionsEnabled : bool)
    (this : BingImageryProvider) (tiles more : list Tile) (result : list BingAttribution) :
  getMatchingAttributions assertionsEnabled this (tiles ++ more) = Returned result ->
  exists first added,
    getMatchingAttributions assertionsEnabled this tiles = Returned first
    /\ result = first ++ added.
Proof.
  unfold getMatchingAttributions.
  destruct (_attributions this) as [attributions |];
    [| intros [= <-]; exists [], []; auto].
  rewrite tileLoop_app.
  destruct (tileLoop _ _ tiles _ _) as [[m1 u1] |]; cbn [bindO fst snd]; [| discriminate].
  destruct (tileLoop _ _ more _ _) as [[m2 u2] |] eqn:Hmore; cbn [bindO]; [| discriminate].
  intros [= <-]. apply tileLoop_extends in Hmore as [added ->].
  exists m1, added. auto.
Qed.

(** X10: Tiles that come later never take back what earlier tiles have matched:
    the attributions for a list of tiles followed by more tiles are the
    attributions for the list, in their order, followed by new ones.  The
    new ones are the attributions of the provider, each taken once by its
    position, that match one of the further tiles and none of the list. *)
Theorem getMatchingAttributions_app (assertionsEnabled : bool)
    (this : BingImageryProvider) (tiles more : list Tile) :
  Forall (fun tile => exists quadId,
            createFromContentId assertionsEnabled (tileContentId tile) = Returned quadId)
         (tiles ++ more) ->
  exists first added indices,
    getMatchingAttributions assertionsEnabled this tiles = Returned first
    /\ getMatchingAttributions assertionsEnabled this (tiles ++ more)
       = Returned (first ++ added)
    /\ NoDup indices
    /\ Forall2 (fun i attribution =>
                  default [] (_attributions this) !! i = Some attribution)
               indices added
    /\ (forall i, i ∈ indices <->
          exists attribution,
            default [] (_attributions this) !! i = Some attribution
            /\ (exists tile, tile ∈ more
                   /\ matchesTile assertionsEnabled attribution tile (_mapTilingScheme this)
                      = Returned true)
            /\ ~ (exists tile, tile ∈ tiles
                     /\ matchesTile assertionsEnabled attribution tile
                          (_mapTilingScheme this) = Returned true)).
Proof.
  intros Hret. pose proof (proj1 (Forall_app _ _ _) Hret) as [Hret1 _].
  destruct (getMatchingAttributions_positions assertionsEnabled this tiles Hret1)
    as (I1 & Hrun1 & Hnodup1 & Hin1).
  destruct (getMatchingAttributions_positions assertionsEnabled this (tiles ++ more) Hret)
    as (I12 & Hrun12 & Hnodup12 & Hin12).
  destruct (getMatchingAttributions_prefix assertionsEnabled this tiles more _ Hrun12)
    as (first & added & Hfirst & Hsplit).
  rewrite Hrun1 in Hfirst. injection Hfirst as <-.
  apply fmap_app_inv in Hsplit as (Ia & Ib & Hfa & -> & ->).
  apply NoDup_app in Hnodup12 as (Hnodupa & Hdisjoint & Hnodupb).
  set (at_ := fun i => default (mkBingAttribution "" [])
                         (default [] (_attributions this) !! i)) in *.
  assert (Hat : forall i attribution,
             default [] (_attributions this) !! i = Some attribution -> at_ i = attribution).
  { intros i attribution Hi. unfold at_. now rewrite Hi. }
  (* the positions in front are those of the first run *)
  assert (Hsub : forall i, i ∈ Ia -> i ∈ I1).
  { intros i Hi.
    destruct (proj1 (Hin12 i)) as (attribution & tile & Hattr & _ & _);
      [apply elem_of_app; now left |].
    assert (Hval : at_ i ∈ at_ <$> I1).
    { rewrite Hfa. now apply list_elem_of_fmap_2. }
    apply list_elem_of_fmap in Hval as (j & Heq & Hj).
    destruct (proj1 (Hin1 j) Hj) as (attribution' & tile' & Hattr' & Htile' & Hmatch').
    apply Hin1. exists attribution, tile'. split_and!; [exact Hattr | exact Htile' |].
    rewrite (Hat i attribution Hattr), (Hat j attribution' Hattr') in Heq. now subst. }
  assert (Hperm : Ia ≡ₚ I1).
  { apply submseteq_length_Permutation; [now apply NoDup_submseteq |].
    apply (f_equal length) in Hfa. rewrite !length_fmap in Hfa. lia. }
  exists (at_ <$> I1), (at_ <$> Ib), Ib.
  split_and!; [exact Hrun1 | rewrite Hrun12, fmap_app, Hfa; reflexivity | exact Hnodupb | |].
  - apply Forall2_fmap_r, Forall_Forall2_diag, Forall_forall. intros i Hi.
    destruct (proj1 (Hin12 i)) as (attribution & tile & Hattr & _ & _);
      [apply elem_of_app; now right |].
    unfold compose. now rewrite (Hat i attribution Hattr).
  - intros i. split.
    + intros Hi.
      destruct (proj1 (Hin12 i)) as (attribution & tile & Hattr & Htile & Hmatch);
        [apply elem_of_app; now right |].
      assert (Hnone : ~ (exists tile', tile' ∈ tiles
                           /\ matchesTile assertionsEnabled attribution tile'
                                (_mapTilingScheme this) = Returned true)).
      { intros (tile' & Htile' & Hmatch').
        assert (Hi1 : i ∈ I1) by (apply Hin1; eauto).
        rewrite <- Hperm in Hi1. exact (Hdisjoint i Hi1 Hi). }
      exists attribution. split_and!; [exact Hattr | | exact Hnone].
      apply elem_of_app in Htile as [Htile | Htile]; [| eauto].
      exfalso. apply Hnone. eauto.
    + intros (attribution & Hattr & (tile & Htile & Hmatch) & Hnone).
      assert (Hi : i ∈ Ia ++ Ib).
      { apply Hin12. exists attribution, tile. split_and!; [exact Hattr | | exact Hmatch].
        apply elem_of_app. now right. }
      apply elem_of_app in Hi as [Hi | Hi]; [| exact Hi].
      exfalso. apply Hnone. apply Hsub, Hin1 in Hi as (attribution' & tile' & Hattr' & Ht' & Hm').
      rewrite Hattr in Hattr'. injection Hattr' as <-. eauto.
Qed.

Lemma getMatchingAttributions_app_witness :
  exists first added indices,
    getMatchingAttributions true sampleBing [mkTile "3_1_1" 3] = Returned first
    /\ getMatchingAttributions true sampleBing ([mkTile "3_1_1" 3] ++ [mkTile "4_3_2" 4])
       = Returned (first ++ added)
    /\ NoDup indices
    /\ Forall2 (fun i attribution =>
                  default [] (_attributions sampleBing) !! i = Some attribution)
               indices added
    /\ (forall i, i ∈ indices <->
          exists attribution,
            default [] (_attributions sampleBing) !! i = Some attribution
            /\ (exists tile, tile ∈ [mkTile "4_3_2" 4]
                   /\ matchesTile true attribution tile (_mapTilingScheme sampleBing)
                      = Returned true)
            /\ ~ (exists tile, tile ∈ [mkTile "3_1_1" 3]
                     /\ matchesTile true attribution tile (_mapTilingScheme sampleBing)
                        = Returned true)).
Proof.
  apply (getMatchingAttributions_app true sampleBing [mkTile "3_1_1" 3] [mkTile "4_3_2" 4]).
  repeat (constructor; [eexists; vm_compute; reflexivity |]). constructor.
Defined.

(** X11: A tile whose content id does not split into three parts is read, with
    assertions disabled, as the quad of level -1, which is below every zoom
    level: it matches no attribution whose coverages start at a zoom level
    of 0 or more. *)
Theorem matchesTile_malformed (attribution : BingAttribution) (tile : Tile)
    (tilingScheme : MapTilingScheme) :
  length (JS.split "_" (tileContentId tile)) <> 3%nat ->
  Forall (fun coverage => exists zoomMin,
            _minimumZoomLevel coverage = JS.Num zoomMin /\ 0 <= zoomMin)
         (_coverages attribution) ->
  matchesTile false attribution tile tilingScheme = Returned false.
Proof.
  intros Hlen Hzoom. unfold matchesTile, createFromContentId.
  destruct (Nat.eqb_spec 3 (length (JS.split "_" (tileContentId tile)))) as [E | _];
    [congruence |].
  cbn [negb assert andb bindO]. f_equal.
  induction Hzoom as [|coverage coverages (zoomMin & Hmin & Hnonneg) _ IH]; [reflexivity |].
  cbn [existsb]. rewrite IH, orb_false_r. unfold overlaps.
  destruct (getLatLongRange _ tilingScheme); [reflexivity |].
  cbn [level]. rewrite Hmin. cbn [JS.lt].
  destruct (Z.ltb_spec (-1) zoomMin); [reflexivity | lia].
Qed.

Lemma matchesTile_malformed_witness :
  matchesTile false (mkBingAttribution "HERE" [mkCoverage (-10) 0 10 20 (JS.Num 1) (JS.Num 9)])
    (mkTile "bad" 0) sampleScheme
  = Returned false.
Proof.
  apply matchesTile_malformed.
  - vm_compute. lia.
  - repeat constructor. exists 1. split; [reflexivity | lia].
Defined.

End AttributionFacts.

(** ** The range of a quad *)

(** X12: For a quad whose level, column and row are numbers, column and row
    being integers below 2^53 so that one can be added to them exactly, the
    range is not null and is the bounding box of the quad's corner and of
    the corner of the tile one column and one row further, whichever of the
    two lies lower: each bound is a coordinate of one of the corners and
    bounds both. *)
Theorem getLatLongRange_corners (quadLevel quadColumn quadRow : Z) (mapTilingScheme : MapTilingScheme) :
  Z.abs quadColumn < 2 ^ 53 -> Z.abs quadRow < 2 ^ 53 ->
  let corner := tileXYToCartographic mapTilingScheme
                  (JS.Num quadColumn) (JS.Num quadRow) (JS.Num quadLevel) in
  let next := tileXYToCartographic mapTilingScheme
                (JS.Num (quadColumn + 1)) (JS.Num (quadRow + 1)) (JS.Num quadLevel) in
  let degrees := timesDegreesPerRadian mapTilingScheme in
  exists low high,
    getLatLongRange (mkQuadId (JS.Num quadLevel) (JS.Num quadColumn) (JS.Num quadRow)) mapTilingScheme
    = Box2d low high
    /\ (x low = degrees (longitude corner) \/ x low = degrees (longitude next))
    /\ (x low <= degrees (longitude corner))%Q /\ (x low <= degrees (longitude next))%Q
    /\ (x high = degrees (longitude corner) \/ x high = degrees (longitude next))
    /\ (degrees (longitude corner) <= x high)%Q /\ (degrees (longitude next) <= x high)%Q
    /\ (y low = degrees (latitude corner) \/ y low = degrees (latitude next))
    /\ (y low <= degrees (latitude corner))%Q /\ (y low <= degrees (latitude next))%Q
    /\ (y high = degrees (latitude corner) \/ y high = degrees (latitude next))
    /\ (degrees (latitude corner) <= y high)%Q /\ (degrees (latitude next) <= y high)%Q.
Proof.
  intros Hcolumn Hrow corner next degrees.
  unfold getLatLongRange, Range2d_createNull, Range2d_extendXY. cbn [x y].
  cbn [JS.add level column row].
  rewrite !JSFacts.roundToDouble_small by lia.
  fold corner next degrees.
  eexists _, _. split; [reflexivity |]. cbn [x y].
  repeat match goal with |- context [Qltb ?a ?b] => destruct (Qltb_spec a b) end;
    split_and!; auto; lra.
Qed.

Lemma getLatLongRange_corners_witness :
  exists low high,
    getLatLongRange (mkQuadId (JS.Num 3) (JS.Num 1) (JS.Num 2)) sampleScheme = Box2d low high
    /\ low = mkPoint2d 1 (-3) /\ high = mkPoint2d 2 (-2).
Proof.
  destruct (getLatLongRange_corners 3 1 2 sampleScheme) as (low & high & Hrange & _);
    [reflexivity | reflexivity |].
  exists low, high. split; [exact Hrange |].
  vm_compute in Hrange. injection Hrange as <- <-. split; reflexivity.
Defined.

(** ** The fingerprint of the missing tile *)

Section FingerprintFacts.

Lemma Bing_matchesMissingTile_refl (this : BingImageryProvider) (tileData : list Byte.byte) :
  _missingTileData this = Some tileData -> Bing_matchesMissingTile this tileData = true.
Proof.
  intros Hm. unfold Bing_matchesMissingTile. rewrite Hm, Nat.eqb_refl. cbn [negb].
  apply missingTileLoop_spec; [lia | reflexivity].
Qed.

(** X13: Once the probe of [initialize] has brought back the image of the missing
    tile, a tile whose bytes are those of that image is not loaded:
    [loadTile] returns nothing for it.  The URLs of the provider are what
    they were, and a probe that brings back nothing leaves the provider as
    it was. *)
Theorem loadTile_after_probe (request : string -> Outcome Response)
    (assertionsEnabled : bool) (this : BingImageryProvider) (probe : ImageSource)
    (row column zoomLevel : JS.number) (tileUrl : string) (response : Response) :
  constructUrl assertionsEnabled this row column zoomLevel = Returned tileUrl ->
  request tileUrl = Returned response ->
  body response = data probe ->
  constructUrl assertionsEnabled (captureMissingTile this (Some probe)) row column zoomLevel
    = Returned tileUrl
  /\ loadTile request assertionsEnabled (captureMissingTile this (Some probe))
       row column zoomLevel = Returned None
  /\ captureMissingTile this None = this.
Proof.
  intros Hurl Hrequest Hbody.
  assert (Hurl' : constructUrl assertionsEnabled (captureMissingTile this (Some probe))
                    row column zoomLevel = Returned tileUrl) by exact Hurl.
  split_and!; [exact Hurl' | | reflexivity].
  unfold loadTile. rewrite Hurl'. cbn [bindO]. rewrite Hrequest. cbn [bindO].
  destruct (Nat.eqb _ 0); [reflexivity |].
  assert (matchesMissingTile (captureMissingTile this (Some probe)) (body response) = true)
    as ->; [| reflexivity].
  apply Bing_matchesMissingTile_refl. rewrite Hbody. reflexivity.
Qed.

Lemma loadTile_after_probe_witness :
  loadTile sampleRequest true
    (captureMissingTile sampleBing (Some (mkImageSource [Byte.xff; Byte.xd8; Byte.xff] Jpeg)))
    (JS.Num 5) (JS.Num 3) (JS.Num 3)
  = Returned None.
Proof.
  apply (loadTile_after_probe sampleRequest true sampleBing
           (mkImageSource [Byte.xff; Byte.xd8; Byte.xff] Jpeg) (JS.Num 5) (JS.Num 3) (JS.Num 3)
           "https://ecn.t0.tiles.virtualearth.net/tiles/r213.jpeg"
           (mkResponse [Byte.xff; Byte.xd8; Byte.xff] (Some "image/jpeg")));
    vm_compute; reflexivity.
Defined.

End FingerprintFacts.

(** ** What a load of tile content can do *)

Section LoaderFacts.
Variables World MapTile HTMLImageElement RenderTexture RenderGraphic : Type.
Variable isLoading : MapTile -> World -> bool.
Variable reprojectCorners : MapTile -> Async World unit.
Variable imageElementFromImageSource : ImageSource -> Async World HTMLImageElement.
Variable createTextureFromImage :
  HTMLImageElement -> bool -> Async World (option RenderTexture).
Variable createTile : RenderTexture -> MapTile -> Async World (option RenderGraphic).
Variable createBatch : RenderGraphic -> MapTile -> Async World RenderGraphic.
Variable assertionsEnabled : bool.


(** X14: [loadTextureImage] never throws, whatever the decoder, the predicate and
    the render system do; and it has a texture only when the image was
    decoded, the predicate then answered false and the render system made
    the texture, asked with the alpha flag of a PNG source. *)
Theorem loadTextureImage_total (imageSource : ImageSource)
    (isCanceled : Async World bool) (w : World) :
  exists texture w',
    loadTextureImage World HTMLImageElement RenderTexture
      imageElementFromImageSource createTextureFromImage imageSource isCanceled w = (Returned texture, w')
    /\ (forall made, texture = Some made ->
          exists image w1 w2,
            imageElementFromImageSource imageSource w = (Returned image, w1)
            /\ isCanceled w1 = (Returned false, w2)
            /\ createTextureFromImage image (bool_decide (Png = format imageSource)) w2
               = (Returned (Some made), w')).
Proof.
  unfold loadTextureImage, catchA, bindA, retA.
  destruct (imageElementFromImageSource imageSource w) as [[image |] w1] eqn:Hdecode;
    [| eexists _, _; split; [reflexivity | discriminate]].
  destruct (isCanceled w1) as [[[|] |] w2] eqn:Hcanceled;
    [eexists _, _; split; [reflexivity | discriminate] |
     | eexists _, _; split; [reflexivity | discriminate]].
  destruct (createTextureFromImage image _ w2) as [[texture |] w3] eqn:Htexture;
    [| eexists _, _; split; [reflexivity | discriminate]].
  eexists _, _. split; [reflexivity |].
  intros made ->. exists image, w1, w2. split_and!; [reflexivity | exact Hcanceled | exact Htexture].
Qed.

(** X15: A content with a graphic comes out of one course of events only: the
    corners were reprojected, the image decoded, the predicate (the tile's
    no longer loading when none is supplied) answered false, and the render
    system made the texture, the tile graphic and its batch, which is the
    graphic.  In particular a canceled load never has a graphic. *)
Theorem loadTileContent_graphic (tile : MapTile) (data : ImageSource)
    (isCanceled : option (Async World bool)) (w0 w' : World)
    (content : TileContent RenderGraphic) (made : RenderGraphic) :
  loadTileContent World MapTile HTMLImageElement RenderTexture RenderGraphic
    isLoading reprojectCorners imageElementFromImageSource
    createTextureFromImage createTile createBatch assertionsEnabled
    tile data isCanceled w0 = (Returned content, w') ->
  graphic content = Some made ->
  exists w1 image w2 w3 texture w4 tileGraphic w5,
    reprojectCorners tile w0 = (Returned tt, w1)
    /\ imageElementFromImageSource data w1 = (Returned image, w2)
    /\ default (fun w => (Returned (negb (isLoading tile w)), w)) isCanceled w2
       = (Returned false, w3)
    /\ createTextureFromImage image (bool_decide (Png = format data)) w3
       = (Returned (Some texture), w4)
    /\ createTile texture tile w4 = (Returned (Some tileGraphic), w5)
    /\ createBatch tileGraphic tile w5 = (Returned made, w').
Proof.
  unfold loadTileContent. unfold bindA at 1 2 3.
  rewrite (assert_true assertionsEnabled).
  destruct (reprojectCorners tile w0) as [[[] |] w1] eqn:Hreproject; [| discriminate].
  set (predicate := match isCanceled with Some supplied => supplied | None => _ end).
  assert (Hpredicate : predicate
            = default (fun w => (Returned (negb (isLoading tile w)), w)) isCanceled)
    by (destruct isCanceled; reflexivity).
  unfold bindA at 1. unfold loadTextureImage, catchA, bindA at 1 2, retA.
  destruct (imageElementFromImageSource data w1) as [[image |] w2] eqn:Hdecode;
    [| intros [= <- <-]; discriminate].
  destruct (predicate w2) as [[[|] |] w3] eqn:Hcanceled;
    [intros [= <- <-]; discriminate | | intros [= <- <-]; discriminate].
  destruct (createTextureFromImage image _ w3) as [[[texture |] |] w4] eqn:Htexture;
    [| intros [= <- <-]; discriminate | intros [= <- <-]; discriminate].
  unfold bindA, retA.
  destruct (createTile texture tile w4) as [[[tileGraphic |] |] w5] eqn:Htile;
    [| intros [= <- <-]; discriminate | discriminate].
  destruct (createBatch tileGraphic tile w5) as [[batch |] w6] eqn:Hbatch; [| discriminate].
  intros [= <- <-] [= <-].
  exists w1, image, w2, w3, texture, w4, tileGraphic, w5.
  rewrite <- Hpredicate. split_and!; auto.
Qed.

End LoaderFacts.

Lemma loadTileContent_graphic_witness :
  exists w1 image w2 w3 texture w4 tileGraphic w5,
    sampleReproject tt [] = (Returned tt, w1)
    /\ sampleDecode (mkImageSource [Byte.xff; Byte.xd8; Byte.xff] Jpeg) w1 = (Returned image, w2)
    /\ default (fun w => (Returned (negb false), w)) (Some (retA false)) w2
       = (Returned false, w3)
    /\ sampleTexture image
         (bool_decide (Png = format (mkImageSource [Byte.xff; Byte.xd8; Byte.xff] Jpeg))) w3
       = (Returned (Some texture), w4)
    /\ sampleCreateTile texture tt w4 = (Returned (Some tileGraphic), w5)
    /\ sampleBatch tileGraphic tt w5
       = (Returned tt,
          ["reprojectCorners"; "imageElementFromImageSource"; "createTextureFromImage";
           "createTile"; "createBatch"]).
Proof.
  apply (loadTileContent_graphic (list string) unit unit unit unit (fun _ _ => false)
           sampleReproject sampleDecode sampleTexture sampleCreateTile sampleBatch true
           tt (mkImageSource [Byte.xff; Byte.xd8; Byte.xff] Jpeg) (Some (retA false)) []
           _ (mkTileContent (Some tt)) tt); reflexivity.
Defined.

(** ** Tile properties and tile trees *)

Section TileTreeFacts.

(** X16: The root tile of a web map tree covers 10,000,000 units either way in x
    and y whatever the ground bias, at the heights of the height range if
    one is given and at the ground bias otherwise; its content id reads as
    the valid quad of level 0, and it is the kind of tile that needs no
    loading, a tile needing loading exactly when its level is not 0. *)
Theorem WebMapTileTreeProps_root (groundBias : Q) (modelId : string)
    (heightRange : option Range1d) (maxTilesToSkip : option JS.number) :
  let rootTile :=
    treeProps_rootTile (WebMapTileTreeProps_new groundBias modelId heightRange maxTilesToSkip) in
  props_range rootTile
    = Box3d (mkPoint3d (-10000000) (-10000000)
               (match heightRange with Some range => low1 range | None => groundBias end))
            (mkPoint3d 10000000 10000000
               (match heightRange with Some range => high1 range | None => groundBias end))
  /\ tileRequiresLoading (props_maximumSize rootTile) = false
  /\ (forall assertionsEnabled,
        createFromContentId assertionsEnabled (props_contentId rootTile)
        = Returned (mkQuadId (JS.Num 0) (JS.Num 0) (JS.Num 0)))
  /\ isValid (mkQuadId (JS.Num 0) (JS.Num 0) (JS.Num 0)) = true
  /\ (forall thisId level corners zLow zHigh,
        tileRequiresLoading
          (props_maximumSize (WebMapTileProps_new thisId (JS.Num level) corners zLow zHigh))
        = negb (level =? 0)).
Proof.
  cbv zeta. split_and!; try reflexivity.
  intros thisId level corners zLow zHigh. unfold WebMapTileProps_new, tileRequiresLoading.
  cbn [props_maximumSize JS.strictNe]. rewrite (Z.eqb_sym 0 level).
  destruct (level =? 0); reflexivity.
Qed.

Section Creation.
Variables World P GeoCoordStatus : Type.
Context `{EqDecision GeoCoordStatus}.
Variable NoGCSDefined : GeoCoordStatus.
Variable hasEcefLocation : World -> bool.
Variable transientIdsNext : Async World string.
Variable getIModelCoordinatesFromGeoCoordinates : Async World (list GeoCoordStatus).
Variable initialize : P -> Async World P.


Lemma getGcsConverterAvailable_cases (w : World) :
  exists haveConverter w', getGcsConverterAvailable World GeoCoordStatus NoGCSDefined
      getIModelCoordinatesFromGeoCoordinates w = (Returned haveConverter, w').
Proof.
  unfold getGcsConverterAvailable, catchA, bindA, retA.
  destruct (getIModelCoordinatesFromGeoCoordinates w) as [[coords |] w']; eauto.
Qed.

(** X17: [getGcsConverterAvailable] never throws: it answers true when the
    converter returns exactly one point whose status is not that of a
    missing coordinate system, and false in every other case, a failing
    converter included. *)
Theorem getGcsConverterAvailable_total (w : World) :
  exists haveConverter w',
    getGcsConverterAvailable World GeoCoordStatus NoGCSDefined
      getIModelCoordinatesFromGeoCoordinates w = (Returned haveConverter, w')
    /\ (haveConverter = true <->
        exists s, getIModelCoordinatesFromGeoCoordinates w = (Returned [s], w')
                  /\ s <> NoGCSDefined).
Proof.
  unfold getGcsConverterAvailable, catchA, bindA, retA.
  destruct (getIModelCoordinatesFromGeoCoordinates w) as [[coords |] w'] eqn:Hconvert.
  - eexists _, _. split; [reflexivity |].
    destruct coords as [|s [|s' coords]]; cbn [length Nat.eqb andb lookup list_lookup].
    + split; [discriminate | intros (s & [=] & _)].
    + case_bool_decide as Hs; cbn [negb]; split; try discriminate.
      * intros (s' & [= <-] & Hne). contradiction.
      * intros _. exists s. auto.
      * reflexivity.
    + split; [discriminate | intros (s0 & [=] & _)].
  - eexists _, _. split; [reflexivity |]. split; [discriminate | intros (s & [=] & _)].
Qed.

(** X18: Without an ECEF location on the iModel no tree is created and nothing
    is done: the provider is not initialized and no transient id is taken.
    With one, a provider whose initialization fails makes the creation
    throw, again before a transient id is taken. *)
Theorem createTileTreeFromImageryProvider_none (imageryProvider : P) (groundBias : Q)
    (w : World) :
  (hasEcefLocation w = false ->
   createTileTreeFromImageryProvider World P GeoCoordStatus NoGCSDefined hasEcefLocation
     transientIdsNext getIModelCoordinatesFromGeoCoordinates initialize
     imageryProvider groundBias w = (Returned None, w))
  /\ (forall w1, hasEcefLocation w = true ->
        initialize imageryProvider w = (Thrown, w1) ->
        createTileTreeFromImageryProvider World P GeoCoordStatus NoGCSDefined hasEcefLocation
     transientIdsNext getIModelCoordinatesFromGeoCoordinates initialize
     imageryProvider groundBias w = (Thrown, w1)).
Proof.
  unfold createTileTreeFromImageryProvider. split.
  - intros ->. reflexivity.
  - intros w1 -> Hinit. cbn [negb]. unfold bindA at 1. now rewrite Hinit.
Qed.

(** X19: With an ECEF location, an initialized provider and a transient id the
    tree is created whatever the coordinate converter does, a failure of
    which only shows as the flag of the tree: the tree has the initialized
    provider in its loader, the transient id as its model id, the ground
    bias as both ends of its height range, no sea level offset and a loader
    without height range. *)
Theorem createTileTreeFromImageryProvider_tree (imageryProvider initialized : P)
    (groundBias : Q) (modelId : string) (w w1 w2 : World) :
  hasEcefLocation w = true ->
  initialize imageryProvider w = (Returned initialized, w1) ->
  transientIdsNext w1 = (Returned modelId, w2) ->
  exists haveConverter w3,
    getGcsConverterAvailable World GeoCoordStatus NoGCSDefined
      getIModelCoordinatesFromGeoCoordinates w2 = (Returned haveConverter, w3)
    /\ createTileTreeFromImageryProvider World P GeoCoordStatus NoGCSDefined hasEcefLocation
     transientIdsNext getIModelCoordinatesFromGeoCoordinates initialize
     imageryProvider groundBias w
       = (Returned (Some (mkBackgroundMapTileTree
                            (WebMapTileTreeProps_new groundBias modelId None None)
                            (mkWebMapTileLoader initialized modelId groundBias None)
                            modelId groundBias 0 haveConverter
                            (mkRange1d groundBias groundBias))),
          w3).
Proof.
  intros Hecef Hinit Hid.
  destruct (getGcsConverterAvailable_cases w2) as (haveConverter & w3 & Hprobe).
  exists haveConverter, w3. split; [exact Hprobe |].
  unfold createTileTreeFromImageryProvider. rewrite Hecef. cbn [negb].
  unfold bindA at 1. rewrite Hinit. unfold bindA at 1. rewrite Hid.
  unfold bindA at 1. rewrite Hprobe. unfold retA. do 3 f_equal.
  unfold Range1d_createXX. destruct (Qltb_spec groundBias groundBias); [lra | reflexivity].
Qed.
End Creation.

Lemma createTileTreeFromImageryProvider_none_witness :
  createTileTreeFromImageryProvider (list string) MapBoxImageryProvider bool false
    sampleHasEcef sampleNextId sampleConverter sampleInitialize
    (mkMapBoxImageryProvider "https://api.mapbox.com/v4/mapbox.streets/") 0 []
  = (Returned None, []).
Proof.
  apply (createTileTreeFromImageryProvider_none (list string) MapBoxImageryProvider bool false
           sampleHasEcef sampleNextId sampleConverter sampleInitialize).
  reflexivity.
Defined.

Lemma createTileTreeFromImageryProvider_tree_witness :
  exists haveConverter w3,
    getGcsConverterAvailable (list string) bool false sampleConverter
      ["ecef"; "initialize"; "transientIds.next"] = (Returned haveConverter, w3)
    /\ createTileTreeFromImageryProvider (list string) MapBoxImageryProvider bool false
         sampleHasEcef sampleNextId sampleConverter sampleInitialize
         (mkMapBoxImageryProvider "https://api.mapbox.com/v4/mapbox.streets/") 0 ["ecef"]
       = (Returned (Some (mkBackgroundMapTileTree
                            (WebMapTileTreeProps_new 0 "0xffffff0000000001" None None)
                            (mkWebMapTileLoader
                               (mkMapBoxImageryProvider "https://api.mapbox.com/v4/mapbox.streets/")
                               "0xffffff0000000001" 0 None)
                            "0xffffff0000000001" 0 0 haveConverter (mkRange1d 0 0))),
          w3).
Proof.
  apply (createTileTreeFromImageryProvider_tree (list string) MapBoxImageryProvider bool false
           sampleHasEcef sampleNextId sampleConverter sampleInitialize
           (mkMapBoxImageryProvider "https://api.mapbox.com/v4/mapbox.streets/")
           (mkMapBoxImageryProvider "https://api.mapbox.com/v4/mapbox.streets/")
           0 "0xffffff0000000001" ["ecef"] ["ecef"; "initialize"]);
    reflexivity.
Defined.

End TileTreeFacts.

(** ** The URL of a Bing tile *)

Section BingUrlFacts.
Import JS JSFacts.









End BingUrlFacts.

(** ** The copyright elements *)

Section CopyrightFacts.

Variable translate : string -> string.

Lemma getCopyrightElements_lookup (logoUrl : option string) (viewportId : Z)
    (cache : gmap Z BingCopyrightElements) (document : Document) :
  snd (fst (getCopyrightElements translate logoUrl viewportId cache document)) !! viewportId
  = Some (fst (fst (getCopyrightElements translate logoUrl viewportId cache document))).
Proof.
  unfold getCopyrightElements. destruct (cache !! viewportId) eqn:E; [exact E |].
  destruct logoUrl; cbn [fst snd]; apply lookup_insert_eq.
Qed.

Lemma getCopyrightElements_keeps (logoUrl : option string) (viewportId other : Z)
    (cache : gmap Z BingCopyrightElements) (document : Document) (elems : BingCopyrightElements) :
  cache !! other = Some elems ->
  snd (fst (getCopyrightElements translate logoUrl viewportId cache document)) !! other
  = Some elems.
Proof.
  intros Hother. unfold getCopyrightElements.
  destruct (cache !! viewportId) eqn:E; [exact Hother |].
  assert (viewportId <> other) by congruence.
  destruct logoUrl; cbn [fst snd]; rewrite lookup_insert_ne; assumption.
Qed.

Lemma copyrightRequests_keeps (requests : list (option string * Z)) :
  forall (cache : gmap Z BingCopyrightElements) (document : Document)
         (viewportId : Z) (elems : BingCopyrightElements),
    cache !! viewportId = Some elems ->
    fst (copyrightRequests translate requests cache document) !! viewportId = Some elems.
Proof.
  induction requests as [|[logoUrl v] requests IH]; intros cache document viewportId elems Hin;
    [exact Hin |].
  cbn [copyrightRequests].
  pose proof (getCopyrightElements_keeps logoUrl v viewportId cache document elems Hin) as Hk.
  destruct (getCopyrightElements translate logoUrl v cache document) as [[e cache'] document'].
  apply IH. exact Hk.
Qed.

(** X21: Once the elements of a viewport exist, every later request for that
    viewport gets the same elements, whatever was requested in between and
    even if the logo URL has changed; such a request creates nothing. *)
Theorem getCopyrightElements_cached (logoUrl later : option string) (viewportId : Z)
    (requests : list (option string * Z))
    (cache : gmap Z BingCopyrightElements) (document : Document) :
  let '(elems, cache1, document1) :=
    getCopyrightElements translate logoUrl viewportId cache document in
  let '(cache2, document2) := copyrightRequests translate requests cache1 document1 in
  getCopyrightElements translate later viewportId cache2 document2 = (elems, cache2, document2).
Proof.
  pose proof (getCopyrightElements_lookup logoUrl viewportId cache document) as Hlook.
  destruct (getCopyrightElements translate logoUrl viewportId cache document)
    as [[elems cache1] document1].
  cbn [fst snd] in Hlook.
  pose proof (copyrightRequests_keeps requests cache1 document1 viewportId elems Hlook) as Hk.
  destruct (copyrightRequests translate requests cache1 document1) as [cache2 document2].
  cbn [fst] in Hk. unfold getCopyrightElements. rewrite Hk. reflexivity.
Qed.

Lemma copyrightInvariant_insert (cache : gmap Z BingCopyrightElements)
    (document document' : Document) (viewportId : Z) (fresh : BingCopyrightElements) :
  copyrightInvariant cache document ->
  NoDup (identities fresh) ->
  span_onclick (attribution fresh) = viewportId ->
  (forall identity, identity ∈ identities fresh -> (document <= identity < document')%nat) ->
  copyrightInvariant (<[viewportId := fresh]> cache) document'.
Proof.
  intros [Hold Hshare] Hnodup Hclick Hrange.
  assert (Hgrow : (document < document')%nat).
  { pose proof (Hrange (span_identity (attribution fresh)) (list_elem_of_here _ _)). lia. }
  split.
  - intros v elems. destruct (decide (viewportId = v)) as [<- | Hne].
    + rewrite lookup_insert_eq. intros [= <-]. split_and!; [exact Hnodup | exact Hclick |].
      intros identity Hid. apply Hrange in Hid. lia.
    + rewrite lookup_insert_ne by exact Hne. intros Hin.
      destruct (Hold v elems Hin) as (Hd & Hbound & Hlt).
      split_and!; [exact Hd | exact Hbound |].
      intros identity Hid. specialize (Hlt identity Hid). lia.
  - intros v1 v2 e1 e2 identity.
    destruct (decide (viewportId = v1)) as [<- | Hne1];
      destruct (decide (viewportId = v2)) as [<- | Hne2];
      rewrite ?lookup_insert_eq, ?lookup_insert_ne by assumption.
    + reflexivity.
    + intros [= <-] Hin2 Hid1 Hid2. apply Hrange in Hid1.
      destruct (Hold v2 e2 Hin2) as (_ & _ & Hlt). specialize (Hlt identity Hid2). lia.
    + intros Hin1 [= <-] Hid1 Hid2. apply Hrange in Hid2.
      destruct (Hold v1 e1 Hin1) as (_ & _ & Hlt). specialize (Hlt identity Hid1). lia.
    + apply Hshare.
Qed.

Lemma copyrightReachable_invariant (cache : gmap Z BingCopyrightElements)
    (document : Document) :
  copyrightReachable translate cache document -> copyrightInvariant cache document.
Proof.
  induction 1 as [document | logoUrl viewportId cache document _ IH
                 | cache document _ [IHold IHshare]].
  - split; intros *; rewrite lookup_empty; discriminate.
  - unfold getCopyrightElements. destruct (cache !! viewportId) eqn:E; [exact IH |].
    destruct logoUrl as [url |]; cbn [fst snd];
      apply (copyrightInvariant_insert cache document); try exact IH; try reflexivity;
      unfold identities; cbn [logoImage attribution span_identity image_identity].
    + apply NoDup_cons. split; [rewrite list_elem_of_singleton; lia | apply NoDup_singleton].
    + intros identity. rewrite !elem_of_cons, elem_of_nil. lia.
    + apply NoDup_singleton.
    + intros identity. rewrite elem_of_cons, elem_of_nil. lia.
  - split; [| exact IHshare].
    intros v elems Hin. destruct (IHold v elems Hin) as (Hd & Hclick & Hlt).
    split_and!; [exact Hd | exact Hclick |].
    intros identity Hid. specialize (Hlt identity Hid). lia.
Qed.

(** X22: No element is handed to two viewports: in whatever state a provider's
    map can be, the elements requested for two different viewports have no
    identity in common, and the click handler of each is bound to its own
    viewport. *)
Theorem getCopyrightElements_per_viewport (logoUrl1 logoUrl2 : option string) (v1 v2 : Z)
    (cache : gmap Z BingCopyrightElements) (document : Document) :
  copyrightReachable translate cache document ->
  v1 <> v2 ->
  let '(e1, cache1, document1) := getCopyrightElements translate logoUrl1 v1 cache document in
  let '(e2, _, _) := getCopyrightElements translate logoUrl2 v2 cache1 document1 in
  (forall identity, identity ∈ identities e1 -> identity ∉ identities e2)
  /\ span_onclick (attribution e1) = v1 /\ span_onclick (attribution e2) = v2.
Proof.
  intros Hreach Hne.
  pose proof (reachable_get translate logoUrl1 v1 cache document Hreach) as Hreach1.
  pose proof (getCopyrightElements_lookup logoUrl1 v1 cache document) as Hlook1.
  destruct (getCopyrightElements translate logoUrl1 v1 cache document)
    as [[e1 cache1] document1].
  cbn [fst snd] in Hreach1, Hlook1.
  pose proof (reachable_get translate logoUrl2 v2 cache1 document1 Hreach1) as Hreach2.
  pose proof (getCopyrightElements_lookup logoUrl2 v2 cache1 document1) as Hlook2.
  pose proof (getCopyrightElements_keeps logoUrl2 v2 v1 cache1 document1 e1 Hlook1) as Hkeep.
  destruct (getCopyrightElements translate logoUrl2 v2 cache1 document1)
    as [[e2 cache2] document2].
  cbn [fst snd] in Hreach2, Hlook2, Hkeep.
  destruct (copyrightReachable_invariant cache2 document2 Hreach2) as [Hold Hshare].
  split_and!.
  - intros identity Hid1 Hid2. apply Hne. exact (Hshare v1 v2 e1 e2 identity Hkeep Hlook2 Hid1 Hid2).
  - exact (proj1 (proj2 (Hold v1 e1 Hkeep))).
  - exact (proj1 (proj2 (Hold v2 e2 Hlook2))).
Qed.

End CopyrightFacts.

Lemma getCopyrightElements_per_viewport_witness :
  copyrightReachable (fun key => key) ∅ 0%nat /\ 1 <> 2
  /\ let '(e1, cache1, document1) :=
       getCopyrightElements (fun key => key) (Some "https://logo") 1 ∅ 0%nat in
     let '(e2, _, _) := getCopyrightElements (fun key => key) None 2 cache1 document1 in
     (forall identity, identity ∈ identities e1 -> identity ∉ identities e2)
     /\ span_onclick (attribution e1) = 1 /\ span_onclick (attribution e2) = 2.
Proof.
  split_and!; [constructor | lia |].
  apply (getCopyrightElements_per_viewport (fun key => key) (Some "https://logo") None 1 2 ∅ 0%nat);
    [constructor | lia].
Defined.

(** ** Bing: the metadata read by [initialize] *)

Section InitializeFacts.

Variable World : Type.
Variables Street Aerial Hybrid : Q.
Variable WebMercatorTilingScheme : MapTilingScheme.
Variable request : string -> Async World BingResponseProps.

Lemma replaceHttpWithHttps_never (originalUrl : string) :
  startsWith (replaceHttpWithHttps originalUrl) "http:" = false.
Proof.
  unfold replaceHttpWithHttps. destruct (startsWith originalUrl "http:") eqn:E; [| exact E].
  reflexivity.
Qed.

Lemma readCoverages_from (coverageAreas : list CoverageAreaProps) :
  forall coverages,
    fold_left (fun coverages thisCoverageProps => coverages ++ [Coverage_new thisCoverageProps])
      coverageAreas coverages
    = coverages ++ map Coverage_new coverageAreas.
Proof.
  induction coverageAreas as [|area areas IH]; intros coverages; cbn [fold_left map].
  - now rewrite app_nil_r.
  - rewrite IH, <- app_assoc. reflexivity.
Qed.

Lemma readCoverages_map (coverageAreas : list CoverageAreaProps) :
  readCoverages coverageAreas = map Coverage_new coverageAreas.
Proof. unfold readCoverages. now rewrite readCoverages_from. Qed.

Lemma readAttributions_app (attributionProps : list AttributionProps) :
  forall _attributions,
    readAttributions attributionProps _attributions
    = match attributionProps with
      | [] => _attributions
      | _ :: _ => Some (default [] _attributions ++ map BingAttribution_new attributionProps)
      end.
Proof.
  induction attributionProps as [|props rest IH]; intros old; [reflexivity |].
  unfold readAttributions in *. cbn [fold_left]. rewrite IH, readCoverages_map.
  destruct rest as [|next rest]; [reflexivity |].
  cbn [default map]. unfold id. rewrite <- app_assoc. reflexivity.
Qed.

Lemma Bing_initialize_inv (this this' : BingImagery) (w w' : World) :
  Bing_initialize World Aerial Hybrid request this w = (Returned tt, this', w') ->
  exists bingResponseProps thisResourceProps,
    request (bingRequestUrl Aerial Hybrid (Bing_mapType this)) w
    = (Returned bingResponseProps, w')
    /\ firstResource bingResponseProps = Some thisResourceProps
    /\ this' = mkBingImagery (Bing_mapType this)
                 (Some (replaceHttpWithHttps (brandLogoUri bingResponseProps)))
                 (zoomMin thisResourceProps) (zoomMax thisResourceProps)
                 (imageHeight thisResourceProps) (imageWidth thisResourceProps)
                 (mkBingImageryProvider
                    (Some (replaceHttpWithHttps
                             (JS.replace (imageUrl thisResourceProps) "{culture}" "en-US")))
                    (Some (imageUrlSubdomains thisResourceProps))
                    (readAttributions (imageryProviders thisResourceProps)
                       (_attributions (Bing_imagery this)))
                    (_missingTileData (Bing_imagery this))
                    (_mapTilingScheme (Bing_imagery this))).
Proof.
  unfold Bing_initialize, firstResource.
  destruct (request (bingRequestUrl Aerial Hybrid (Bing_mapType this)) w) as [[body |] w1];
    [| discriminate].
  destruct (resourceSets body) as [|set sets] eqn:Esets; [discriminate |].
  cbn [lookup list_lookup].
  destruct (resources set) as [|res rest] eqn:Eres; [discriminate |].
  cbn [lookup list_lookup head].
  intros [= <- <-]. exists body, res. rewrite Esets, Eres. split_and!; reflexivity.
Qed.

(** X23: A successful [initialize] appends the attributions of the metadata, in
    the order of the metadata, to those the provider already had: what was
    there stays in front, so initializing a provider again appends the list
    again.  The field stays undefined only if it was and the metadata has no
    attribution. *)
Theorem Bing_initialize_attributions (this this' : BingImagery) (w w' : World) :
  Bing_initialize World Aerial Hybrid request this w = (Returned tt, this', w') ->
  exists bingResponseProps thisResourceProps,
    request (bingRequestUrl Aerial Hybrid (Bing_mapType this)) w
    = (Returned bingResponseProps, w')
    /\ firstResource bingResponseProps = Some thisResourceProps
    /\ default [] (_attributions (Bing_imagery this'))
       = default [] (_attributions (Bing_imagery this))
         ++ map BingAttribution_new (imageryProviders thisResourceProps)
    /\ (_attributions (Bing_imagery this') = None
        <-> _attributions (Bing_imagery this) = None
            /\ imageryProviders thisResourceProps = []).
Proof.
  intros Hinit. apply Bing_initialize_inv in Hinit as (body & res & Hrequest & Hfirst & ->).
  exists body, res. cbn [Bing_imagery _attributions]. rewrite readAttributions_app.
  split_and!; [exact Hrequest | exact Hfirst | |].
  - destruct (imageryProviders res); [now rewrite app_nil_r | reflexivity].
  - destruct (imageryProviders res); split; intros H;
      first [now split | exact (proj1 H) | discriminate | now destruct H].
Qed.

End InitializeFacts.

Lemma Bing_initialize_attributions_witness :
  exists bingResponseProps thisResourceProps,
    sampleMetadataRequest
      (bingRequestUrl 2 3 (Bing_mapType (Bing_new sampleScheme 1))) ["online"]
    = (Returned bingResponseProps,
       ["online"; "https://dev.virtualearth.net/REST/v1/Imagery/Metadata/Road?o=json&incl=ImageryProviders&key=AtaeI3QDNG7Bpv1L53cSfDBgBKXIgLq3q-xmn_Y2UyzvF-68rdVxwAuje49syGZt"])
    /\ firstResource bingResponseProps = Some thisResourceProps
    /\ default [] (_attributions (Bing_imagery
          (snd (fst (Bing_initialize (list string) 2 3 sampleMetadataRequest
                       (Bing_new sampleScheme 1) ["online"])))))
       = default [] (_attributions (Bing_imagery (Bing_new sampleScheme 1)))
         ++ map BingAttribution_new (imageryProviders thisResourceProps)
    /\ (_attributions (Bing_imagery
          (snd (fst (Bing_initialize (list string) 2 3 sampleMetadataRequest
                       (Bing_new sampleScheme 1) ["online"])))) = None
        <-> _attributions (Bing_imagery (Bing_new sampleScheme 1)) = None
            /\ imageryProviders thisResourceProps = []).
Proof.
  apply (Bing_initialize_attributions (list string) 2 3 sampleMetadataRequest
           (Bing_new sampleScheme 1) _ ["online"]). reflexivity.
Defined.

(** ** Bing: metadata with properties missing *)

Section InitializeAnyFacts.

Variable World : Type.
Variables Aerial Hybrid : Q.
Variable request : string -> Async World MetadataBody.
Variable sendTileRequest : string -> World -> World.
Variable assertionsEnabled : bool.

Lemma readCoveragesFrom_readable (coverageAreas : list CoverageAreaBody) :
  forall coverages,
    readCoveragesFrom coverageAreas coverages = Thrown
    <-> forallb (fun thisCoverageProps => bool_decide (is_Some (body_bbox thisCoverageProps)))
          coverageAreas = false.
Proof.
  induction coverageAreas as [|area areas IH]; intros coverages; cbn [readCoveragesFrom forallb].
  - split; discriminate.
  - destruct (body_bbox area) as [[[[bbox0 bbox1] bbox2] bbox3] |].
    + rewrite bool_decide_eq_true_2 by eauto. cbn [andb]. apply IH.
    + rewrite bool_decide_eq_false_2 by (intros [? ?]; discriminate). split; reflexivity.
Qed.

(** The outer loop throws exactly at an entry that cannot be read, and what
    it has pushed by then is behind what was there. *)
Lemma readAttributionsFrom_spec (attributionProps : list AttributionBody) :
  forall _attributions,
    (fst (readAttributionsFrom attributionProps _attributions) = Thrown
     <-> forallb readableAttribution attributionProps = false)
    /\ exists read,
         default [] (snd (readAttributionsFrom attributionProps _attributions))
         = default [] _attributions ++ read.
Proof.
  induction attributionProps as [|props rest IH]; intros old;
    cbn [readAttributionsFrom forallb].
  - split; [split; discriminate | exists []; now rewrite app_nil_r].
  - unfold readableAttribution at 1.
    destruct (body_coverageAreas props) as [areas |]; cbn [fst snd andb].
    + pose proof (readCoveragesFrom_readable areas []) as Hareas.
      destruct (readCoveragesFrom areas []) as [coverages |].
      * destruct (forallb _ areas);
          [| pose proof (proj2 Hareas eq_refl); discriminate]. cbn [andb].
        destruct (IH (Some (default [] old ++ [mkBingAttribution (body_attribution props)
                                                  coverages]))) as [Hthrow [read Hread]].
        split; [exact Hthrow |]. rewrite Hread. cbn [default]. unfold id.
        rewrite <- app_assoc. eauto.
      * rewrite (proj1 Hareas eq_refl). cbn [andb fst snd].
        split; [split; reflexivity | exists []; now rewrite app_nil_r].
    + split; [split; reflexivity | exists []; now rewrite app_nil_r].
Qed.

(** X24: [initialize] throws exactly when the request throws or the body is
    not one in which it finds all it dereferences.  When it throws, no tile
    request has been sent, the map type, the fingerprint and the tiling
    scheme are what they were, and the attributions the provider had are
    still in front of its list.  How far the other fields have been
    assigned depends on what is missing: nothing without a logo URL, the
    logo URL alone without a first resource, and the zoom levels and tile
    size too, but not the URL template, without an image URL. *)
Theorem Bing_initialize_failure (this : BingImagery) (w : World) :
  let '(outcome, this', w') :=
    Bing_initialize_any World Aerial Hybrid request sendTileRequest assertionsEnabled
      this w in
  let '(response, w1) := request (bingRequestUrl Aerial Hybrid (Bing_mapType this)) w in
  (outcome = Thrown
   <-> match response with
       | Returned bingResponseProps => readableBody bingResponseProps = false
       | Thrown => True
       end)
  /\ (outcome = Thrown ->
      w' = w1
      /\ Bing_mapType this' = Bing_mapType this
      /\ _missingTileData (Bing_imagery this') = _missingTileData (Bing_imagery this)
      /\ _mapTilingScheme (Bing_imagery this') = _mapTilingScheme (Bing_imagery this)
      /\ (exists read,
            default [] (_attributions (Bing_imagery this'))
            = default [] (_attributions (Bing_imagery this)) ++ read)
      /\ match response with
         | Thrown => this' = this
         | Returned bingResponseProps =>
             match body_brandLogoUri bingResponseProps with
             | None => this' = this
             | Some brandLogoUri =>
                 _logoUrl this' = Some (replaceHttpWithHttps brandLogoUri)
                 /\ match firstResourceBody bingResponseProps with
                    | None =>
                        this' = mkBingImagery (Bing_mapType this)
                                  (Some (replaceHttpWithHttps brandLogoUri))
                                  (_zoomMin this) (_zoomMax this)
                                  (_tileHeight this) (_tileWidth this) (Bing_imagery this)
                    | Some thisResourceProps =>
                        _zoomMin this' = body_zoomMin thisResourceProps
                        /\ _zoomMax this' = body_zoomMax thisResourceProps
                        /\ _tileHeight this' = body_imageHeight thisResourceProps
                        /\ _tileWidth this' = body_imageWidth thisResourceProps
                        /\ (body_imageUrl thisResourceProps = None ->
                            Bing_imagery this' = Bing_imagery this)
                    end
             end
         end).
Proof.
  unfold Bing_initialize_any, readableBody.
  destruct (request (bingRequestUrl Aerial Hybrid (Bing_mapType this)) w) as [[body |] w1].
  2: { split; [tauto |]. intros _.
       split_and!; first [reflexivity | exists []; now rewrite app_nil_r]. }
  destruct (body_brandLogoUri body) as [logo |].
  2: { split; [split; reflexivity |]. intros _.
       split_and!; first [reflexivity | exists []; now rewrite app_nil_r]. }
  rewrite bool_decide_eq_true_2 by eauto. cbn [andb].
  destruct (firstResourceBody body) as [res |].
  2: { split; [split; reflexivity |]. intros _.
       split_and!; first [reflexivity | exists []; now rewrite app_nil_r]. }
  destruct (body_imageUrl res) as [url |].
  - rewrite bool_decide_eq_true_2 by eauto. cbn [andb].
    cbn [Bing_mapType Bing_imagery _logoUrl _zoomMin _zoomMax _tileHeight _tileWidth].
    destruct (body_imageryProviders res) as [providers |].
    + destruct (readAttributionsFrom_spec providers (_attributions (Bing_imagery this)))
        as [Hthrow Hread].
      destruct (readAttributionsFrom providers (_attributions (Bing_imagery this)))
        as [[[] |] attributions]; cbn [fst snd] in Hthrow, Hread; lazy beta iota zeta.
      * split; [split; [discriminate |] | discriminate].
        intros E. now apply Hthrow in E.
      * split; [split; [intros _; now apply Hthrow | reflexivity] |].
        intros _. split_and!; first [reflexivity | exact Hread | discriminate].
    + split; [split; reflexivity |]. intros _.
      split_and!; first [reflexivity | exists []; now rewrite app_nil_r | discriminate].
  - rewrite bool_decide_eq_false_2 by (intros [? ?]; discriminate). cbn [andb].
    split; [split; reflexivity |]. intros _.
    split_and!; first [reflexivity | exists []; now rewrite app_nil_r].
Qed.

(** X25: After a successful [initialize] the logo URL and the URL template are
    set and neither starts with "http:", and the subdomains are those of the
    body, absent if the body has none: [constructUrl] throws for a tile
    only if [tileXYToQuadKey] does or the body had no subdomains, and then
    for every tile.  The tile request of the probe has been sent if the URL
    of its tile could be built, and not otherwise. *)
Theorem Bing_initialize_https (this this' : BingImagery) (w w' : World) :
  Bing_initialize_any World Aerial Hybrid request sendTileRequest assertionsEnabled this w
  = (Returned tt, this', w') ->
  exists bingResponseProps thisResourceProps w1 logoUrl template,
    request (bingRequestUrl Aerial Hybrid (Bing_mapType this)) w
    = (Returned bingResponseProps, w1)
    /\ firstResourceBody bingResponseProps = Some thisResourceProps
    /\ _logoUrl this' = Some logoUrl /\ startsWith logoUrl "http:" = false
    /\ _urlTemplate (Bing_imagery this') = Some template
    /\ startsWith template "http:" = false
    /\ _urlSubdomains (Bing_imagery this') = body_imageUrlSubdomains thisResourceProps
    /\ (forall debug row column zoomLevel,
          Bing_constructUrl debug (Bing_imagery this') row column zoomLevel = Thrown
          <-> tileXYToQuadKey debug column row zoomLevel = Thrown
              \/ body_imageUrlSubdomains thisResourceProps = None)
    /\ w' = match Bing_constructUrl assertionsEnabled (Bing_imagery this')
                    (JS.Num 0) (JS.Num 0) (JS.sub (_zoomMax this') (JS.Num 1)) with
            | Returned tileUrl => sendTileRequest tileUrl w1
            | Thrown => w1
            end.
Proof.
  unfold Bing_initialize_any.
  destruct (request (bingRequestUrl Aerial Hybrid (Bing_mapType this)) w) as [[body |] w1];
    [| discriminate].
  destruct (body_brandLogoUri body) as [logo |]; [| discriminate].
  destruct (firstResourceBody body) as [res |] eqn:Hfirst; [| discriminate].
  destruct (body_imageUrl res) as [url |]; [| discriminate].
  destruct (body_imageryProviders res) as [providers |]; [| discriminate].
  cbn [Bing_mapType Bing_imagery _logoUrl _zoomMin _zoomMax _tileHeight _tileWidth].
  destruct (readAttributionsFrom providers (_attributions (Bing_imagery this)))
    as [[[] |] attributions]; [| discriminate].
  intros [= <- <-].
  exists body, res, w1, (replaceHttpWithHttps logo),
    (replaceHttpWithHttps (JS.replace url "{culture}" "en-US")).
  cbn [Bing_imagery _logoUrl _urlTemplate _urlSubdomains _zoomMax].
  split_and!; try reflexivity; try apply replaceHttpWithHttps_never; try exact Hfirst.
  intros debug row column zoomLevel. unfold Bing_constructUrl.
  cbn [_urlSubdomains _urlTemplate].
  destruct (tileXYToQuadKey debug column row zoomLevel); cbn [bindO].
  - destruct (body_imageUrlSubdomains res); split;
      first [discriminate | reflexivity | intros [? | ?]; discriminate | now right].
  - split; [now left | reflexivity].
Qed.

(** A body that has every property is read as [Bing_initialize] reads it. *)
Lemma readCoveragesFrom_full (coverageAreas : list CoverageAreaProps) :
  forall coverages,
    readCoveragesFrom (fullCoverageArea <$> coverageAreas) coverages
    = Returned (coverages ++ map Coverage_new coverageAreas).
Proof.
  induction coverageAreas as [|area areas IH]; intros coverages;
    cbn [fmap list_fmap readCoveragesFrom map].
  - now rewrite app_nil_r.
  - cbn [fullCoverageArea body_bbox body_areaZoomMin body_areaZoomMax].
    destruct (area_bbox area) as [[[bbox0 bbox1] bbox2] bbox3] eqn:E.
    change (list_fmap _ _ fullCoverageArea areas) with (fullCoverageArea <$> areas).
    rewrite IH, <- app_assoc. unfold Coverage_new. now rewrite E.
Qed.

Lemma readAttributionsFrom_full (attributionProps : list AttributionProps) :
  forall _attributions,
    readAttributionsFrom (fullAttribution <$> attributionProps) _attributions
    = (Returned tt, readAttributions attributionProps _attributions).
Proof.
  induction attributionProps as [|props rest IH]; intros old; [reflexivity |].
  cbn [fmap list_fmap readAttributionsFrom fullAttribution body_coverageAreas
         body_attribution].
  rewrite readCoveragesFrom_full. cbn [app].
  change (list_fmap _ _ fullAttribution rest) with (fullAttribution <$> rest).
  rewrite IH. unfold readAttributions. cbn [fold_left]. rewrite readCoverages_map.
  reflexivity.
Qed.

End InitializeAnyFacts.

Lemma Bing_initialize_any_full (World : Type) (Aerial Hybrid : Q)
    (request : string -> Async World BingResponseProps)
    (sendTileRequest : string -> World -> World) (assertionsEnabled : bool)
    (this : BingImagery) (w : World) :
  fst (Bing_initialize_any World Aerial Hybrid (fullRequest request) sendTileRequest
         assertionsEnabled this w)
  = fst (Bing_initialize World Aerial Hybrid request this w).
Proof.
  unfold Bing_initialize_any, Bing_initialize, fullRequest.
  destruct (request (bingRequestUrl Aerial Hybrid (Bing_mapType this)) w) as [[body |] w1];
    [| reflexivity].
  unfold firstResourceBody, fullBody. cbn [body_brandLogoUri body_resourceSets].
  destruct (resourceSets body) as [|set sets]; [reflexivity |].
  cbn [fmap list_fmap lookup list_lookup fullResourceSet body_resources].
  destruct (resources set) as [|res rest]; [reflexivity |].
  cbn [fmap list_fmap lookup list_lookup fullResource body_imageUrl body_imageryProviders
         body_imageUrlSubdomains body_zoomMin body_zoomMax body_imageHeight
         body_imageWidth].
  change (list_fmap _ _ fullAttribution (imageryProviders res))
    with (fullAttribution <$> imageryProviders res).
  rewrite readAttributionsFrom_full. reflexivity.
Qed.

(** A body whose first resource has no image URL: [initialize] throws with
    the logo URL, the zoom levels and the tile size assigned and the URL
    template still missing, and no tile request is sent. *)
Example Bing_initialize_without_imageUrl :
  Bing_initialize_any (list string) 2 3 (sampleBodyRequest sampleBodyWithoutImageUrl)
    sampleSendTileRequest true (Bing_new sampleScheme 1) []
  = (Thrown,
     mkBingImagery 1 (Some "https://dev.virtualearth.net/Branding/logo_powered_by.png")
       (JS.Num 1) (JS.Num 21) (JS.Num 256) (JS.Num 256)
       (mkBingImageryProvider None None None None sampleScheme),
     ["https://dev.virtualearth.net/REST/v1/Imagery/Metadata/Road?o=json&incl=ImageryProviders&key=AtaeI3QDNG7Bpv1L53cSfDBgBKXIgLq3q-xmn_Y2UyzvF-68rdVxwAuje49syGZt"]).
Proof. reflexivity. Qed.

Lemma Bing_initialize_https_witness :
  exists bingResponseProps thisResourceProps w1 logoUrl template,
    sampleBodyRequest sampleBodyWithoutSubdomains
      (bingRequestUrl 2 3 (Bing_mapType (Bing_new sampleScheme 1))) []
    = (Returned bingResponseProps, w1)
    /\ firstResourceBody bingResponseProps = Some thisResourceProps
    /\ logoUrl = "https://dev.virtualearth.net/Branding/logo_powered_by.png"
    /\ template = "https://ecn.{subdomain}.tiles.virtualearth.net/tiles/r{quadkey}.jpeg"
    /\ body_imageUrlSubdomains thisResourceProps = None
    /\ Bing_constructUrl true
         (Bing_imagery
            (snd (fst (Bing_initialize_any (list string) 2 3
                         (sampleBodyRequest sampleBodyWithoutSubdomains)
                         sampleSendTileRequest true (Bing_new sampleScheme 1) []))))
         (JS.Num 5) (JS.Num 3) (JS.Num 3) = Thrown
    /\ snd (Bing_initialize_any (list string) 2 3
              (sampleBodyRequest sampleBodyWithoutSubdomains)
              sampleSendTileRequest true (Bing_new sampleScheme 1) []) = w1.
Proof.
  destruct (Bing_initialize_https (list string) 2 3
              (sampleBodyRequest sampleBodyWithoutSubdomains) sampleSendTileRequest true
              (Bing_new sampleScheme 1)
              (snd (fst (Bing_initialize_any (list string) 2 3
                           (sampleBodyRequest sampleBodyWithoutSubdomains)
                           sampleSendTileRequest true (Bing_new sampleScheme 1) [])))
              []
              (snd (Bing_initialize_any (list string) 2 3
                      (sampleBodyRequest sampleBodyWithoutSubdomains)
                      sampleSendTileRequest true (Bing_new sampleScheme 1) []))
              eq_refl)
    as (body & res & w1 & logoUrl & template & Hrequest & Hfirst & Hlogo & _ & Htemplate
        & _ & Hsub & Hthrows & Hworld).
  exists body, res, w1, logoUrl, template.
  injection Hrequest as <- <-. injection Hfirst as <-.
  injection Hlogo as <-. injection Htemplate as <-.
  split_and!; reflexivity.
Defined.

(** ** The trees of the background map supplier *)

Section SupplierFacts.

Variable World : Type.
Variables Street Aerial Hybrid : Q.
Variable WebMercatorTilingScheme : MapTilingScheme.
Variable request : string -> Async World BingResponseProps.
Variable GeoCoordStatus : Type.
Context `{EqDecision GeoCoordStatus}.
Variable NoGCSDefined : GeoCoordStatus.
Variable hasEcefLocation : World -> bool.
Variable transientIdsNext : Async World string.
Variable getIModelCoordinatesFromGeoCoordinates : Async World (list GeoCoordStatus).
Variable assertionsEnabled : bool.

Lemma createTileTreeFromImageryProvider_some (P : Type) (initialize : P -> Async World P)
    (imageryProvider : P) (groundBias : Q) (w : World) :
  hasEcefLocation w = true ->
  fst (createTileTreeFromImageryProvider World P GeoCoordStatus NoGCSDefined hasEcefLocation
         transientIdsNext getIModelCoordinatesFromGeoCoordinates initialize
         imageryProvider groundBias w) <> Returned None.
Proof.
  intros Hecef. unfold createTileTreeFromImageryProvider. rewrite Hecef. cbn [negb].
  unfold bindA. destruct (initialize imageryProvider w) as [[provider |] w1]; [| discriminate].
  destruct (transientIdsNext w1) as [[modelId |] w2]; [| discriminate].
  destruct (getGcsConverterAvailable World GeoCoordStatus NoGCSDefined
              getIModelCoordinatesFromGeoCoordinates w2) as [[haveConverter |] w3];
    discriminate.
Qed.

Lemma createTileTreeFromImageryProvider_rejected (P : Type) (initialize : P -> Async World P)
    (imageryProvider : P) (groundBias : Q) (w w' : World) :
  hasEcefLocation w = true ->
  initialize imageryProvider w = (Thrown, w') ->
  createTileTreeFromImageryProvider World P GeoCoordStatus NoGCSDefined hasEcefLocation
    transientIdsNext getIModelCoordinatesFromGeoCoordinates initialize
    imageryProvider groundBias w = (Thrown, w').
Proof.
  intros Hecef Hinit. unfold createTileTreeFromImageryProvider. rewrite Hecef. cbn [negb].
  unfold bindA. rewrite Hinit. reflexivity.
Qed.

(** X26: [createTileTree] resolves to undefined in two cases only: the id names
    neither of the two providers, or it names one, the provider could be
    constructed and the iModel has no ECEF location.  In both cases nothing
    has been asked of the iModel or of the imagery service. *)
Theorem createTileTree_undefined (id : BackgroundMapTreeId Q) (w : World) :
  (fst (createTileTree World Street Aerial Hybrid WebMercatorTilingScheme request
          GeoCoordStatus NoGCSDefined hasEcefLocation transientIdsNext
          getIModelCoordinatesFromGeoCoordinates assertionsEnabled id w) = Returned None
   <-> (providerName id <> "BingProvider" /\ providerName id <> "MapBoxProvider")
       \/ (hasEcefLocation w = false
           /\ (providerName id = "BingProvider"
               \/ (providerName id = "MapBoxProvider"
                   /\ MapBox_new Street Aerial Hybrid assertionsEnabled (mapType id)
                      <> Thrown))))
  /\ (fst (createTileTree World Street Aerial Hybrid WebMercatorTilingScheme request
             GeoCoordStatus NoGCSDefined hasEcefLocation transientIdsNext
             getIModelCoordinatesFromGeoCoordinates assertionsEnabled id w) = Returned None ->
      snd (createTileTree World Street Aerial Hybrid WebMercatorTilingScheme request
             GeoCoordStatus NoGCSDefined hasEcefLocation transientIdsNext
             getIModelCoordinatesFromGeoCoordinates assertionsEnabled id w) = w).
Proof.
  unfold createTileTree.
  destruct (String.eqb_spec (providerName id) "BingProvider") as [Ebing | Nbing].
  - destruct (hasEcefLocation w) eqn:Hecef.
    + split; [split |].
      * intros Hnone. now apply createTileTreeFromImageryProvider_some in Hnone.
      * intros [[Hn _] | [Hfalse _]]; [contradiction | discriminate].
      * intros Hnone. now apply createTileTreeFromImageryProvider_some in Hnone.
    + unfold createTileTreeFromImageryProvider. rewrite Hecef. cbn [negb fst snd retA].
      split; [split |]; [intros _; right; split; [reflexivity | now left] | reflexivity
                        | reflexivity].
  - destruct (String.eqb_spec (providerName id) "MapBoxProvider") as [Emap | Nmap].
    + destruct (MapBox_new Street Aerial Hybrid assertionsEnabled (mapType id))
        as [provider |] eqn:Enew; cbn [bindO fst snd].
      * destruct (hasEcefLocation w) eqn:Hecef.
        -- split; [split |].
           ++ intros Hnone. now apply createTileTreeFromImageryProvider_some in Hnone.
           ++ intros [[_ Hn] | [Hfalse _]]; [contradiction | discriminate].
           ++ intros Hnone. now apply createTileTreeFromImageryProvider_some in Hnone.
        -- unfold createTileTreeFromImageryProvider. rewrite Hecef. cbn [negb fst snd retA].
           split; [split |]; [| reflexivity | reflexivity].
           intros _. right. split; [reflexivity |]. right. split; [exact Emap | discriminate].
      * split; [split |]; [discriminate | | discriminate].
        intros [[_ Hn] | [_ [Hb | [_ Hthrown]]]]; [contradiction | contradiction |].
        now contradict Hthrown.
    + cbn [fst snd]. split; [split |]; [| reflexivity | reflexivity].
      intros _. left. split; assumption.
Qed.

(** X27: For the Bing provider and an iModel with an ECEF location,
    [createTileTree] rejects when the metadata cannot be had: the request
    fails, or its answer has no first resource.  No tree is created and the
    iModel is not asked for an id. *)
Theorem createTileTree_Bing_rejected (id : BackgroundMapTreeId Q) (w : World) :
  providerName id = "BingProvider" ->
  hasEcefLocation w = true ->
  match fst (request (bingRequestUrl Aerial Hybrid (mapType id)) w) with
  | Returned bingResponseProps => firstResource bingResponseProps = None
  | Thrown => True
  end ->
  createTileTree World Street Aerial Hybrid WebMercatorTilingScheme request
    GeoCoordStatus NoGCSDefined hasEcefLocation transientIdsNext
    getIModelCoordinatesFromGeoCoordinates assertionsEnabled id w
  = (Thrown, snd (request (bingRequestUrl Aerial Hybrid (mapType id)) w)).
Proof.
  intros Hname Hecef Hmetadata. unfold createTileTree. rewrite Hname. cbn [String.eqb].
  change (String.eqb "BingProvider" "BingProvider") with true. cbn iota.
  apply createTileTreeFromImageryProvider_rejected; [exact Hecef |].
  unfold initializeInstance, Bing_initialize, Bing_new. cbn [Bing_mapType].
  unfold firstResource in Hmetadata.
  destruct (request (bingRequestUrl Aerial Hybrid (mapType id)) w) as [[body |] w1];
    cbn [fst snd] in *; [| reflexivity].
  destruct (resourceSets body) as [|set sets]; cbn [lookup list_lookup]; [reflexivity |].
  destruct (resources set) as [|res rest]; cbn [lookup list_lookup]; [reflexivity |].
  discriminate.
Qed.

End SupplierFacts.

Lemma createTileTree_Bing_rejected_witness :
  createTileTree (list string) 1 2 3 sampleScheme sampleMetadataRequest bool false
    sampleHasEcef sampleNextId sampleConverter true
    (mkBackgroundMapTreeId "BingProvider" 2%Q 0%Q false) ["ecef"]
  = (Thrown,
     ["ecef"; "https://dev.virtualearth.net/REST/v1/Imagery/Metadata/Aerial?o=json&incl=ImageryProviders&key=AtaeI3QDNG7Bpv1L53cSfDBgBKXIgLq3q-xmn_Y2UyzvF-68rdVxwAuje49syGZt"]).
Proof.
  apply (createTileTree_Bing_rejected (list string) 1 2 3 sampleScheme sampleMetadataRequest
           bool false sampleHasEcef sampleNextId sampleConverter true
           (mkBackgroundMapTreeId "BingProvider" 2%Q 0%Q false) ["ecef"]);
    [reflexivity | reflexivity | exact I].
Defined.

(** ** The plane of a tile tree reference *)

Section PlaneFacts.

Variable Plane3dByOriginAndUnitNormal : Type.
Variable createXYPlane : Point3d -> Plane3dByOriginAndUnitNormal.

Lemma plane_keeps (height : Q) (_plane : option (PlaneAtHeight Plane3dByOriginAndUnitNormal)) :
  (forall cached, _plane = Some cached ->
     plane_plane cached = createXYPlane (mkPoint3d 0 0 (plane_height cached))) ->
  forall cached, snd (plane Plane3dByOriginAndUnitNormal createXYPlane height _plane)
                 = Some cached ->
    plane_plane cached = createXYPlane (mkPoint3d 0 0 (plane_height cached)).
Proof.
  intros Hold cached. unfold plane. cbn [snd]. destruct _plane as [old |].
  - destruct (Qeq_bool (plane_height old) height); cbn [negb]; intros [= <-];
      [now apply Hold | reflexivity].
  - intros [= <-]. reflexivity.
Qed.

Lemma planeReachable_invariant (_plane : option (PlaneAtHeight Plane3dByOriginAndUnitNormal)) :
  planeReachable Plane3dByOriginAndUnitNormal createXYPlane _plane ->
  forall cached, _plane = Some cached ->
    plane_plane cached = createXYPlane (mkPoint3d 0 0 (plane_height cached)).
Proof.
  induction 1 as [| height _plane _ IH | loader height planes _plane _ IH].
  - discriminate.
  - now apply plane_keeps.
  - unfold addPlanes. destruct loader as [[[range |] |] |]; cbn [snd]; try exact IH.
    all: pose proof (plane_keeps height _plane IH) as Hkeep.
    all: destruct (plane Plane3dByOriginAndUnitNormal createXYPlane height _plane)
      as [first _plane1]; cbn [snd] in Hkeep.
    all: pose proof (plane_keeps height _plane1 Hkeep) as Hkeep1.
    all: destruct (plane Plane3dByOriginAndUnitNormal createXYPlane height _plane1);
      exact Hkeep1.
Qed.

Lemma plane_again (height : Q) (_plane : option (PlaneAtHeight Plane3dByOriginAndUnitNormal)) :
  plane Plane3dByOriginAndUnitNormal createXYPlane height
    (snd (plane Plane3dByOriginAndUnitNormal createXYPlane height _plane))
  = plane Plane3dByOriginAndUnitNormal createXYPlane height _plane.
Proof.
  unfold plane. cbn [snd]. destruct _plane as [cached |].
  - destruct (Qeq_bool (plane_height cached) height) eqn:E; cbn [negb].
    + now rewrite E.
    + cbn [plane_height]. now rewrite (proj2 (Qeq_bool_iff height height) (Qeq_refl _)).
  - cbn [plane_height]. now rewrite (proj2 (Qeq_bool_iff height height) (Qeq_refl _)).
Qed.

(** X28: [plane] always answers with a plane created at the current ground bias,
    however the bias has changed since the plane kept was created; the plane
    is kept with that height, and asking again at the same bias gives the
    same plane and creates none. *)
Theorem plane_current (_groundBias : Q) (_plane : option (PlaneAtHeight Plane3dByOriginAndUnitNormal)) :
  planeReachable Plane3dByOriginAndUnitNormal createXYPlane _plane ->
  let '(this_plane, _plane') :=
    plane Plane3dByOriginAndUnitNormal createXYPlane _groundBias _plane in
  exists height,
    Qeq height _groundBias
    /\ this_plane = createXYPlane (mkPoint3d 0 0 height)
    /\ _plane' = Some (mkPlaneAtHeight height this_plane)
    /\ plane Plane3dByOriginAndUnitNormal createXYPlane _groundBias _plane'
       = (this_plane, _plane').
Proof.
  intros Hreach. pose proof (planeReachable_invariant _plane Hreach) as Hinv.
  unfold plane. destruct _plane as [cached |].
  - destruct (Qeq_bool (plane_height cached) _groundBias) eqn:E; cbn [negb].
    + exists (plane_height cached). split_and!.
      * now apply Qeq_bool_iff.
      * now apply Hinv.
      * now destruct cached.
      * now rewrite E.
    + exists _groundBias. cbn [plane_plane plane_height].
      rewrite (proj2 (Qeq_bool_iff _groundBias _groundBias) (Qeq_refl _)).
      split_and!; reflexivity.
  - exists _groundBias. cbn [plane_plane plane_height].
    rewrite (proj2 (Qeq_bool_iff _groundBias _groundBias) (Qeq_refl _)).
    split_and!; reflexivity.
Qed.

Section CreatedTree.

Variables World P GeoCoordStatus : Type.
Context `{EqDecision GeoCoordStatus}.
Variable NoGCSDefined : GeoCoordStatus.
Variable hasEcefLocation : World -> bool.
Variable transientIdsNext : Async World string.
Variable getIModelCoordinatesFromGeoCoordinates : Async World (list GeoCoordStatus).
Variable initialize : P -> Async World P.

(** X29: For a tree that [createTileTreeFromImageryProvider] has created,
    [addPlanes] adds one plane and no more: its loader has no height range,
    so the plane is the reference's own, at the current ground bias.  The
    planes already in the array are kept in front. *)
Theorem addPlanes_created_tree (imageryProvider : P) (groundBias _groundBias : Q)
    (w w' : World) (tree : BackgroundMapTileTree P)
    (planes : list Plane3dByOriginAndUnitNormal) (_plane : option (PlaneAtHeight Plane3dByOriginAndUnitNormal)) :
  createTileTreeFromImageryProvider World P GeoCoordStatus NoGCSDefined hasEcefLocation
    transientIdsNext getIModelCoordinatesFromGeoCoordinates initialize
    imageryProvider groundBias w = (Returned (Some tree), w') ->
  planeReachable Plane3dByOriginAndUnitNormal createXYPlane _plane ->
  exists height,
    Qeq height _groundBias
    /\ addPlanes Plane3dByOriginAndUnitNormal createXYPlane (Some (loaderOf tree))
         _groundBias planes _plane
       = (planes ++ [createXYPlane (mkPoint3d 0 0 height)],
          Some (mkPlaneAtHeight height (createXYPlane (mkPoint3d 0 0 height)))).
Proof.
  intros Hcreate Hreach.
  assert (Hloader : loaderOf tree = MapTileLoader None).
  { unfold createTileTreeFromImageryProvider in Hcreate.
    destruct (hasEcefLocation w); cbn [negb] in Hcreate; [| discriminate].
    unfold bindA in Hcreate.
    destruct (initialize imageryProvider w) as [[provider |] w1]; [| discriminate].
    destruct (transientIdsNext w1) as [[modelId |] w2]; [| discriminate].
    destruct (getGcsConverterAvailable World GeoCoordStatus NoGCSDefined
                getIModelCoordinatesFromGeoCoordinates w2) as [[haveConverter |] w3];
      [| discriminate].
    injection Hcreate as <- _. reflexivity. }
  rewrite Hloader. unfold addPlanes.
  pose proof (plane_keeps _groundBias _plane (planeReachable_invariant _plane Hreach)) as Hkeep.
  assert (Hheight : exists cached,
             snd (plane Plane3dByOriginAndUnitNormal createXYPlane _groundBias _plane)
             = Some cached
             /\ fst (plane Plane3dByOriginAndUnitNormal createXYPlane _groundBias _plane)
                = plane_plane cached
             /\ Qeq (plane_height cached) _groundBias).
  { unfold plane. cbn [fst snd]. eexists. split_and!; [reflexivity | reflexivity |].
    destruct _plane as [cached |]; [| reflexivity].
    destruct (Qeq_bool (plane_height cached) _groundBias) eqn:E; cbn [negb];
      [now apply Qeq_bool_iff | reflexivity]. }
  destruct Hheight as (cached & Hsnd & Hfst & Heq).
  pose proof (plane_again _groundBias _plane) as Hagain.
  destruct (plane Plane3dByOriginAndUnitNormal createXYPlane _groundBias _plane)
    as [this_plane _plane'].
  cbn [snd] in Hagain. rewrite Hagain.
  cbn [fst snd] in *. subst. exists (plane_height cached). split; [exact Heq |].
  pose proof (Hkeep cached eq_refl) as Hplane. destruct cached as [height this_plane].
  cbn [plane_plane plane_height] in *. now rewrite Hplane.
Qed.

End CreatedTree.

End PlaneFacts.

Lemma plane_current_witness :
  planeReachable Point3d (fun origin => origin) None
  /\ let '(this_plane, _plane') := plane Point3d (fun origin => origin) (1 # 2) None in
     exists height,
       Qeq height (1 # 2)
       /\ this_plane = mkPoint3d 0 0 height
       /\ _plane' = Some (mkPlaneAtHeight height this_plane)
       /\ plane Point3d (fun origin => origin) (1 # 2) _plane' = (this_plane, _plane').
Proof.
  split; [constructor |].
  apply (plane_current Point3d (fun origin => origin) (1 # 2) None). constructor.
Defined.

Lemma addPlanes_created_tree_witness :
  exists height,
    Qeq height (1 # 2)
    /\ addPlanes Point3d (fun origin => origin)
         (Some (loaderOf
                  (mkBackgroundMapTileTree
                     (WebMapTileTreeProps_new 0 "0xffffff0000000001" None None)
                     (mkWebMapTileLoader
                        (mkMapBoxImageryProvider "https://api.mapbox.com/v4/mapbox.streets/")
                        "0xffffff0000000001" 0 None)
                     "0xffffff0000000001" 0 0 false (Range1d_createXX 0 0))))
         (1 # 2) [mkPoint3d 0 0 7] None
       = ([mkPoint3d 0 0 7] ++ [mkPoint3d 0 0 height],
          Some (mkPlaneAtHeight height (mkPoint3d 0 0 height))).
Proof.
  apply (addPlanes_created_tree Point3d (fun origin => origin) (list string)
           MapBoxImageryProvider bool false sampleHasEcef sampleNextId sampleConverter
           sampleInitialize
           (mkMapBoxImageryProvider "https://api.mapbox.com/v4/mapbox.streets/") 0 (1 # 2)
           ["ecef"]
           ["ecef"; "initialize"; "transientIds.next"; "getIModelCoordinatesFromGeoCoordinates"]);
    [reflexivity | constructor].
Defined.

(** ** The attributions shown *)

(** X30: With tiles whose content ids can be read, [showAttributions] shows the
    copyright message of each attribution of the provider that matches one
    of the tiles, once each, followed by the geometry attribution if there
    is one.  If no attribution matches it shows the brief message instead,
    and the geometry attribution is not shown at all. *)
Theorem showAttributions_spec (assertionsEnabled : bool) (translate : string -> string)
    (this : BingImageryProvider) (tiles : list Tile) (geometryAttribution : option string) :
  Forall (fun tile => exists quadId,
            createFromContentId assertionsEnabled (tileContentId tile) = Returned quadId)
         tiles ->
  exists indices,
    NoDup indices
    /\ (forall i, i ∈ indices <->
          exists attribution tile,
            default [] (_attributions this) !! i = Some attribution /\ tile ∈ tiles
            /\ matchesTile assertionsEnabled attribution tile (_mapTilingScheme this)
               = Returned true)
    /\ showAttributions assertionsEnabled translate this tiles geometryAttribution
       = Returned
           match indices with
           | [] => OutputMessage (translate "iModelJs:BackgroundMap.NoBingDataAttribution")
           | _ :: _ =>
               OpenMessageBox (translate "iModelJs:BackgroundMap.BingDataAttribution")
                 (((fun i => default "" (copyrightMessage
                                           <$> default [] (_attributions this) !! i))
                     <$> indices)
                  ++ match geometryAttribution with
                     | Some attribution => [attribution]
                     | None => []
                     end)
           end.
Proof.
  intros Hids.
  destruct (getMatchingAttributions_positions assertionsEnabled this tiles Hids)
    as (indices & Hrun & Hnodup & Hin).
  exists indices. split_and!; [exact Hnodup | exact Hin |].
  unfold showAttributions. rewrite Hrun. cbn [bindO]. rewrite length_fmap.
  destruct indices as [|i indices]; [reflexivity |].
  cbn [length]. destruct (Z.eqb_spec 0 (Z.of_nat (S (length indices)))) as [E | _]; [lia |].
  do 2 f_equal.
  assert (Hitems : copyrightMessage
                     <$> ((fun i => default (mkBingAttribution "" [])
                                      (default [] (_attributions this) !! i))
                            <$> (i :: indices))
                   = (fun i => default "" (copyrightMessage
                                             <$> default [] (_attributions this) !! i))
                       <$> (i :: indices)).
  { rewrite <- list_fmap_compose. apply list_fmap_ext. intros _ j _. cbn.
    destruct (default [] (_attributions this) !! j); reflexivity. }
  rewrite Hitems. destruct geometryAttribution; [reflexivity | now rewrite app_nil_r].
Qed.

Lemma showAttributions_spec_witness :
  exists indices,
    NoDup indices
    /\ (forall i, i ∈ indices <->
          exists attribution tile,
            default [] (_attributions sampleBing) !! i = Some attribution
            /\ tile ∈ sampleTiles
            /\ matchesTile true attribution tile (_mapTilingScheme sampleBing)
               = Returned true)
    /\ showAttributions true (fun key => key) sampleBing sampleTiles (Some "Terrain")
       = Returned
           match indices with
           | [] => OutputMessage "iModelJs:BackgroundMap.NoBingDataAttribution"
           | _ :: _ =>
               OpenMessageBox "iModelJs:BackgroundMap.BingDataAttribution"
                 (((fun i => default "" (copyrightMessage
                                           <$> default [] (_attributions sampleBing) !! i))
                     <$> indices)
                  ++ ["Terrain"])
           end.
Proof.
  apply (showAttributions_spec true (fun key => key) sampleBing sampleTiles (Some "Terrain")).
  repeat (apply Forall_cons; split; [eexists; reflexivity |]). apply Forall_nil_2.
Defined.
